(** * Finance chat backend: SQL safety filter, identifier quoter, query
      executor, ticker resolver, portfolio fetcher and the turn pipeline.

    A shallow embedding of the TypeScript sources under
    [app/(chat)/api/finance] ([helpers.ts], [db.ts], [sql-request.ts],
    [agent-request.ts], [route.ts], [schema.ts], [tools.ts],
    [langsheet-client.ts]) together with the properties the specification
    states about them and further properties read off the code.

    Part I holds the embedding, Part II the lemmas and theorems about the
    statements of the specification, Part III further properties. *)

From Stdlib Require Import List String Ascii Bool Arith NArith ZArith QArith.
From Stdlib Require Import Sorting.Sorted Permutation DecimalString Lia.
Import ListNotations.

Close Scope Q_scope.

Set Implicit Arguments.

(* ================================================================== *)
(** * Part I — the embedding *)
(* ================================================================== *)

(** ** JavaScript strings

    A string is its sequence of characters, a character an [ascii] value.
    The values below 128 are the ASCII characters.  The values from 128 on
    stand for characters outside ASCII: the regular expressions of the
    sources (none carries the [u] or [i] flag) treat those as non-word
    characters, and [toUpperCase] is taken to leave them alone.  The few
    characters outside ASCII whose upper-case form is made of ASCII letters,
    and the two line separators outside ASCII that the regular-expression
    dot refuses, are not modelled. *)

Definition jsstring := list ascii.

Definition str (s : string) : jsstring := list_ascii_of_string s.

Definition code (c : ascii) : N := N_of_ascii c.

Definition inRange (lo hi : N) (c : ascii) : bool :=
  ((lo <=? code c) && (code c <=? hi))%N.

Definition isLower (c : ascii) : bool := inRange 97 122 c.
Definition isUpper (c : ascii) : bool := inRange 65 90 c.
Definition isDigit (c : ascii) : bool := inRange 48 57 c.
Definition isUnderscore (c : ascii) : bool := (code c =? 95)%N.

(** [[a-zA-Z_]] *)
Definition isIdentStart (c : ascii) : bool :=
  isLower c || isUpper c || isUnderscore c.

(** [\w], that is [[a-zA-Z0-9_]] *)
Definition isWordChar (c : ascii) : bool :=
  isIdentStart c || isDigit c.

Definition dquote : ascii := ascii_of_N 34.
Definition squote : ascii := ascii_of_N 39.
Definition percent : ascii := ascii_of_N 37.

Definition isDquote (c : ascii) : bool := (code c =? 34)%N.
Definition isSquote (c : ascii) : bool := (code c =? 39)%N.
Definition isPercent (c : ascii) : bool := (code c =? 37)%N.

(** Line terminators, the characters the regular-expression dot refuses. *)
Definition isLineTerminator (c : ascii) : bool :=
  ((code c =? 10) || (code c =? 13))%N.

Definition upperChar (c : ascii) : ascii :=
  if isLower c then ascii_of_N (code c - 32) else c.

(** [s.toUpperCase()] *)
Definition toUpperCase (s : jsstring) : jsstring := map upperChar s.

Definition jsstring_eqb (a b : jsstring) : bool :=
  if list_eq_dec ascii_dec a b then true else false.

(** [s.startsWith(pat)] at the head of [s]. *)
Fixpoint startsWith (pat s : jsstring) : bool :=
  match pat, s with
  | [], _ => true
  | _ :: _, [] => false
  | p :: pat', c :: s' => Ascii.eqb p c && startsWith pat' s'
  end.

(** [s.includes(pat)] *)
Fixpoint includes (s pat : jsstring) : bool :=
  startsWith pat s ||
  match s with
  | [] => false
  | _ :: s' => includes s' pat
  end.

(** [s.replaceAll(pat, rep)] for a string pattern: matches are taken left to
    right and do not overlap.  [skip] counts the characters of the current
    match that are still to be dropped. *)
Fixpoint replaceAllFrom (pat rep : jsstring) (skip : nat) (s : jsstring)
  : jsstring :=
  match s with
  | [] => []
  | c :: s' =>
      match skip with
      | S k => replaceAllFrom pat rep k s'
      | O =>
          if startsWith pat s
          then rep ++ replaceAllFrom pat rep (pred (List.length pat)) s'
          else c :: replaceAllFrom pat rep 0 s'
      end
  end.

Definition replaceAll (pat rep s : jsstring) : jsstring :=
  replaceAllFrom pat rep 0 s.

(** The callback of stages 5 and 6: every double quote of the match is
    removed. *)
Definition removeDquotes (s : jsstring) : jsstring :=
  filter (fun c => negb (isDquote c)) s.

(** ** helpers.ts: [isDangerousQuery] *)

Definition denylist : list jsstring :=
  [ str "INSERT"; str "UPSERT"; str "DROP"; str "DELETE"; str "ALTER";
    str "CREATE"; str "GRANT"; str "REVOKE"; str "REINDEX" ].

Definition isDangerousQuery (query : jsstring) : bool :=
  includes (toUpperCase query) (str "INSERT") ||
  includes (toUpperCase query) (str "UPSERT") ||
  includes (toUpperCase query) (str "DROP") ||
  includes (toUpperCase query) (str "DELETE") ||
  includes (toUpperCase query) (str "ALTER") ||
  includes (toUpperCase query) (str "CREATE") ||
  includes (toUpperCase query) (str "GRANT") ||
  includes (toUpperCase query) (str "REVOKE") ||
  includes (toUpperCase query) (str "REINDEX").

(** ** db.ts: [enforceCaseSensitivity] *)

Definition sqlKeywords : list jsstring :=
  map str
  [ "SELECT"; "FROM"; "WHERE"; "AND"; "OR"; "IN"; "ORDER"; "BY"; "ASC";
    "DESC"; "LIMIT"; "TRUE"; "FALSE"; "NULL"; "NOT"; "LIKE"; "ILIKE";
    "GROUP"; "HAVING"; "JOIN"; "LEFT"; "RIGHT"; "INNER"; "OUTER"; "ON";
    "AS"; "CASE"; "WHEN"; "THEN"; "ELSE"; "END"; "INTERVAL"; "DISTINCT";
    "BETWEEN"; "EXISTS"; "IS"; "SET"; "UPDATE"; "DELETE"; "INSERT";
    "VALUES"; "CREATE"; "ALTER"; "DROP"; "TABLE"; "VIEW"; "INDEX"; "UNION";
    "EXCEPT"; "INTERSECT"; "ALL"; "ANY"; "SOME"; "COALESCE"; "GREATEST";
    "LEAST"; "HAVING"; "OFFSET"; "FETCH"; "WITH"; "RECURSIVE"; "WINDOW";
    "NULLS"; "LAST"; "CROSS" ]%string.

Definition functionNames : list jsstring :=
  map str
  [ "NOW"; "CURRENT_TIMESTAMP"; "CURRENT_DATE"; "CURRENT_TIME"; "DATE_PART";
    "DATE_TRUNC"; "DATE"; "COUNT"; "SUM"; "AVG"; "MAX"; "MIN"; "ROUND";
    "CEIL"; "FLOOR"; "ABS"; "LENGTH"; "LOWER"; "UPPER"; "TRIM"; "SUBSTRING";
    "POSITION"; "REPLACE"; "CHAR_LENGTH"; "EXTRACT" ]%string.

(** [set.has(x)] *)
Definition has (set : list jsstring) (x : jsstring) : bool :=
  existsb (jsstring_eqb x) set.

Definition isReserved (w : jsstring) : bool :=
  has sqlKeywords (toUpperCase w) || has functionNames (toUpperCase w).

(** The callback of the first [replaceAll]: keywords and functions are left
    as they are, every other token is wrapped in double quotes. *)
Definition quoteToken (w : jsstring) : jsstring :=
  if isReserved w then w else dquote :: w ++ [dquote].

(** The token expression of stage 1 is a word boundary, one character of
    [[a-zA-Z_]], any number of [[a-zA-Z0-9_]], a word boundary.  A maximal
    run of word characters is a match exactly when it starts with a letter
    or an underscore; a run that starts with a digit holds no word boundary
    inside and is left alone. *)
Definition flushWord (w : jsstring) : jsstring :=
  match w with
  | [] => []
  | c :: _ => if isIdentStart c then quoteToken w else w
  end.

(** Stage 1.  [cur] is the run of word characters read so far. *)
Fixpoint quoteTokensFrom (cur s : jsstring) : jsstring :=
  match s with
  | [] => flushWord cur
  | c :: s' =>
      if isWordChar c
      then quoteTokensFrom (cur ++ [c]) s'
      else flushWord cur ++ c :: quoteTokensFrom [] s'
  end.

Definition quoteTokens (s : jsstring) : jsstring := quoteTokensFrom [] s.

(** The lazy body of [/%(.+?)%/] after its opening [%]: at least one
    character that is no line terminator, then the nearest [%].  Returns the
    captured text. *)
Fixpoint lazyToPercent (first : bool) (s : jsstring) : option jsstring :=
  match s with
  | [] => None
  | c :: s' =>
      if negb first && isPercent c then Some []
      else if isLineTerminator c then None
      else option_map (cons c) (lazyToPercent false s')
  end.

(** Stage 5: [.replaceAll(/%(.+?)%/g, m => ...)], the callback removing the
    double quotes of the match. *)
Fixpoint unquoteWildcardsFrom (skip : nat) (s : jsstring) : jsstring :=
  match s with
  | [] => []
  | c :: s' =>
      match skip with
      | S k => unquoteWildcardsFrom k s'
      | O =>
          if isPercent c then
            match lazyToPercent true s' with
            | Some inner =>
                c :: removeDquotes inner ++
                percent :: unquoteWildcardsFrom (S (List.length inner)) s'
            | None => c :: unquoteWildcardsFrom 0 s'
            end
          else c :: unquoteWildcardsFrom 0 s'
      end
  end.

Definition unquoteWildcards (s : jsstring) : jsstring :=
  unquoteWildcardsFrom 0 s.

(** The body of [/'([^']+)'/] after its opening quote: the longest run of
    characters other than the single quote, which has to be non-empty and
    closed by a single quote. *)
Fixpoint runToSquote (s : jsstring) : option jsstring :=
  match s with
  | [] => None
  | c :: s' =>
      if isSquote c then Some []
      else option_map (cons c) (runToSquote s')
  end.

Definition literalBody (s : jsstring) : option jsstring :=
  match runToSquote s with
  | Some (c :: inner) => Some (c :: inner)
  | _ => None
  end.

(** Stage 6: [.replace(/'([^']+)'/g, m => ...)], the same callback on every
    single-quoted literal. *)
Fixpoint unquoteLiteralsFrom (skip : nat) (s : jsstring) : jsstring :=
  match s with
  | [] => []
  | c :: s' =>
      match skip with
      | S k => unquoteLiteralsFrom k s'
      | O =>
          if isSquote c then
            match literalBody s' with
            | Some inner =>
                c :: removeDquotes inner ++
                squote :: unquoteLiteralsFrom (S (List.length inner)) s'
            | None => c :: unquoteLiteralsFrom 0 s'
            end
          else c :: unquoteLiteralsFrom 0 s'
      end
  end.

Definition unquoteLiterals (s : jsstring) : jsstring :=
  unquoteLiteralsFrom 0 s.

(** Stages 2 to 4, the three string-pattern [replaceAll] calls. *)
Definition repairQuoteAdjacency (s : jsstring) : jsstring :=
  replaceAll [dquote; dquote] [dquote]
    (replaceAll [dquote; squote] [squote]
       (replaceAll [squote; dquote] [squote] s)).

Definition enforceCaseSensitivity (query : jsstring) : jsstring :=
  unquoteLiterals (unquoteWildcards (repairQuoteAdjacency (quoteTokens query))).

(** ** JavaScript values, errors and promises *)

(** The values a field typed [any] may hold, as far as the sources tell them
    apart: by truthiness and by [typeof].  [JNum] holds the integral
    numbers, [JNaN] the one falsy number besides zero, and [JObj] stands for
    a plain data object. *)
Inductive JsValue : Type :=
| JUndefined
| JNull
| JBool (b : bool)
| JNum (z : Z)
| JNaN
| JStr (s : jsstring)
| JObj.

(** [!!v] *)
Definition truthy (v : JsValue) : bool :=
  match v with
  | JUndefined | JNull | JNaN => false
  | JBool b => b
  | JNum z => negb (z =? 0)%Z
  | JStr [] => false
  | JStr (_ :: _) => true
  | JObj => true
  end.

Record JsError : Type := { errName : jsstring; errMessage : jsstring }.

Definition TypeError (msg : string) : JsError :=
  {| errName := str "TypeError"; errMessage := str msg |}.

(** [String(err?.message || err)] for a thrown error object: its message, or
    what [Error.prototype.toString] gives when the message is empty. *)
Definition errorText (err : JsError) : jsstring :=
  match errMessage err with
  | [] => errName err
  | _ :: _ => errMessage err
  end.

(** How an awaited promise settles. *)
Inductive Outcome (A : Type) : Type :=
| Fulfilled (a : A)
| Rejected (e : JsError).

Arguments Fulfilled {A} a.
Arguments Rejected {A} e.

Definition bind {A B : Type} (p : Outcome A) (k : A -> Outcome B) : Outcome B :=
  match p with
  | Fulfilled a => k a
  | Rejected e => Rejected e
  end.

Notation "x <- p ;; k" := (bind p (fun x => k))
  (at level 61, p at next level, right associativity).

(** [await Promise.all(ps)]: the values in the order of [ps] when every
    promise fulfils, a rejection as soon as one of them rejects.  Which
    reason is reported when several reject depends on timing; the model
    reports the one of the leftmost rejected promise. *)
Fixpoint promiseAll {A : Type} (ps : list (Outcome A)) : Outcome (list A) :=
  match ps with
  | [] => Fulfilled []
  | Fulfilled a :: ps' =>
      match promiseAll ps' with
      | Fulfilled l => Fulfilled (a :: l)
      | Rejected e => Rejected e
      end
  | Rejected e :: _ => Rejected e
  end.

(** [Promise.all] over the four differently typed elements of a literal
    array, destructured into a tuple. *)
Definition promiseAll4 {A B C D : Type} (a : Outcome A) (b : Outcome B)
    (c : Outcome C) (d : Outcome D) : Outcome (A * B * C * D) :=
  match a, b, c, d with
  | Fulfilled x, Fulfilled y, Fulfilled z, Fulfilled t => Fulfilled (x, y, z, t)
  | Rejected e, _, _, _ => Rejected e
  | _, Rejected e, _, _ => Rejected e
  | _, _, Rejected e, _ => Rejected e
  | _, _, _, Rejected e => Rejected e
  end.

(** ** Data model (helpers.ts, schema.ts) *)

Inductive AssetType : Type := currency | commodity | index | stock | etf | crypto.

(** [ASSET_TYPE_MAP] *)
Definition ASSET_TYPE_MAP (assetClassId : Z) : option AssetType :=
  if (assetClassId =? 1)%Z then Some currency
  else if (assetClassId =? 2)%Z then Some commodity
  else if (assetClassId =? 4)%Z then Some index
  else if (assetClassId =? 5)%Z then Some stock
  else if (assetClassId =? 6)%Z then Some etf
  else if (assetClassId =? 10)%Z then Some crypto
  else None.

Record TickerMatch : Type := {
  ticker : jsstring;
  name : jsstring;
  instrumentId : Z;
  assetType : option AssetType
}.

Record ClassificationAgentSchema : Type := {
  reasoning : jsstring;
  reasoningInSimpleLanguageAddressedAtUser : jsstring;
  isAboutUserPortfolio : bool;
  isAboutStockFundamentals : bool;
  isStockIndustryRelevant : bool;
  isAboutETFs : bool;
  isAboutCurrenciesOrCommoditiesOrIndices : bool;
  isAboutCrypto : bool;
  isAboutNews : bool;
  isAboutEarningsDates : bool;
  isAboutDividendDates : bool;
  isAboutInvestors : bool;
  isAboutSmartPortfolios : bool;
  isAboutAssetPricesOrPerformance : bool;
  userWantsToTradeAnAsset : bool;
  possibleAssetNamesOrTickers : list jsstring;
  isAboutEarningsCallsSummariesOrRevenueSegmentation : bool;
  isAboutCorporateGuidanceOrStrategicOutlook : bool;
  isAboutImportantCEOs : bool;
  previousRelevantTickers : list jsstring
}.

(** A row of [result.rows], opaque to the pipeline. *)
Definition DbRow := list (jsstring * JsValue).

(** The elements of the [comparisonData] array: the objects and strings the
    executor puts there, and the ticker matches of the fallback. *)
Inductive ComparisonItem : Type :=
| ReasoningItem (reasoningOf : JsValue)
| ErrorItem (reasoningOf : JsValue) (errorRunningQuery : jsstring)
| RowItem (row : DbRow)
| TextItem (text : jsstring)
| TickerItem (t : TickerMatch).

(** [typeof item === "object"] *)
Definition isObject (item : ComparisonItem) : bool :=
  match item with
  | TextItem _ => false
  | _ => true
  end.

(** ** sql-request.ts and db.ts: the query executor *)

(** One element of [allQueries]. *)
Record CandidateQuery : Type := {
  sqlQuery : JsValue;
  queryReasoning : JsValue;
  stepName : jsstring
}.

(** The [stepFinish] state message written to the client stream. *)
Record StepFinish : Type := {
  sfStepName : jsstring;
  sfSuccess : bool;
  sfText : jsstring
}.

(** What the executor does to the outside: a line written to the stream, a
    connection taken from the pool, a query sent on it, the connection
    given back. *)
Inductive Event : Type :=
| Wrote (m : StepFinish)
| PoolConnect
| ClientQuery (sql : jsstring)
| ClientRelease.

Definition isDbEvent (ev : Event) : bool :=
  match ev with
  | Wrote _ => false
  | _ => true
  end.

Inductive DbReply : Type :=
| DbRows (rows : list DbRow)
| DbThrows (e : JsError).

Record Database : Type := {
  poolConnect : option JsError;
  clientQuery : jsstring -> DbReply
}.

Definition noResultsText : jsstring :=
  str "Above query successful but no results were returned, probably because there are no results that match the criteria".

(** [dbQueryWithLog(text, [], span, name)]; the tracing span is left out. *)
Definition dbQueryWithLog (db : Database) (text : jsstring)
  : list Event * Outcome (list ComparisonItem) :=
  match poolConnect db with
  | Some e => ([PoolConnect], Rejected e)
  | None =>
      let enforcedQuery := enforceCaseSensitivity text in
      match clientQuery db enforcedQuery with
      | DbRows rows =>
          let output :=
            match rows with
            | [] => [TextItem noResultsText]
            | _ :: _ => map RowItem rows
            end in
          ([PoolConnect; ClientQuery enforcedQuery; ClientRelease],
           Fulfilled output)
      | DbThrows e =>
          ([PoolConnect; ClientQuery enforcedQuery; ClientRelease],
           Rejected e)
      end
  end.

(** [isDangerousQuery(v)] on a value typed [any]: [v.toUpperCase] is a
    function only on strings. *)
Definition isDangerousQueryOf (v : JsValue) : Outcome bool :=
  match v with
  | JStr s => Fulfilled (isDangerousQuery s)
  | JUndefined | JNull =>
      Rejected (TypeError "Cannot read properties of undefined (reading 'toUpperCase')")
  | _ => Rejected (TypeError "query.toUpperCase is not a function")
  end.

(** [typeof v !== "string" || isDangerousQuery(v)] *)
Definition notStringOrDangerous (v : JsValue) : bool :=
  match v with
  | JStr s => isDangerousQuery s
  | _ => true
  end.

Definition natText (n : nat) : jsstring :=
  str (NilEmpty.string_of_uint (Nat.to_uint n)).

Definition write (writer : bool) (step : jsstring) (success : bool)
    (text : jsstring) : list Event :=
  if writer
  then [Wrote {| sfStepName := step; sfSuccess := success; sfText := text |}]
  else [].

(** The text of the closing state message of an executed query. *)
Definition resultsText (results : list ComparisonItem) : jsstring :=
  match results with
  | [] => str "No data found"
  | TextItem t :: _ => t
  | _ :: _ =>
      str "Data retrieved - " ++ natText (List.length results) ++ str " results"
  end.

Definition resultsSuccess (results : list ComparisonItem) : bool :=
  match results with
  | [] => false
  | r :: _ => isObject r
  end.

(** The callback of [allQueries.map]; [writer] tells whether the optional
    writer was passed. *)
Definition runCandidate (writer : bool) (db : Database) (query : CandidateQuery)
  : list Event * Outcome (list ComparisonItem) :=
  if negb (truthy (sqlQuery query)) then
    (write writer (stepName query) false (str "No query to execute"),
     Fulfilled [])
  else if notStringOrDangerous (sqlQuery query) then
    if writer then
      match isDangerousQueryOf (sqlQuery query) with
      | Fulfilled dangerous =>
          (write writer (stepName query) false
             (if dangerous then str "Query is not safe to execute"
              else str "No query to execute"),
           Fulfilled [])
      | Rejected e => ([], Rejected e)
      end
    else ([], Fulfilled [])
  else
    match sqlQuery query with
    | JStr text =>
        let (dbEvents, reply) := dbQueryWithLog db text in
        let (catchEvents, results) :=
          match reply with
          | Fulfilled rows => ([], rows)
          | Rejected err =>
              (write writer (stepName query) false (errorText err),
               [ErrorItem (queryReasoning query) (errorText err)])
          end in
        (dbEvents ++ catchEvents ++
           write writer (stepName query) (resultsSuccess results)
             (resultsText results),
         Fulfilled (ReasoningItem (queryReasoning query) :: results))
    | _ => ([], Fulfilled [])   (* not reached: the guard above took it *)
    end.

(** [generateComparisonDataSqlQueriesResponse(trace, allQueries, writer)]:
    [Promise.all] over the mapped callbacks, then [.flat()].  The events of
    the queries are listed query by query; their real interleaving depends
    on the database, the order of the returned rows does not. *)
Definition generateComparisonDataSqlQueriesResponse (writer : bool)
    (db : Database) (allQueries : list CandidateQuery)
  : list Event * Outcome (list ComparisonItem) :=
  let runs := map (runCandidate writer db) allQueries in
  (List.concat (map fst runs),
   rows <- promiseAll (map snd runs) ;; Fulfilled (List.concat rows)).

(** ** sql-request.ts: the ticker resolver *)

(** A row of [instruments_view] with the selected columns. *)
Record Instrument : Type := {
  rowInstrumentId : Z;
  rowName : jsstring;
  tickerEtoro : jsstring;
  assetClassId : Z
}.

(** The request the query builder has accumulated when it is awaited:
    [.in("assetClassId", ...)], the optional [.or(...)], [.limit(...)]. *)
Record CatalogQuery : Type := {
  assetClassIn : list Z;
  orFilter : option jsstring;
  rowLimit : nat
}.

(** The catalog answers a request with [data], which is [null] on error. *)
Definition InstrumentsView := CatalogQuery -> option (list Instrument).

Definition relevantAssetTypes (classification : ClassificationAgentSchema)
  : list Z :=
  ((if isAboutStockFundamentals classification
       || isAboutNews classification
       || isAboutEarningsDates classification
       || isAboutDividendDates classification
    then [5] else []) ++
   (if isAboutETFs classification || isAboutDividendDates classification
    then [6] else []) ++
   (if isAboutCurrenciesOrCommoditiesOrIndices classification
    then [1; 2; 4] else []) ++
   (if isAboutCrypto classification || isAboutNews classification
    then [10] else []) ++
   (if userWantsToTradeAnAsset classification
       || isAboutAssetPricesOrPerformance classification
       || isAboutInvestors classification
    then [1; 2; 4; 5; 6; 10] else []))%Z.

(** The text appended to [orString] for one search term. *)
Definition orClause (term : jsstring) : jsstring :=
  str "or(name.phfts(english)." ++ term ++
  str ",tickerEtoro.phfts(english)." ++ term ++ str "),".

Definition orString (classification : ClassificationAgentSchema) : jsstring :=
  flat_map orClause
    (possibleAssetNamesOrTickers classification ++
     previousRelevantTickers classification).

Definition toTickerMatch (instrument : Instrument) : TickerMatch :=
  {| ticker := tickerEtoro instrument;
     name := rowName instrument;
     instrumentId := rowInstrumentId instrument;
     assetType := ASSET_TYPE_MAP (assetClassId instrument) |}.

(** [generateTickersExtractionQueriesResponse(classification, wantsLogs)],
    returning the catalog requests it has sent next to its result. *)
Definition generateTickersExtractionQueriesResponse
    (catalog : InstrumentsView) (classification : ClassificationAgentSchema)
  : list CatalogQuery * list TickerMatch :=
  if (List.length (possibleAssetNamesOrTickers classification) =? 0)%nat
     && (List.length (previousRelevantTickers classification) =? 0)%nat
     && negb (userWantsToTradeAnAsset classification)
  then ([], [])
  else
    let query :=
      {| assetClassIn := relevantAssetTypes classification;
         orFilter :=
           if (0 <? List.length (orString classification))%nat
           then Some (removelast (orString classification))
           else None;
         rowLimit := 50 |} in
    match catalog query with
    | None => ([query], [])
    | Some matchedInstruments => ([query], map toTickerMatch matchedInstruments)
    end.

(** ** helpers.ts: [getUserPortfolio] *)

(** JSON numbers are finite; their order and the sign of their difference
    are those of the rationals they denote. *)
Definition number := Q.

Record Position : Type := {
  positionInstrumentId : Z;
  positionValuePct : option number   (* valuePctUnrealized *)
}.

Record SocialTrade : Type := {
  parentUsername : jsstring;
  tradeValuePct : option number      (* valuePctUnrealized *)
}.

(** The body of the brokerage's [PortfolioSummary] answer. *)
Record PortfolioSummary : Type := {
  positions : option (list Position);
  socialTrades : option (list SocialTrade)
}.

(** A catalog row joined to a holding: its key and its remaining columns. *)
Record InstrumentRow : Type := {
  keyInstrumentId : Z;
  instrumentColumns : list (jsstring * JsValue)
}.

Record InvestorRow : Type := {
  userName : jsstring;
  investorColumns : list (jsstring * JsValue)
}.

(** [{ data, error }] as the catalog client resolves it. *)
Record Reply (A : Type) : Type := {
  data : option (list A);
  error : option JsError
}.

Arguments data {A} r.
Arguments error {A} r.

(** The four enrichment queries, each taking the keys of its [.in(...)]. *)
Record PortfolioCatalog : Type := {
  fundamentals_view : list Z -> Reply InstrumentRow;
  instruments : list Z -> Reply InstrumentRow;
  popular_investors_fundamentals : list jsstring -> Reply InvestorRow;
  etf_fundamentals_view : list Z -> Reply InstrumentRow
}.

(** An element of [mergedPortfolioData] after the weight has been set: the
    holding spread first, the catalog columns spread over it. *)
Inductive Holding : Type :=
| PositionHolding (position : Position) (enrichment : option InstrumentRow)
    (portfolioWeight : option number)
| CopyHolding (trade : SocialTrade) (enrichment : option InvestorRow)
    (portfolioWeight : option number).

Definition portfolioWeight (h : Holding) : option number :=
  match h with
  | PositionHolding _ _ w => w
  | CopyHolding _ _ w => w
  end.

(** What [getUserPortfolio] puts in its array. *)
Inductive PortfolioEntry : Type :=
| Held (h : Holding)
| Note (text : jsstring).

Definition findRow (rows : option (list InstrumentRow)) (id : Z)
  : option InstrumentRow :=
  match rows with
  | None => None
  | Some l => find (fun d => (keyInstrumentId d =? id)%Z) l
  end.

(** [a || b] on optional objects. *)
Definition orElse {A : Type} (a b : option A) : option A :=
  match a with
  | Some _ => a
  | None => b
  end.

(** The weight looked up for a merged element, from its [instrumentId] and
    [parentUsername] fields (absent fields are [None]).  An element with a
    truthy [instrumentId] takes the weight of the first position with that
    id, any other the weight of the first copy trade with its
    [parentUsername]. *)
Definition lookupWeight (ps : list Position) (ts : list SocialTrade)
    (elementInstrumentId : option Z) (elementParentUsername : option jsstring)
  : option number :=
  let byTrade :=
    match elementParentUsername with
    | None => None
    | Some u =>
        match find (fun t => jsstring_eqb (parentUsername t) u) ts with
        | Some t => tradeValuePct t
        | None => None
        end
    end in
  match elementInstrumentId with
  | Some id =>
      if negb (id =? 0)%Z then
        match find (fun q => (positionInstrumentId q =? id)%Z) ps with
        | Some q => positionValuePct q
        | None => None
        end
      else byTrade
  | None => byTrade
  end.

Definition Qltb (a b : Q) : bool := negb (Qle_bool b a).

(** [position.portfolioWeight > minPortfolioWeight] *)
Definition aboveMinimum (minPortfolioWeight : number) (h : Holding) : bool :=
  match portfolioWeight h with
  | Some w => Qltb minPortfolioWeight w
  | None => false
  end.

(** [h.portfolioWeight || 0] *)
Definition weightOrZero (h : Holding) : number :=
  match portfolioWeight h with
  | Some w => w
  | None => 0%Q
  end.

(** [Array.prototype.sort] with the comparator
    [(a, b) => (b.portfolioWeight || 0) - (a.portfolioWeight || 0)].  The
    sort is stable: holdings of equal weight keep the order they have in the
    array.  Its result is that of the insertion sort below.  [sortByWeight]
    puts the head of the array into the sorted rest, so the head, which
    stands before every holding of the rest, passes only the holdings that
    are strictly heavier and stops before the first one of its own or of a
    smaller weight. *)
Fixpoint insertByWeight (x : Holding) (l : list Holding) : list Holding :=
  match l with
  | [] => [x]
  | y :: l' =>
      if Qltb (weightOrZero x) (weightOrZero y)
      then y :: insertByWeight x l'
      else x :: y :: l'
  end.

Definition sortByWeight (l : list Holding) : list Holding :=
  fold_right insertByWeight [] l.

Definition noPortfolioText : jsstring :=
  str "No portfolio data to analyze since portfolio is private or empty".

(** [!username] *)
Definition noUsername (username : option jsstring) : bool :=
  match username with
  | None | Some [] => true
  | Some (_ :: _) => false
  end.

Definition anyError (a b d : Reply InstrumentRow) (c : Reply InvestorRow)
  : bool :=
  match error a, error b, error c, error d with
  | None, None, None, None => false
  | _, _, _, _ => true
  end.

(** [mergedPortfolioData] with the weight of each element set: the
    positions first, the copy trades after them. *)
Definition mergedPortfolioData (ps : list Position) (ts : list SocialTrade)
    (fundamentals instrumentRows etfs : Reply InstrumentRow)
    (investors : Reply InvestorRow) : list Holding :=
  map (fun p =>
         PositionHolding p
           (orElse (findRow (data fundamentals) (positionInstrumentId p))
              (orElse (findRow (data instrumentRows) (positionInstrumentId p))
                 (findRow (data etfs) (positionInstrumentId p))))
           (lookupWeight ps ts (Some (positionInstrumentId p)) None)) ps ++
  map (fun t =>
         CopyHolding t
           (match data investors with
            | None => None
            | Some l =>
                find (fun d => jsstring_eqb (userName d) (parentUsername t)) l
            end)
           (lookupWeight ps ts None (Some (parentUsername t)))) ts.

(** [.filter(...).sort(...).slice(0, maxPositions)] *)
Definition finalResult (minPortfolioWeight : number) (maxPositions : nat)
    (merged : list Holding) : list Holding :=
  firstn maxPositions
    (sortByWeight (filter (aboveMinimum minPortfolioWeight) merged)).

(** [getUserPortfolio(username, minPortfolioWeight = 0.3, maxPositions = 50)];
    [brokerage] is the fetch of the summary followed by [response.json()]. *)
Definition getUserPortfolio
    (brokerage : jsstring -> Outcome PortfolioSummary)
    (catalog : PortfolioCatalog)
    (username : option jsstring)
    (minPortfolioWeight : number) (maxPositions : nat)
  : Outcome (list PortfolioEntry) :=
  match username with
  | None | Some [] => Fulfilled []
  | Some user =>
      summary <- brokerage user ;;
      match positions summary with
      | None => Fulfilled [Note noPortfolioText]
      | Some ps =>
          match socialTrades summary with
          | None =>
              Rejected (TypeError "Cannot read properties of undefined (reading 'map')")
          | Some ts =>
              let ids := map positionInstrumentId ps in
              let fundamentals := fundamentals_view catalog ids in
              let instrumentRows := instruments catalog ids in
              let investors :=
                popular_investors_fundamentals catalog (map parentUsername ts) in
              let etfs := etf_fundamentals_view catalog ids in
              if anyError fundamentals instrumentRows etfs investors
              then Fulfilled []
              else
                Fulfilled
                  (map Held
                     (finalResult minPortfolioWeight maxPositions
                        (mergedPortfolioData ps ts fundamentals instrumentRows
                           etfs investors)))
          end
      end
  end.

Definition defaultMinPortfolioWeight : number := (3 # 10)%Q.
Definition defaultMaxPositions : nat := 50.

(** ** agent-request.ts and route.ts: the turn pipeline *)

(** The evidence domains of [generateSQLAgentResponse], in the order of its
    array. *)
Inductive Domain : Type :=
| ETFs | News | EarningsDates | StockFundamentals | DividendDates
| Investors | AssetPrices.

Definition domains : list Domain :=
  [ETFs; News; EarningsDates; StockFundamentals; DividendDates; Investors;
   AssetPrices].

Definition precondition (classification : ClassificationAgentSchema)
    (d : Domain) : bool :=
  match d with
  | ETFs => isAboutETFs classification
  | News => isAboutNews classification
  | EarningsDates => isAboutEarningsDates classification
  | StockFundamentals =>
      isAboutStockFundamentals classification
      && negb (isAboutInvestors classification)
  | DividendDates => isAboutDividendDates classification
  | Investors =>
      isAboutInvestors classification || isAboutSmartPortfolios classification
  | AssetPrices => isAboutAssetPricesOrPerformance classification
  end.

Definition stepNameOf (d : Domain) : jsstring :=
  match d with
  | ETFs => str "ETF Data"
  | News => str "Latest News"
  | EarningsDates => str "Earnings Dates"
  | StockFundamentals => str "Stock Fundamentals"
  | DividendDates => str "Dividend Dates"
  | Investors => str "Popular Investors"
  | AssetPrices => str "Asset Prices"
  end.

(** The object a query agent generates against [sqlSchemaObject]. *)
Record SqlObject : Type := {
  sqlReasoning : jsstring;
  numberOfResultsSpecified : option Z;
  generatedSql : option jsstring      (* sqlQuery: z.string().nullable() *)
}.

Record PortfolioAnalysis : Type := {
  analysisReasoning : jsstring;
  content : jsstring
}.

(** The arguments [generateStreamFinalAgentResponse] receives from the
    route, the conversation apart. *)
Record SynthesisInput : Type := {
  googleSearchResult : option jsstring;
  comparisonData : list ComparisonItem;
  portfolioData : list PortfolioEntry;
  portfolioAnalysisContent : jsstring;
  wantsToTrade : bool;
  additionalData : option jsstring
}.

(** A delta of the streamed answer object, opaque here. *)
Definition PartialObject := list (jsstring * JsValue).

(** The values the fields of the synthesizer's result hold. *)
Inductive FieldValue : Type :=
| VUndefined
| VStream (deltas : list PartialObject).

(** An object literal: its fields in the order they are written. *)
Definition JsObject := list (jsstring * FieldValue).

(** [obj.field], [undefined] when the object has no such field; this is also
    what a destructuring pattern binds. *)
Definition getField (field : string) (obj : JsObject) : FieldValue :=
  match find (fun kv => jsstring_eqb (fst kv) (str field)) obj with
  | Some kv => snd kv
  | None => VUndefined
  end.


(** [stream.getReader()] *)
Definition getReader (stream : FieldValue) : Outcome (list PartialObject) :=
  match stream with
  | VUndefined =>
      Rejected (TypeError "Cannot read properties of undefined (reading 'getReader')")
  | VStream deltas => Fulfilled deltas
  end.

(** How each external call of one turn settles: the language-model calls,
    the brokerage, the catalog and the database. *)
Record World : Type := {
  classificationAgent : Outcome ClassificationAgentSchema;
  brokerageApi : jsstring -> Outcome PortfolioSummary;
  portfolioCatalog : PortfolioCatalog;
  instrumentsView : InstrumentsView;
  sqlAgent : Domain -> Outcome SqlObject;
  portfolioAnalysisAgent : Outcome PortfolioAnalysis;
  googleSearchAgent : Outcome jsstring;
  additionalDataAgent : Outcome jsstring;
  database : Database;
  finalAgent : SynthesisInput -> list PartialObject
}.

(** [type ChatHistory = { role; content }]: an element of the [history]
    array of the body, its [role] first and its [content] second. *)
Definition ChatHistory : Type := (jsstring * jsstring)%type.

(** A message of the prompt handed to the model: its role and its text. *)
Definition ModelMessage : Type := (jsstring * jsstring)%type.

(** The request body of a turn, as far as the pipeline reads it;
    [requestHistory] is its [history] array. *)
Record Request : Type := {
  prompt : jsstring;
  user_name : option jsstring;
  requestHistory : list ChatHistory
}.

(** [history.map((chat) => ({ role: chat.role, content: chat.content }))] *)
Definition cleanedHistory (messages : list ChatHistory) : list ChatHistory :=
  map (fun chat => (fst chat, snd chat)) messages.

(** [message.role === "assistant"] *)
Definition fromAssistant (chat : ChatHistory) : bool :=
  jsstring_eqb (fst chat) (str "assistant").

Definition unsupportedRole (role : jsstring) : JsError :=
  {| errName := str "AI_MessageConversionError";
     errMessage := str "Unsupported role: " ++ role |}.

(** [convertToModelMessages(messages)] of the [ai] package, on the messages
    of [cleanedHistory].  The function builds the prompt from the [parts] of
    each message, and the messages of [cleanedHistory] have a [role] and a
    [content] and no [parts].  It goes through the messages in order.  For
    an [assistant] message it looks at the parts only when there are some,
    so such a message adds nothing to the prompt.  For a [user] and for a
    [system] message it calls an array method on [message.parts], which
    throws a TypeError on [undefined] (the method named in its text is the
    first one the package calls there).  Any other role throws the
    package's conversion error. *)
Fixpoint convertToModelMessages (messages : list ChatHistory)
  : Outcome (list ModelMessage) :=
  match messages with
  | [] => Fulfilled []
  | chat :: rest =>
      if fromAssistant chat then convertToModelMessages rest
      else if jsstring_eqb (fst chat) (str "user") then
        Rejected (TypeError "Cannot read properties of undefined (reading 'map')")
      else if jsstring_eqb (fst chat) (str "system") then
        Rejected (TypeError "Cannot read properties of undefined (reading 'filter')")
      else Rejected (unsupportedRole (fst chat))
  end.

(** [generateSQLAgentResponse]: one [generateObjectWithTrace] call per domain
    whose precondition holds, under a single [Promise.all].  Each result
    carries its [stepName]. *)
Definition generateSQLAgentResponse (w : World)
    (classification : ClassificationAgentSchema)
  : Outcome (list (SqlObject * jsstring)) :=
  promiseAll
    (map (fun d => obj <- sqlAgent w d ;; Fulfilled (obj, stepNameOf d))
       (filter (precondition classification) domains)).

(** The condition under which the route starts the search-grounded agent. *)
Definition wantsGoogleSearch (c : ClassificationAgentSchema) : bool :=
  isAboutEarningsCallsSummariesOrRevenueSegmentation c
  || isAboutImportantCEOs c
  || isAboutNews c
  || isAboutEarningsDates c
  || isAboutCorporateGuidanceOrStrategicOutlook c
  || ((isAboutCrypto c || isAboutCurrenciesOrCommoditiesOrIndices c)
      && negb (isAboutUserPortfolio c)
      && negb (isAboutInvestors c)).

(** [cond ? task : Promise.resolve(null)] *)
Definition whenever {A : Type} (cond : bool) (task : Outcome A)
  : Outcome (option A) :=
  if cond then a <- task ;; Fulfilled (Some a) else Fulfilled None.

Definition Gathered : Type :=
  option PortfolioAnalysis * list (SqlObject * jsstring)
  * option jsstring * option jsstring.

(** The [await Promise.all([...])] of the route over the four evidence
    tasks.  The last element of the array is awaited in place, so its
    rejection is thrown before [Promise.all] is reached. *)
Definition gatherEvidence (w : World)
    (classification : ClassificationAgentSchema) : Outcome Gathered :=
  let portfolioTask :=
    whenever (isAboutUserPortfolio classification) (portfolioAnalysisAgent w) in
  let sqlTask := generateSQLAgentResponse w classification in
  let googleTask :=
    whenever (wantsGoogleSearch classification) (googleSearchAgent w) in
  additional <-
    whenever (isAboutAssetPricesOrPerformance classification)
      (additionalDataAgent w) ;;
  promiseAll4 portfolioTask sqlTask googleTask (Fulfilled additional).

Definition nullable (s : option jsstring) : JsValue :=
  match s with
  | Some text => JStr text
  | None => JNull
  end.

(** The element of [allQueries] built from a query agent's result. *)
Definition toCandidate (result : SqlObject * jsstring) : CandidateQuery :=
  {| sqlQuery := nullable (generatedSql (fst result));
     queryReasoning := JStr (sqlReasoning (fst result));
     stepName := snd result |}.

(** The fallback of the route:
    [if (!comparisonData || comparisonData.length === 0)
       comparisonData = [...comparisonData, ...mainTickerMatches]].
    The executor always hands back an array, and an array is truthy. *)
Definition withTickerFallback (comparisonData : list ComparisonItem)
    (mainTickerMatches : list TickerMatch) : list ComparisonItem :=
  if (List.length comparisonData =? 0)%nat
  then comparisonData ++ map TickerItem mainTickerMatches
  else comparisonData.

(** [generateStreamFinalAgentResponse]: the argument of [streamObject] is
    built, which converts the history
    ([messages: [...convertToModelMessages(cleanedHistory), {role: "user",
    ...}]]); [streamObject] is started on it, and the function returns the
    object literal of its last line.  The function is [async]: what the
    conversion throws rejects its promise. *)
Definition generateStreamFinalAgentResponse
    (model : SynthesisInput -> list PartialObject) (input : SynthesisInput)
    (prompt : jsstring) (cleanedHistory : list ChatHistory)
  : Outcome JsObject :=
  converted <- convertToModelMessages cleanedHistory ;;
  let messages := converted ++ [(str "user", prompt)] in
  let partialObjectStream := model input in
  Fulfilled
    [ (str "partialObjectStream", VStream partialObjectStream);
      (str "finishPromise", VUndefined) ].

(** The route up to the call of the synthesizer: what the synthesizer is
    given, or the rejection that ends the turn before. *)
Definition evidenceStage (w : World) (request : Request)
  : Outcome SynthesisInput :=
  classification <- classificationAgent w ;;
  portfolio <-
    (if isAboutUserPortfolio classification
     then getUserPortfolio (brokerageApi w) (portfolioCatalog w)
            (user_name request) defaultMinPortfolioWeight defaultMaxPositions
     else Fulfilled []) ;;
  let mainTickerMatches :=
    snd (generateTickersExtractionQueriesResponse (instrumentsView w)
           classification) in
  gathered <- gatherEvidence w classification ;;
  let '(portfolioAnalysis, queryResults, google, additional) := gathered in
  let analysisContent :=
    match portfolioAnalysis with
    | Some analysis => content analysis
    | None => []
    end in
  let allQueries := map toCandidate queryResults in
  executed <-
    snd (generateComparisonDataSqlQueriesResponse true (database w) allQueries) ;;
  Fulfilled
    {| googleSearchResult := google;
       comparisonData := withTickerFallback executed mainTickerMatches;
       portfolioData := portfolio;
       portfolioAnalysisContent := analysisContent;
       wantsToTrade := userWantsToTradeAnAsset classification;
       additionalData := additional |}.

(** [agentTaskPipeline]: the history is cleaned, then the evidence stage,
    the synthesizer, and the loop that relays the synthesizer's stream; it
    resolves to the chunks it has relayed. *)
Definition agentTaskPipeline (w : World) (request : Request)
  : Outcome (list PartialObject) :=
  let cleaned := cleanedHistory (requestHistory request) in
  input <- evidenceStage w request ;;
  response <-
    generateStreamFinalAgentResponse (finalAgent w) input (prompt request)
      cleaned ;;
  let textStream := getField "textStream" response in
  let finishPromise := getField "finishPromise" response in
  reader <- getReader textStream ;;
  Fulfilled reader.

(** ** Vocabulary of the properties *)

(** [pat] occurs in [s]. *)
Definition contains (s pat : jsstring) : Prop :=
  exists before after, s = before ++ pat ++ after.

(** [a] is listed before [b]: its weight is not smaller. *)
Definition notLighter (a b : Holding) : Prop :=
  (weightOrZero b <= weightOrZero a)%Q.

(** The weight of a returned holding lies above the threshold. *)
Definition heavierThan (minPortfolioWeight : number) (h : Holding) : Prop :=
  exists w, portfolioWeight h = Some w /\ (minPortfolioWeight < w)%Q.

(** Descending order of the weights themselves. *)
Definition descending (a b : Holding) : Prop :=
  match portfolioWeight a, portfolioWeight b with
  | Some x, Some y => (y <= x)%Q
  | _, _ => False
  end.

(** How a text begins. *)
Definition beginsWithWordChar (s : jsstring) : bool :=
  match s with
  | [] => false
  | c :: _ => isWordChar c
  end.

Definition beginsWithDquote (s : jsstring) : bool :=
  match s with
  | [] => false
  | c :: _ => isDquote c
  end.

(** Stage 4 on its own. *)
Definition collapse (s : jsstring) : jsstring :=
  replaceAll [dquote; dquote] [dquote] s.

(** *** Correctly quoted input

    A correctly quoted text without literals is a sequence of pieces: a
    keyword or function name of the two fixed sets in any case, a word in
    double quotes, a numeral, or any other single character that is no word
    character, no quote of either kind and no percent sign. *)

Inductive Piece : Type :=
| Reserved (w : jsstring)
| Quoted (w : jsstring)
| Numeral (w : jsstring)
| Other (c : ascii).

Definition pieceText (p : Piece) : jsstring :=
  match p with
  | Reserved w => w
  | Quoted w => dquote :: w ++ [dquote]
  | Numeral w => w
  | Other c => [c]
  end.

(** The text a sequence of pieces stands for. *)
Definition render (ps : list Piece) : jsstring := flat_map pieceText ps.

Definition isWord (w : jsstring) : bool :=
  match w with
  | [] => false
  | _ :: _ => forallb isWordChar w
  end.

Definition isIdentifier (w : jsstring) : bool :=
  match w with
  | [] => false
  | c :: _ => isIdentStart c && forallb isWordChar w
  end.

Definition isNumeral (w : jsstring) : bool :=
  match w with
  | [] => false
  | c :: _ => isDigit c && forallb isWordChar w
  end.

Definition pieceOk (p : Piece) : bool :=
  match p with
  | Reserved w => isIdentifier w && isReserved w
  | Quoted w => isWord w
  | Numeral w => isNumeral w
  | Other c =>
      negb (isWordChar c || isDquote c || isSquote c || isPercent c)
  end.

(** What may follow a piece: a bare word ends where the next piece starts,
    so no bare word follows it; and a closing quote is not followed by an
    opening one, which would read as an escaped quote. *)
Definition mayFollow (p : Piece) (rest : list Piece) : bool :=
  match p, rest with
  | (Reserved _ | Numeral _), (Reserved _ | Numeral _) :: _ => false
  | Quoted _, Quoted _ :: _ => false
  | _, _ => true
  end.

Fixpoint wellFormed (ps : list Piece) : bool :=
  match ps with
  | [] => true
  | p :: rest => pieceOk p && mayFollow p rest && wellFormed rest
  end.

(** What stage 1 makes of a piece. *)
Definition pieceQuoted (p : Piece) : jsstring :=
  match p with
  | Quoted w => dquote :: flushWord w ++ [dquote]
  | _ => pieceText p
  end.

Definition renderQuoted (ps : list Piece) : jsstring :=
  flat_map pieceQuoted ps.

(** A text is correctly quoted when it reads as a well-formed sequence of
    pieces. *)
Definition correctlyQuoted (x : jsstring) : Prop :=
  exists ps, wellFormed ps = true /\ render ps = x.

(** Neither a single quote nor a percent sign. *)
Definition plain (c : ascii) : bool := negb (isSquote c || isPercent c).

(** ** Sample turns

    Concrete inputs on which the properties of Part II are exercised. *)

(** A classification with every flag off and no names. *)
Definition blankClassification : ClassificationAgentSchema :=
  {| reasoning := str "nothing applies";
     reasoningInSimpleLanguageAddressedAtUser := str "Let me think";
     isAboutUserPortfolio := false;
     isAboutStockFundamentals := false;
     isStockIndustryRelevant := false;
     isAboutETFs := false;
     isAboutCurrenciesOrCommoditiesOrIndices := false;
     isAboutCrypto := false;
     isAboutNews := false;
     isAboutEarningsDates := false;
     isAboutDividendDates := false;
     isAboutInvestors := false;
     isAboutSmartPortfolios := false;
     isAboutAssetPricesOrPerformance := false;
     userWantsToTradeAnAsset := false;
     possibleAssetNamesOrTickers := [];
     isAboutEarningsCallsSummariesOrRevenueSegmentation := false;
     isAboutCorporateGuidanceOrStrategicOutlook := false;
     isAboutImportantCEOs := false;
     previousRelevantTickers := [] |}.

(** No names and no trade intent, every other topic flag on. *)
Definition allTopicsNoNames : ClassificationAgentSchema :=
  {| reasoning := str "everything applies";
     reasoningInSimpleLanguageAddressedAtUser := str "Looking at everything";
     isAboutUserPortfolio := true;
     isAboutStockFundamentals := true;
     isStockIndustryRelevant := true;
     isAboutETFs := true;
     isAboutCurrenciesOrCommoditiesOrIndices := true;
     isAboutCrypto := true;
     isAboutNews := true;
     isAboutEarningsDates := true;
     isAboutDividendDates := true;
     isAboutInvestors := true;
     isAboutSmartPortfolios := true;
     isAboutAssetPricesOrPerformance := true;
     userWantsToTradeAnAsset := false;
     possibleAssetNamesOrTickers := [];
     isAboutEarningsCallsSummariesOrRevenueSegmentation := true;
     isAboutCorporateGuidanceOrStrategicOutlook := true;
     isAboutImportantCEOs := true;
     previousRelevantTickers := [] |}.

(** A question about ETFs and news that names one asset. *)
Definition etfNewsClassification : ClassificationAgentSchema :=
  {| reasoning := str "ETFs and their news";
     reasoningInSimpleLanguageAddressedAtUser := str "Looking at funds";
     isAboutUserPortfolio := false;
     isAboutStockFundamentals := false;
     isStockIndustryRelevant := false;
     isAboutETFs := true;
     isAboutCurrenciesOrCommoditiesOrIndices := false;
     isAboutCrypto := false;
     isAboutNews := true;
     isAboutEarningsDates := false;
     isAboutDividendDates := false;
     isAboutInvestors := false;
     isAboutSmartPortfolios := false;
     isAboutAssetPricesOrPerformance := false;
     userWantsToTradeAnAsset := false;
     possibleAssetNamesOrTickers := [str "SPY"];
     isAboutEarningsCallsSummariesOrRevenueSegmentation := false;
     isAboutCorporateGuidanceOrStrategicOutlook := false;
     isAboutImportantCEOs := false;
     previousRelevantTickers := [] |}.

(** A question that only names an asset: no evidence domain applies. *)
Definition namesOnlyClassification : ClassificationAgentSchema :=
  {| reasoning := str "names an asset";
     reasoningInSimpleLanguageAddressedAtUser := str "Looking it up";
     isAboutUserPortfolio := false;
     isAboutStockFundamentals := false;
     isStockIndustryRelevant := false;
     isAboutETFs := false;
     isAboutCurrenciesOrCommoditiesOrIndices := false;
     isAboutCrypto := false;
     isAboutNews := false;
     isAboutEarningsDates := false;
     isAboutDividendDates := false;
     isAboutInvestors := false;
     isAboutSmartPortfolios := false;
     isAboutAssetPricesOrPerformance := false;
     userWantsToTradeAnAsset := true;
     possibleAssetNamesOrTickers := [str "AAPL"];
     isAboutEarningsCallsSummariesOrRevenueSegmentation := false;
     isAboutCorporateGuidanceOrStrategicOutlook := false;
     isAboutImportantCEOs := false;
     previousRelevantTickers := [] |}.

Definition appleInstrument : Instrument :=
  {| rowInstrumentId := 1001; rowName := str "Apple";
     tickerEtoro := str "AAPL"; assetClassId := 5 |}.

Definition sampleCatalog : InstrumentsView :=
  fun _ => Some [appleInstrument].

Definition emptyReply {A : Type} : Reply A :=
  {| data := Some []; error := None |}.

Definition emptyPortfolioCatalog : PortfolioCatalog :=
  {| fundamentals_view := fun _ => emptyReply;
     instruments := fun _ => emptyReply;
     popular_investors_fundamentals := fun _ => emptyReply;
     etf_fundamentals_view := fun _ => emptyReply |}.

Definition timeout : JsError :=
  {| errName := str "Error"; errMessage := str "model request timed out" |}.

Definition relationMissing : JsError :=
  {| errName := str "error";
     errMessage := str "relation does not exist" |}.

(** A database on which every query throws. *)
Definition failingDatabase : Database :=
  {| poolConnect := None; clientQuery := fun _ => DbThrows relationMissing |}.

(** A database that answers every query with one row. *)
Definition oneRowDatabase : Database :=
  {| poolConnect := None;
     clientQuery := fun _ => DbRows [[(str "ticker", JStr (str "SPY"))]] |}.

Definition selectEtfs : SqlObject :=
  {| sqlReasoning := str "list the funds";
     numberOfResultsSpecified := None;
     generatedSql := Some (str "SELECT ticker FROM etf_fundamentals_view") |}.

(** The turn in which the two query agents answer and the search-grounded
    agent rejects. *)
Definition searchFailsWorld : World :=
  {| classificationAgent := Fulfilled etfNewsClassification;
     brokerageApi := fun _ => Rejected timeout;
     portfolioCatalog := emptyPortfolioCatalog;
     instrumentsView := sampleCatalog;
     sqlAgent := fun _ => Fulfilled selectEtfs;
     portfolioAnalysisAgent :=
       Fulfilled {| analysisReasoning := []; content := str "balanced" |};
     googleSearchAgent := Rejected timeout;
     additionalDataAgent := Fulfilled (str "no further data");
     database := oneRowDatabase;
     finalAgent := fun _ => [] |}.

(** The turn in which only the ticker resolver finds something. *)
Definition namesOnlyWorld : World :=
  {| classificationAgent := Fulfilled namesOnlyClassification;
     brokerageApi := fun _ => Rejected timeout;
     portfolioCatalog := emptyPortfolioCatalog;
     instrumentsView := sampleCatalog;
     sqlAgent := fun _ => Rejected timeout;
     portfolioAnalysisAgent := Rejected timeout;
     googleSearchAgent := Rejected timeout;
     additionalDataAgent := Rejected timeout;
     database := failingDatabase;
     finalAgent := fun _ => [[(str "answer", JStr (str "Apple is listed"))]] |}.

(** What the synthesizer is given in that turn. *)
Definition namesOnlyInput : SynthesisInput :=
  {| googleSearchResult := None;
     comparisonData := [TickerItem (toTickerMatch appleInstrument)];
     portfolioData := [];
     portfolioAnalysisContent := [];
     wantsToTrade := true;
     additionalData := None |}.

(** A portfolio with four positions (one below the threshold, one without
    a weight) and one copy trade. *)
Definition samplePositions : list Position :=
  [ {| positionInstrumentId := 1001; positionValuePct := Some (5 # 1)%Q |};
    {| positionInstrumentId := 1002; positionValuePct := Some (2 # 10)%Q |};
    {| positionInstrumentId := 1003; positionValuePct := Some (12 # 1)%Q |};
    {| positionInstrumentId := 1004; positionValuePct := None |} ].

Definition sampleTrades : list SocialTrade :=
  [ {| parentUsername := str "investor1"; tradeValuePct := Some (7 # 1)%Q |} ].

Definition sampleBrokerage (user : jsstring) : Outcome PortfolioSummary :=
  Fulfilled {| positions := Some samplePositions;
               socialTrades := Some sampleTrades |}.

(** Positions of equal weight: ids 1 to 4 with the weights 5, 5, 9 and 5,
    and ids 1 to 3 all of weight 5. *)
Definition tiedPositions : list Position :=
  [ {| positionInstrumentId := 1; positionValuePct := Some (5 # 1)%Q |};
    {| positionInstrumentId := 2; positionValuePct := Some (5 # 1)%Q |};
    {| positionInstrumentId := 3; positionValuePct := Some (9 # 1)%Q |};
    {| positionInstrumentId := 4; positionValuePct := Some (5 # 1)%Q |} ].

Definition evenPositions : list Position :=
  [ {| positionInstrumentId := 1; positionValuePct := Some (5 # 1)%Q |};
    {| positionInstrumentId := 2; positionValuePct := Some (5 # 1)%Q |};
    {| positionInstrumentId := 3; positionValuePct := Some (5 # 1)%Q |} ].

Definition brokerageOf (ps : list Position) (user : jsstring)
  : Outcome PortfolioSummary :=
  Fulfilled {| positions := Some ps; socialTrades := Some [] |}.

(** The [instrumentId]s of the positions in a result, in its order. *)
Definition heldInstrumentIds (result : Outcome (list PortfolioEntry))
  : option (list Z) :=
  match result with
  | Fulfilled entries =>
      Some (flat_map (fun e => match e with
                               | Held (PositionHolding p _ _) =>
                                   [positionInstrumentId p]
                               | _ => []
                               end) entries)
  | Rejected _ => None
  end.

Definition privateBrokerage (user : jsstring) : Outcome PortfolioSummary :=
  Fulfilled {| positions := None; socialTrades := None |}.

Definition failingPortfolioCatalog : PortfolioCatalog :=
  {| fundamentals_view := fun _ => emptyReply;
     instruments := fun _ => emptyReply;
     popular_investors_fundamentals := fun _ => emptyReply;
     etf_fundamentals_view :=
       fun _ => {| data := None; error := Some relationMissing |} |}.

Definition sampleRequest : Request :=
  {| prompt := str "tell me about it"; user_name := None;
     requestHistory := [] |}.

(** A conversation under way: one question of the user and its answer. *)
Definition sampleHistory : list ChatHistory :=
  [ (str "user", str "tell me about it");
    (str "assistant", str "It is a fund.") ].




(** A candidate whose agent declined to write a query. *)
Definition declinedCandidate : CandidateQuery :=
  {| sqlQuery := JNull;
     queryReasoning := JStr (str "nothing to look up");
     stepName := str "Latest News" |}.

(** A candidate whose text holds a denylisted verb. *)
Definition deleteCandidate : CandidateQuery :=
  {| sqlQuery := JStr (str "DELETE FROM fundamentals_view");
     queryReasoning := JStr (str "clean up");
     stepName := str "Stock Fundamentals" |}.

Definition selectCandidate : CandidateQuery :=
  {| sqlQuery := JStr (str "SELECT ticker FROM etf_fundamentals_view");
     queryReasoning := JStr (str "list the funds");
     stepName := str "ETF Data" |}.

(** A query of the shape the agents are told to write, piece by piece. *)
Definition sampleQuotedQuery : list Piece :=
  [ Reserved (str "SELECT"); Other " "; Quoted (str "name"); Other ",";
    Other " "; Reserved (str "count"); Other "("; Quoted (str "instrumentId");
    Other ")"; Other " "; Reserved (str "FROM"); Other " ";
    Quoted (str "fundamentals_view"); Other " "; Reserved (str "WHERE");
    Other " "; Quoted (str "peRatio"); Other " "; Other ">"; Other " ";
    Numeral (str "10"); Other " "; Reserved (str "ORDER"); Other " ";
    Reserved (str "BY"); Other " "; Quoted (str "date"); Other " ";
    Reserved (str "desc"); Other " "; Reserved (str "LIMIT"); Other " ";
    Numeral (str "5") ]%char.

(** Reads a text in which a backquote stands for a double quote. *)
Definition backquoted (s : string) : jsstring :=
  map (fun c => if (code c =? 96)%N then dquote else c) (str s).

(** ** Vocabulary of the further properties *)

Definition isConnect (ev : Event) : bool :=
  match ev with PoolConnect => true | _ => false end.

Definition isQuery (ev : Event) : bool :=
  match ev with ClientQuery _ => true | _ => false end.

Definition isRelease (ev : Event) : bool :=
  match ev with ClientRelease => true | _ => false end.

(** How many events of a kind a run has produced. *)
Definition count (kind : Event -> bool) (events : list Event) : nat :=
  List.length (filter kind events).

(** The database side of a run: what is left when the writes are dropped. *)
Definition dbEvents (events : list Event) : list Event :=
  filter isDbEvent events.

(** A candidate as the schema of the query agents lets it through: its SQL
    field is [null] or a string. *)
Definition schemaConforming (query : CandidateQuery) : Prop :=
  sqlQuery query = JNull \/ exists text, sqlQuery query = JStr text.

(** What one candidate adds to [comparisonData]: nothing, or its reasoning
    row followed by at least one more element. *)
Definition contribution (query : CandidateQuery) (rows : list ComparisonItem)
  : Prop :=
  rows = []
  \/ exists first rest,
       rows = ReasoningItem (queryReasoning query) :: first :: rest.

(** The object each query agent answers with in the sample turns below. *)
Definition sampleObject (d : Domain) : SqlObject :=
  {| sqlReasoning := stepNameOf d;
     numberOfResultsSpecified := None;
     generatedSql := Some (str "SELECT ticker FROM etf_fundamentals_view") |}.

(** The turn about ETFs and news in which every agent that is asked
    answers; the agents that are not asked would reject. *)
Definition agentsAnswerWorld : World :=
  {| classificationAgent := Fulfilled etfNewsClassification;
     brokerageApi := fun _ => Rejected timeout;
     portfolioCatalog := emptyPortfolioCatalog;
     instrumentsView := sampleCatalog;
     sqlAgent := fun d =>
       match d with
       | ETFs | News => Fulfilled (sampleObject d)
       | _ => Rejected timeout
       end;
     portfolioAnalysisAgent := Rejected timeout;
     googleSearchAgent := Fulfilled (str "funds are up");
     additionalDataAgent := Rejected timeout;
     database := oneRowDatabase;
     finalAgent := fun _ => [] |}.

(** A catalog that applies the asset-class filter of the request to three
    rows. *)
Definition filteringCatalog : InstrumentsView :=
  fun query =>
    Some (filter
            (fun row => existsb (Z.eqb (assetClassId row)) (assetClassIn query))
            [ appleInstrument;
              {| rowInstrumentId := 2001; rowName := str "Gold";
                 tickerEtoro := str "GOLD"; assetClassId := 2 |};
              {| rowInstrumentId := 3001; rowName := str "Bond future";
                 tickerEtoro := str "BUND"; assetClassId := 7 |} ]).

(** The asset-class codes [ASSET_TYPE_MAP] knows. *)
Definition knownAssetClasses : list Z := [1; 2; 4; 5; 6; 10]%Z.

(** The catalog returns only rows whose class is in the [.in(...)] filter
    of the request. *)
Definition honoursFilter (catalog : InstrumentsView) : Prop :=
  forall query rows row,
    catalog query = Some rows -> In row rows ->
    In (assetClassId row) (assetClassIn query).

(** [terms.join(",")] *)
Fixpoint joinWithComma (parts : list jsstring) : jsstring :=
  match parts with
  | [] => []
  | [p] => p
  | p :: rest => p ++ str "," ++ joinWithComma rest
  end.

(** One search term of the [.or(...)] filter, without the separator. *)
Definition orTerm (term : jsstring) : jsstring :=
  str "or(name.phfts(english)." ++ term ++
  str ",tickerEtoro.phfts(english)." ++ term ++ str ")".

(** ** route.ts: the HTTP entry of the finance route *)

(** [s.split(sep)] for a separator of one character. *)
Fixpoint splitOn (sep : ascii) (s : jsstring) : list jsstring :=
  match s with
  | [] => [[]]
  | c :: s' =>
      if Ascii.eqb c sep then [] :: splitOn sep s'
      else
        match splitOn sep s' with
        | [] => [[c]]
        | part :: parts => (c :: part) :: parts
        end
  end.

(** [parts.join(sep)] *)
Fixpoint joinOn (sep : ascii) (parts : list jsstring) : jsstring :=
  match parts with
  | [] => []
  | [p] => p
  | p :: rest => p ++ sep :: joinOn sep rest
  end.

(** The four bearer tokens of the environment; a variable that is not set
    reads as [undefined]. *)
Record Env : Type := {
  VALID_TOKEN_1 : option jsstring;
  VALID_TOKEN_2 : option jsstring;
  VALID_TOKEN_3 : option jsstring;
  VALID_TOKEN_4 : option jsstring
}.

Record Response : Type := {
  status : nat;
  responseText : jsstring
}.

(** The JSON body of a request as far as the route reads it.  [history] is
    absent or an array of [{role, content}] objects; [POST] does not look at
    its elements. *)
Record Body : Type := {
  history : option (list (jsstring * jsstring));
  bodyPrompt : option jsstring;
  bodyUserName : option jsstring
}.

Record HttpRequest : Type := {
  forwardedFor : option jsstring;      (* the x-forwarded-for header *)
  authorization : option jsstring;     (* the Authorization header *)
  json : Outcome Body                  (* request.json() *)
}.

(** [class ValidateRequestResult]; the constructor sets [isValid]. *)
Record ValidateRequestResult : Type := {
  response : Response;
  isValid : bool;
  userIdForTrace : option jsstring
}.

Definition newValidateRequestResult (r : Response)
    (user : option jsstring) : ValidateRequestResult :=
  {| response := r; isValid := (status r =? 200)%nat; userIdForTrace := user |}.

(** [token !== process.env.VALID_TOKEN_k] *)
Definition differs (token : jsstring) (configured : option jsstring) : bool :=
  match configured with
  | Some t => negb (jsstring_eqb token t)
  | None => true
  end.

(** [request.headers.get("Authorization")?.split(" ")[1]] *)
Definition bearerToken (request : HttpRequest) : option jsstring :=
  match authorization request with
  | None => None
  | Some header => nth_error (splitOn " " header) 1
  end.

(** [(await headers()).get("x-forwarded-for") || "127.0.0.1"] *)
Definition clientIp (request : HttpRequest) : jsstring :=
  match forwardedFor request with
  | Some (c :: s) => c :: s
  | _ => str "127.0.0.1"
  end.

(** [validateRequest(request)]; [limiter] is [ratelimit.limit(ip)] reduced
    to its [success] field. *)
Definition validateRequest (env : Env) (limiter : jsstring -> Outcome bool)
    (request : HttpRequest) : Outcome ValidateRequestResult :=
  let ip := clientIp request in
  success <- limiter ip ;;
  if negb success then
    Fulfilled
      (newValidateRequestResult
         {| status := 429;
            responseText :=
              str "Too many requests. Please wait a moment and try again." |}
         None)
  else
    match bearerToken request with
    | None | Some [] =>
        Fulfilled
          (newValidateRequestResult
             {| status := 401; responseText := str "No auth bearer provided" |}
             None)
    | Some token =>
        if differs token (VALID_TOKEN_1 env)
           && differs token (VALID_TOKEN_2 env)
           && differs token (VALID_TOKEN_3 env)
           && differs token (VALID_TOKEN_4 env)
        then
          Fulfilled
            (newValidateRequestResult
               {| status := 401; responseText := str "Invalid auth bearer" |}
               None)
        else
          Fulfilled
            (newValidateRequestResult
               {| status := 200; responseText := [] |}
               (Some (if negb (differs token (VALID_TOKEN_3 env))
                      then str "eToro Token"
                      else str "Internal Token")))
    end.

(** [executeTasksLangfuse]: the trace is created, the tasks are awaited and
    then the writer is closed.  Returns how the function settles and whether
    it has closed the writer. *)
Definition executeTasksLangfuse {A : Type} (executeTasks : Outcome A)
  : Outcome unit * bool :=
  match executeTasks with
  | Fulfilled _ => (Fulfilled tt, true)
  | Rejected e => (Rejected e, false)
  end.

(** What [POST] answers: a plain response, or the streaming response next
    to the background task it has started and does not await. *)
Inductive PostResult : Type :=
| Replied (r : Response)
| Streaming (settled : Outcome unit) (writerClosed : bool).

(** [POST(request)] *)
Definition POST (env : Env) (limiter : jsstring -> Outcome bool) (w : World)
    (request : HttpRequest) : Outcome PostResult :=
  validationResult <- validateRequest env limiter request ;;
  if negb (isValid validationResult) then
    Fulfilled (Replied (response validationResult))
  else
    jsonParams <- json request ;;
    match history jsonParams, bodyPrompt jsonParams with
    | Some messages, Some (c :: p) =>
        let background :=
          executeTasksLangfuse
            (agentTaskPipeline w
               {| prompt := c :: p; user_name := bodyUserName jsonParams;
                  requestHistory := messages |}) in
        Fulfilled (Streaming (fst background) (snd background))
    | _, _ =>
        Fulfilled
          (Replied {| status := 400; responseText := str "No prompt provided" |})
    end.

(** The token the request presents is one of the configured ones. *)
Definition presentsConfiguredToken (env : Env) (request : HttpRequest)
  : Prop :=
  exists token,
    bearerToken request = Some token
    /\ token <> []
    /\ (VALID_TOKEN_1 env = Some token \/ VALID_TOKEN_2 env = Some token
        \/ VALID_TOKEN_3 env = Some token \/ VALID_TOKEN_4 env = Some token).

(** The body carries a history and a non-empty prompt. *)
Definition carriesPrompt (request : HttpRequest) : Prop :=
  exists body messages c p,
    json request = Fulfilled body
    /\ history body = Some messages
    /\ bodyPrompt body = Some (c :: p).

(** A request is accepted when the route answers with the stream. *)
Definition accepted (result : Outcome PostResult) : Prop :=
  exists settled closed, result = Fulfilled (Streaming settled closed).

Definition sampleEnv : Env :=
  {| VALID_TOKEN_1 := Some (str "alpha");
     VALID_TOKEN_2 := None;
     VALID_TOKEN_3 := Some (str "gamma");
     VALID_TOKEN_4 := None |}.

Definition sampleHttpRequest : HttpRequest :=
  {| forwardedFor := Some (str "10.0.0.7");
     authorization := Some (str "Bearer gamma");
     json := Fulfilled {| history := Some [];
                          bodyPrompt := Some (str "tell me about it");
                          bodyUserName := None |} |}.

(** The same request later in the conversation. *)
Definition followUpHttpRequest : HttpRequest :=
  {| forwardedFor := Some (str "10.0.0.7");
     authorization := Some (str "Bearer gamma");
     json := Fulfilled {| history := Some sampleHistory;
                          bodyPrompt := Some (str "and its fee?");
                          bodyUserName := None |} |}.

Definition openLimiter (ip : jsstring) : Outcome bool := Fulfilled true.

Definition closedLimiter (ip : jsstring) : Outcome bool := Fulfilled false.

(** A request with a configured token and an empty prompt. *)
Definition promptlessBody : Body :=
  {| history := Some []; bodyPrompt := Some []; bodyUserName := None |}.

Definition promptlessRequest : HttpRequest :=
  {| forwardedFor := None;
     authorization := Some (str "Bearer gamma");
     json := Fulfilled promptlessBody |}.

(** ** Plain SQL with literals

    The texts the query agents are told to write: keywords and function
    names, bare identifiers, numerals, punctuation and single-quoted
    literals whose body is made of the same, with no double quote and no
    percent sign anywhere and no empty literal. *)

Inductive Plain : Type :=
| Keyword (w : jsstring)
| Identifier (w : jsstring)
| Number (w : jsstring)
| Punct (c : ascii).

Inductive Lexeme : Type :=
| Bare (p : Plain)
| Literal (body : list Plain).

Definition plainText (p : Plain) : jsstring :=
  match p with
  | Keyword w | Identifier w | Number w => w
  | Punct c => [c]
  end.

(** What the quoter is to make of a lexeme outside a literal. *)
Definition plainQuoted (p : Plain) : jsstring :=
  match p with
  | Identifier w => dquote :: w ++ [dquote]
  | _ => plainText p
  end.

Definition bodyText (body : list Plain) : jsstring := flat_map plainText body.

Definition bodyQuoted (body : list Plain) : jsstring :=
  flat_map plainQuoted body.

(** The text as the agent writes it. *)
Definition sourceText (ls : list Lexeme) : jsstring :=
  flat_map (fun l => match l with
                     | Bare p => plainText p
                     | Literal body => squote :: bodyText body ++ [squote]
                     end) ls.

(** The text with every bare identifier outside a literal in double quotes
    and everything else as it was. *)
Definition quotedText (ls : list Lexeme) : jsstring :=
  flat_map (fun l => match l with
                     | Bare p => plainQuoted p
                     | Literal body => squote :: bodyText body ++ [squote]
                     end) ls.

Definition plainOk (p : Plain) : bool :=
  match p with
  | Keyword w => isIdentifier w && isReserved w
  | Identifier w => isIdentifier w && negb (isReserved w)
  | Number w => isNumeral w
  | Punct c =>
      negb (isWordChar c || isDquote c || isSquote c || isPercent c)
  end.

Definition wordLike (p : Plain) : bool :=
  match p with
  | Punct _ => false
  | _ => true
  end.

Definition isIdentifierLexeme (p : Plain) : bool :=
  match p with
  | Identifier _ => true
  | _ => false
  end.

(** Two words need something between them to be two words. *)
Fixpoint plainSeqOk (body : list Plain) : bool :=
  match body with
  | [] => true
  | p :: rest =>
      plainOk p
      && match rest with
         | q :: _ => negb (wordLike p && wordLike q)
         | [] => true
         end
      && plainSeqOk rest
  end.

Definition lexemeOk (l : Lexeme) : bool :=
  match l with
  | Bare p => plainOk p
  | Literal [] => false
  | Literal (p :: body) => plainSeqOk (p :: body)
  end.

(** A bare identifier does not touch a literal. *)
Definition mayTouch (a b : Lexeme) : bool :=
  match a, b with
  | Bare p, Bare q => negb (wordLike p && wordLike q)
  | Bare p, Literal _ => negb (isIdentifierLexeme p)
  | Literal _, Bare q => negb (isIdentifierLexeme q)
  | Literal _, Literal _ => true
  end.

Fixpoint plainSql (ls : list Lexeme) : bool :=
  match ls with
  | [] => true
  | l :: rest =>
      lexemeOk l
      && match rest with
         | m :: _ => mayTouch l m
         | [] => true
         end
      && plainSql rest
  end.

Definition beginsWithSquote (s : jsstring) : bool :=
  match s with
  | [] => false
  | c :: _ => isSquote c
  end.


(** [s] without a double quote at its head. *)
Definition dropLeadingDquote (s : jsstring) : jsstring :=
  match s with
  | c :: s' => if isDquote c then s' else s
  | [] => []
  end.

(** [s] without a double quote at its end. *)
Fixpoint dropTrailingDquote (s : jsstring) : jsstring :=
  match s with
  | [] => []
  | [c] => if isDquote c then [] else [c]
  | c :: s' => c :: dropTrailingDquote s'
  end.

(** The text between the stages: outside the literals it is the quoted
    text; the body of a literal may still hold double quotes, and is its
    source body once they are removed. *)
Inductive Decorated : list Lexeme -> jsstring -> Prop :=
| Decorated_nil : Decorated [] []
| Decorated_bare (p : Plain) (ls : list Lexeme) (t : jsstring) :
    Decorated ls t -> Decorated (Bare p :: ls) (plainQuoted p ++ t)
| Decorated_literal (body : list Plain) (b : jsstring) (ls : list Lexeme)
    (t : jsstring) :
    forallb plain b = true ->
    removeDquotes b = bodyText body ->
    Decorated ls t ->
    Decorated (Literal body :: ls) (squote :: b ++ squote :: t).

(** The second and third stage of the quoter on their own. *)
Definition stage2 (s : jsstring) : jsstring :=
  replaceAll [squote; dquote] [squote] s.

Definition stage3 (s : jsstring) : jsstring :=
  replaceAll [dquote; squote] [squote] s.

(** How a text that stands for a lexeme sequence begins. *)
Definition headIsIdentifier (ls : list Lexeme) : bool :=
  match ls with
  | Bare p :: _ => isIdentifierLexeme p
  | _ => false
  end.

Definition headIsLiteral (ls : list Lexeme) : bool :=
  match ls with
  | Literal _ :: _ => true
  | _ => false
  end.

(** SELECT name FROM instruments WHERE ticker = 'AAPL stock' LIMIT 5 *)
Definition sampleSql : list Lexeme :=
  [Bare (Keyword (str "SELECT")); Bare (Punct " ");
   Bare (Identifier (str "name")); Bare (Punct " ");
   Bare (Keyword (str "FROM")); Bare (Punct " ");
   Bare (Identifier (str "instruments")); Bare (Punct " ");
   Bare (Keyword (str "WHERE")); Bare (Punct " ");
   Bare (Identifier (str "ticker")); Bare (Punct " ");
   Bare (Punct "="); Bare (Punct " ");
   Literal [Identifier (str "AAPL"); Punct " "; Identifier (str "stock")];
   Bare (Punct " "); Bare (Keyword (str "LIMIT")); Bare (Punct " ");
   Bare (Number (str "5"))].

(** ** tools.ts: the market-data tools

    The tools [getAdditionalDataResponse] hands to the tool agent.  Each of
    them fetches candles from the market-data endpoint and looks into the
    parsed body.  A price is the rational value of the number the body
    carries; what the tools need of [Date] is kept in a [Calendar]. *)

Record CandleDanny : Type := {
  InstrumentID : Z;
  FromDate : jsstring;
  Open : number;
  High : number;
  Low : number;
  Close : number;
  Volume : number
}.

(** An entry of [data.Candles]; [Candles] is [None] when the entry has no
    such field. *)
Record CandleSeries : Type := { Candles : option (list CandleDanny) }.

(** The parsed body: [null], or an object whose [Candles] field is missing
    ([None]) or an array of entries. *)
Inductive CandleData : Type :=
| DataNull
| DataObject (series : option (list CandleSeries)).

Inductive Interval : Type := OneDay | OneWeek.

(** What a tool asks of the endpoint: the interval, the number of candles
    as it is printed into the URL ([None] stands for [NaN]) and the
    instrument. *)
Record CandleRequest : Type := {
  interval : Interval;
  candlesCount : option Z;
  instrument : Z
}.

(** [fetch] followed by [response.json()]: rejected when the request fails
    or the body is no JSON.  The status of the response is not looked at. *)
Definition Market := CandleRequest -> Outcome CandleData.

Definition nullCandles : JsError :=
  TypeError "Cannot read properties of null (reading 'Candles')".

(** [data.Candles?.[0]?.Candles || []] *)
Definition candlesOf (data : CandleData) : Outcome (list CandleDanny) :=
  match data with
  | DataNull => Rejected nullCandles
  | DataObject None => Fulfilled []
  | DataObject (Some []) => Fulfilled []
  | DataObject (Some (first :: _)) =>
      match Candles first with
      | Some candles => Fulfilled candles
      | None => Fulfilled []
      end
  end.

(** [data.Candles[0].Candles[2]], which the period tool evaluates for its
    log line. *)
Definition thirdCandle (data : CandleData) : Outcome (option CandleDanny) :=
  match data with
  | DataNull => Rejected nullCandles
  | DataObject None =>
      Rejected (TypeError "Cannot read properties of undefined (reading '0')")
  | DataObject (Some []) =>
      Rejected
        (TypeError "Cannot read properties of undefined (reading 'Candles')")
  | DataObject (Some (first :: _)) =>
      match Candles first with
      | Some candles => Fulfilled (nth_error candles 2)
      | None =>
          Rejected
            (TypeError "Cannot read properties of undefined (reading '2')")
      end
  end.

(** Time values are milliseconds; [None] is the time value of an invalid
    date. *)
Record Calendar : Type := {
  today : Z;                            (* new Date().getTime() *)
  timeOf : jsstring -> option Z;        (* new Date(s).getTime() *)
  setDateBack : nat -> Z -> option Z;   (* d.setDate(d.getDate() - n) *)
  toISOString : Z -> jsstring
}.

Definition msPerDay : Z := 1000 * 60 * 60 * 24.

(** [Math.ceil(a / b)] for [0 <= a] and [0 < b] *)
Definition ceilDiv (a b : Z) : Z := (- ((- a) / b))%Z.

(** [Math.min(diffDays + 5, 1000)], with [diffDays] the days between today
    and [date] *)
Definition candlesFor (calendar : Calendar) (date : jsstring) : option Z :=
  match timeOf calendar date with
  | Some t =>
      let diffTime := Z.abs (today calendar - t) in
      let diffDays := ceilDiv diffTime msPerDay in
      Some (Z.min (diffDays + 5) 1000)
  | None => None
  end.

Definition invalidTime : JsError :=
  {| errName := str "RangeError"; errMessage := str "Invalid time value" |}.

(** [d.toISOString()] *)
Definition isoString (calendar : Calendar) (t : option Z) : Outcome jsstring :=
  match t with
  | Some t => Fulfilled (toISOString calendar t)
  | None => Rejected invalidTime
  end.

(** [s.split("T")[0]] *)
Definition datePart (s : jsstring) : jsstring := hd [] (splitOn "T" s).

(** [a <= b] on strings: by character codes, a proper prefix first. *)
Fixpoint strLeb (a b : jsstring) : bool :=
  match a, b with
  | [], _ => true
  | _ :: _, [] => false
  | x :: a', y :: b' =>
      if (code x <? code y)%N then true
      else if (code y <? code x)%N then false
      else strLeb a' b'
  end.

(** *** getInstrumentAllTimeHighTool *)

Record AllTimeHigh : Type := {
  allTimeHigh : number;
  dateRange : jsstring * jsstring       (* start, end *)
}.

(** One round of the loop over the candles. *)
Definition higherOf (best : number * jsstring) (candle : CandleDanny)
  : number * jsstring :=
  if Qltb (fst best) (High candle) then (High candle, FromDate candle)
  else best.

Definition getInstrumentAllTimeHighTool (calendar : Calendar) (market : Market)
    (instrumentId : Z) : Outcome (option AllTimeHigh) :=
  data <- market {| interval := OneWeek; candlesCount := Some 1000%Z;
                    instrument := instrumentId |} ;;
  candles <- candlesOf data ;;
  match candles with
  | [] => Fulfilled None
  | first :: _ =>
      let best := fold_left higherOf candles (High first, FromDate first) in
      let endDate := timeOf calendar (snd best) in
      let startDate :=
        match endDate with
        | Some t => setDateBack calendar 6 t
        | None => None
        end in
      start <- isoString calendar startDate ;;
      finish <- isoString calendar endDate ;;
      Fulfilled
        (Some {| allTimeHigh := fst best; dateRange := (start, finish) |})
  end.

(** *** getInstrumentHighOrLowOnPeriodTool *)

Inductive Direction : Type := high | low.

Record PeriodExtreme : Type := {
  price : number;
  date : option jsstring
}.

(** [Math.max(...xs)] and [Math.min(...xs)] on a list that is not empty: the
    running extreme is replaced by a value that is strictly beyond it. *)
Definition mathMax (first : number) (rest : list number) : number :=
  fold_left (fun highest x => if Qltb highest x then x else highest) rest first.

Definition mathMin (first : number) (rest : list number) : number :=
  fold_left (fun lowest x => if Qltb x lowest then x else lowest) rest first.

Definition inPeriod (startDateStr endDateStr : jsstring) (candle : CandleDanny)
  : bool :=
  let candleDate := datePart (FromDate candle) in
  strLeb startDateStr candleDate && strLeb candleDate endDateStr.

(** The field of a candle the direction asks for. *)
Definition quote (direction : Direction) (c : CandleDanny) : number :=
  match direction with
  | high => High c
  | low => Low c
  end.

Definition getInstrumentHighOrLowOnPeriodTool (calendar : Calendar)
    (market : Market) (instrumentId : Z) (startDate endDate : jsstring)
    (direction : Direction) : Outcome (option PeriodExtreme) :=
  data <- market {| interval := OneDay;
                    candlesCount := candlesFor calendar startDate;
                    instrument := instrumentId |} ;;
  _ <- thirdCandle data ;;
  candles <- candlesOf data ;;
  match candles with
  | [] => Fulfilled None
  | _ :: _ =>
      let startDateStr := datePart startDate in
      let endDateStr := datePart endDate in
      let periodCandles := filter (inPeriod startDateStr endDateStr) candles in
      match periodCandles with
      | [] => Fulfilled None
      | first :: rest =>
          let price :=
            match direction with
            | high => mathMax (High first) (map High rest)
            | low => mathMin (Low first) (map Low rest)
            end in
          let candle :=
            find (fun c => Qeq_bool (quote direction c) price) periodCandles in
          Fulfilled (Some {| price := price; date := option_map FromDate candle |})
      end
  end.

(** The body holds a candle array: [data.Candles[0].Candles] is there. *)
Definition hasCandleArray (data : CandleData) : bool :=
  match data with
  | DataObject (Some (first :: _)) =>
      match Candles first with
      | Some _ => true
      | None => false
      end
  | _ => false
  end.

(** [x] falls short of [p] in the direction asked for. *)
Definition fallsShort (direction : Direction) (x p : number) : Prop :=
  match direction with
  | high => (x < p)%Q
  | low => (p < x)%Q
  end.

(** [x] does not go beyond [p] in the direction asked for. *)
Definition notBeyond (direction : Direction) (x p : number) : Prop :=
  match direction with
  | high => (x <= p)%Q
  | low => (p <= x)%Q
  end.

Definition candle (fromDate : string) (h l : number) : CandleDanny :=
  {| InstrumentID := 1001; FromDate := str fromDate;
     Open := l; High := h; Low := l; Close := h; Volume := 0%Q |}.

(** Four daily candles; the second and the third share the highest high. *)
Definition sampleCandles : list CandleDanny :=
  [candle "2025-06-02T00:00:00Z" (10#1)%Q (8#1)%Q;
   candle "2025-06-03T00:00:00Z" (12#1)%Q (9#1)%Q;
   candle "2025-06-04T00:00:00Z" (24#2)%Q (7#1)%Q;
   candle "2025-06-05T00:00:00Z" (11#1)%Q (7#1)%Q].

Definition sampleBody : CandleData :=
  DataObject (Some [{| Candles := Some sampleCandles |}]).

(** An error body: an object without [Candles]. *)
Definition errorBody : CandleData := DataObject None.

Definition sampleMarket : Market := fun _ => Fulfilled sampleBody.

Definition errorMarket : Market := fun _ => Fulfilled errorBody.

(** *** getInstrumentPerformanceInRangeTool and getSingleDayPriceTool *)

(** What the two tools use of the engine beyond strings and comparisons:
    [Array.prototype.sort], whose result for a comparator that is not
    consistent is left to the implementation, and the arithmetic of
    [((endPrice - startPrice) / startPrice) * 100] on doubles, whose result
    need not be a finite number. *)
Record Engine : Type := {
  arraySort : (CandleDanny -> CandleDanny -> option Z) ->
              list CandleDanny -> list CandleDanny;
  percentChange : number -> number -> option number
}.

(** [a <= b] on time values; a comparison with [NaN] is false. *)
Definition timeLeb (a b : option Z) : bool :=
  match a, b with
  | Some x, Some y => (x <=? y)%Z
  | _, _ => false
  end.

(** [dateB.getTime() - dateA.getTime()], the comparator of both tools *)
Definition mostRecentFirst (calendar : Calendar) (a b : CandleDanny)
  : option Z :=
  let dateA := timeOf calendar (FromDate a) in
  let dateB := timeOf calendar (FromDate b) in
  match dateB, dateA with
  | Some tb, Some ta => Some (tb - ta)%Z
  | _, _ => None
  end.

(** The filter of both tools: the date part of the candle lies between the
    look-back date and the target date. *)
Definition withinLookBack (calendar : Calendar)
    (lookBackDate targetDateObj : option Z) (candle : CandleDanny) : bool :=
  let candleDate := timeOf calendar (datePart (FromDate candle)) in
  timeLeb lookBackDate candleDate && timeLeb candleDate targetDateObj.

(** [d.setDate(d.getDate() - n)] on a copy of a date that may be invalid *)
Definition lookBack (calendar : Calendar) (n : nat) (t : option Z) : option Z :=
  match t with
  | Some t => setDateBack calendar n t
  | None => None
  end.

Definition findClosestTradingDay (calendar : Calendar) (engine : Engine)
    (targetDate : jsstring) (candles : list CandleDanny) (lookBackDays : nat)
  : option CandleDanny :=
  let targetDateObj := timeOf calendar targetDate in
  let lookBackDate := lookBack calendar lookBackDays targetDateObj in
  hd_error
    (arraySort engine (mostRecentFirst calendar)
       (filter (withinLookBack calendar lookBackDate targetDateObj) candles)).

Record Performance : Type := {
  performance : option number;
  startDate : jsstring;
  endDate : jsstring;
  startPrice : number;
  endPrice : number;
  period : jsstring * jsstring          (* start, end *)
}.

Definition getInstrumentPerformanceInRangeTool (calendar : Calendar)
    (engine : Engine) (market : Market) (instrumentId : Z)
    (startDate endDate : jsstring) : Outcome (option Performance) :=
  data <- market {| interval := OneDay;
                    candlesCount := candlesFor calendar startDate;
                    instrument := instrumentId |} ;;
  candles <- candlesOf data ;;
  match candles with
  | [] => Fulfilled None
  | _ :: _ =>
      let startDateStr := datePart startDate in
      let endDateStr := datePart endDate in
      let startCandle :=
        findClosestTradingDay calendar engine startDateStr candles 3 in
      let endCandle :=
        findClosestTradingDay calendar engine endDateStr candles 3 in
      match startCandle, endCandle with
      | Some startCandle, Some endCandle =>
          let startPrice := Close startCandle in
          let endPrice := Close endCandle in
          Fulfilled
            (Some {| performance := percentChange engine startPrice endPrice;
                     startDate := FromDate startCandle;
                     endDate := FromDate endCandle;
                     startPrice := startPrice;
                     endPrice := endPrice;
                     period := (FromDate startCandle, FromDate endCandle) |})
      | _, _ => Fulfilled None
      end
  end.

Definition getSingleDayPriceTool (calendar : Calendar) (engine : Engine)
    (market : Market) (instrumentId : Z) (date : jsstring)
  : Outcome (option CandleDanny) :=
  data <- market {| interval := OneDay;
                    candlesCount := candlesFor calendar date;
                    instrument := instrumentId |} ;;
  let targetDateStr := datePart date in
  candles <- candlesOf data ;;
  let targetCandle :=
    find (fun candle => jsstring_eqb (datePart (FromDate candle)) targetDateStr)
      candles in
  match targetCandle with
  | None =>
      let targetDateObj := timeOf calendar targetDateStr in
      let threeDaysAgo := lookBack calendar 3 targetDateObj in
      let closestCandle :=
        hd_error
          (arraySort engine (mostRecentFirst calendar)
             (filter (withinLookBack calendar threeDaysAgo targetDateObj)
                candles)) in
      Fulfilled closestCandle
  | Some targetCandle => Fulfilled (Some targetCandle)
  end.

(** **** Vocabulary *)

(** [a] is dated no earlier than [b]. *)
Definition notEarlier (calendar : Calendar) (a b : CandleDanny) : Prop :=
  exists ta tb,
    timeOf calendar (FromDate a) = Some ta
    /\ timeOf calendar (FromDate b) = Some tb
    /\ (tb <= ta)%Z.

(** What the language promises of [sort] for the comparator of the tools:
    on candles whose dates are all valid the comparator is consistent, and
    the result is the same candles with no candle before a more recent
    one. *)
Definition SortsByDate (calendar : Calendar) (engine : Engine) : Prop :=
  forall l,
    Forall (fun c => timeOf calendar (FromDate c) <> None) l ->
    Permutation l (arraySort engine (mostRecentFirst calendar) l)
    /\ StronglySorted (notEarlier calendar)
         (arraySort engine (mostRecentFirst calendar) l).

(** Every candle whose date part is a date has a date. *)
Definition DatedCandles (calendar : Calendar) (candles : list CandleDanny)
  : Prop :=
  Forall (fun c => timeOf calendar (datePart (FromDate c)) <> None ->
                   timeOf calendar (FromDate c) <> None) candles.

(** The candles of the look-back window of [targetDate]. *)
Definition window (calendar : Calendar) (targetDate : jsstring)
    (lookBackDays : nat) (candles : list CandleDanny) : list CandleDanny :=
  filter (withinLookBack calendar
            (lookBack calendar lookBackDays (timeOf calendar targetDate))
            (timeOf calendar targetDate)) candles.

(** [c] is a most recent candle of the window. *)
Definition closestTradingDay (calendar : Calendar) (targetDate : jsstring)
    (lookBackDays : nat) (candles : list CandleDanny) (c : CandleDanny) : Prop :=
  In c (window calendar targetDate lookBackDays candles)
  /\ forall x, In x (window calendar targetDate lookBackDays candles) ->
               notEarlier calendar c x.

(** **** Samples *)

(** The digits of a text up to its first [T], read as one number. *)
Fixpoint digitsValue (acc : Z) (s : jsstring) : Z :=
  match s with
  | [] => acc
  | c :: s' =>
      if Ascii.eqb c "T" then acc
      else if isDigit c
           then digitsValue (10 * acc + Z.of_N (code c) - 48)%Z s'
           else digitsValue acc s'
  end.

(** A calendar for the days of one month: the date 2025-06-03 is day
    20250603, whatever the time of day, and today is the tenth of June.
    Its [toISOString] prints one and the same text. *)
Definition juneCalendar : Calendar :=
  {| today := 20250610 * msPerDay;
     timeOf := fun s => Some (digitsValue 0 s * msPerDay)%Z;
     setDateBack := fun n t => Some (t - Z.of_nat n * msPerDay)%Z;
     toISOString := fun t => str "2025-06-03T00:00:00.000Z" |}.

(** [x] put before the first candle the comparator does not rank before
    it. *)
Fixpoint insertCandle (compare : CandleDanny -> CandleDanny -> option Z)
    (x : CandleDanny) (l : list CandleDanny) : list CandleDanny :=
  match l with
  | [] => [x]
  | y :: l' =>
      match compare x y with
      | Some d => if (d <=? 0)%Z then x :: l else y :: insertCandle compare x l'
      | None => x :: l
      end
  end.

(** An engine that sorts by insertion and computes with exact fractions. *)
Definition sampleEngine : Engine :=
  {| arraySort := fun compare l => fold_right (insertCandle compare) [] l;
     percentChange := fun startPrice endPrice =>
       if Qeq_bool startPrice 0 then None
       else Some (((endPrice - startPrice) / startPrice) * (100#1))%Q |}.

(** ** Vocabulary: the quoter between percent signs *)

(** No single quote, no percent sign and no line terminator. *)
Definition inert (c : ascii) : bool :=
  negb (isSquote c || isPercent c || isLineTerminator c).

(** [verb] with a double quote after its first [n] characters, between two
    percent signs. *)
Definition splitVerb (verb : jsstring) (n : nat) : jsstring :=
  percent :: firstn n verb ++ dquote :: skipn n verb ++ [percent].

(** A database that accepts every connection and finds no row. *)
Definition emptyDatabase : Database :=
  {| poolConnect := None; clientQuery := fun _ => DbRows [] |}.

(** The text Apple, a blank, and Inc in double quotes. *)
Definition quotedName : jsstring :=
  str "Apple " ++ dquote :: str "Inc" ++ [dquote].

(** ** helpers.ts: [noClassificationApplies], and the [allFalse] of the route *)

Inductive ZodKind : Type := ZodString | ZodBoolean | ZodArray.

(** [classificationAgentSchema.shape]: the keys of the schema in the order
    they are declared, each with the kind of its value. *)
Definition classificationAgentSchemaShape : list (jsstring * ZodKind) :=
  [ (str "reasoning", ZodString);
    (str "reasoningInSimpleLanguageAddressedAtUser", ZodString);
    (str "isAboutUserPortfolio", ZodBoolean);
    (str "isAboutStockFundamentals", ZodBoolean);
    (str "isStockIndustryRelevant", ZodBoolean);
    (str "isAboutETFs", ZodBoolean);
    (str "isAboutCurrenciesOrCommoditiesOrIndices", ZodBoolean);
    (str "isAboutCrypto", ZodBoolean);
    (str "isAboutNews", ZodBoolean);
    (str "isAboutEarningsDates", ZodBoolean);
    (str "isAboutDividendDates", ZodBoolean);
    (str "isAboutInvestors", ZodBoolean);
    (str "isAboutSmartPortfolios", ZodBoolean);
    (str "isAboutAssetPricesOrPerformance", ZodBoolean);
    (str "userWantsToTradeAnAsset", ZodBoolean);
    (str "possibleAssetNamesOrTickers", ZodArray);
    (str "isAboutEarningsCallsSummariesOrRevenueSegmentation", ZodBoolean);
    (str "isAboutCorporateGuidanceOrStrategicOutlook", ZodBoolean);
    (str "isAboutImportantCEOs", ZodBoolean);
    (str "previousRelevantTickers", ZodArray) ].

(** A classification as the object the model call returns: one property
    per key of the schema.  An array is an object. *)
Definition classificationObject (c : ClassificationAgentSchema)
  : list (jsstring * JsValue) :=
  [ (str "reasoning", JStr (reasoning c));
    (str "reasoningInSimpleLanguageAddressedAtUser",
     JStr (reasoningInSimpleLanguageAddressedAtUser c));
    (str "isAboutUserPortfolio", JBool (isAboutUserPortfolio c));
    (str "isAboutStockFundamentals", JBool (isAboutStockFundamentals c));
    (str "isStockIndustryRelevant", JBool (isStockIndustryRelevant c));
    (str "isAboutETFs", JBool (isAboutETFs c));
    (str "isAboutCurrenciesOrCommoditiesOrIndices",
     JBool (isAboutCurrenciesOrCommoditiesOrIndices c));
    (str "isAboutCrypto", JBool (isAboutCrypto c));
    (str "isAboutNews", JBool (isAboutNews c));
    (str "isAboutEarningsDates", JBool (isAboutEarningsDates c));
    (str "isAboutDividendDates", JBool (isAboutDividendDates c));
    (str "isAboutInvestors", JBool (isAboutInvestors c));
    (str "isAboutSmartPortfolios", JBool (isAboutSmartPortfolios c));
    (str "isAboutAssetPricesOrPerformance",
     JBool (isAboutAssetPricesOrPerformance c));
    (str "userWantsToTradeAnAsset", JBool (userWantsToTradeAnAsset c));
    (str "possibleAssetNamesOrTickers", JObj);
    (str "isAboutEarningsCallsSummariesOrRevenueSegmentation",
     JBool (isAboutEarningsCallsSummariesOrRevenueSegmentation c));
    (str "isAboutCorporateGuidanceOrStrategicOutlook",
     JBool (isAboutCorporateGuidanceOrStrategicOutlook c));
    (str "isAboutImportantCEOs", JBool (isAboutImportantCEOs c));
    (str "previousRelevantTickers", JObj) ].

(** [obj[key]], [undefined] for a key the object does not have *)
Definition property (obj : list (jsstring * JsValue)) (key : jsstring)
  : JsValue :=
  match find (fun kv => jsstring_eqb (fst kv) key) obj with
  | Some kv => snd kv
  | None => JUndefined
  end.

Definition noClassificationApplies (classification : list (jsstring * JsValue))
  : bool :=
  negb (truthy (property classification (str "isAboutUserPortfolio"))) &&
  negb (truthy (property classification
                  (str "isAboutCurrenciesOrCommoditiesOrIndicesOrCrypto"))) &&
  negb (truthy (property classification (str "isAboutETFs"))) &&
  negb (truthy (property classification (str "isAboutStocks"))) &&
  negb (truthy (property classification (str "isAboutNews"))) &&
  negb (truthy (property classification (str "isAboutEarningsDates"))) &&
  negb (truthy (property classification (str "isAboutDividendDates"))) &&
  negb (truthy (property classification (str "isAboutInvestors"))).

(** The boolean keys of the schema other than [userWantsToTradeAnAsset], as
    [agentTaskPipeline] collects them. *)
Definition booleanClassificationKeys : list jsstring :=
  filter (fun key => negb (jsstring_eqb key (str "userWantsToTradeAnAsset")))
    (map fst
       (filter (fun entry => match snd entry with
                             | ZodBoolean => true
                             | _ => false
                             end)
          classificationAgentSchemaShape)).

Definition allFalse (classification : list (jsstring * JsValue)) : bool :=
  forallb (fun key => negb (truthy (property classification key)))
    booleanClassificationKeys.

(** ** langsheet-client.ts: spans

    The local bookkeeping of a trace as far as its spans go.  A span object
    is known by the order in which it was created: the trace state holds the
    span objects made so far, and the two maps of the trace ([traceData.spans]
    and [activeSpans]) hold, under a name, the number of a span object.  So
    what [end] does to a span object is seen through both maps, as it is in
    the source, where the maps hold references.  [Date.now()] and the random
    part of an id are inputs of the operations. *)

(** The values the callers put into the metadata of a span. *)
Inductive MetaValue : Type :=
| MetaText (text : jsstring)
| MetaRows (rows : list ComparisonItem)
| MetaError (e : JsError).

(** A metadata object: its keys in insertion order. *)
Definition Metadata := list (jsstring * MetaValue).

(** [map.set(key, v)], also the assignment [obj[key] = v]: a key that is
    there keeps its place, a new key goes to the end. *)
Fixpoint mapSet {V : Type} (key : jsstring) (v : V) (m : list (jsstring * V))
  : list (jsstring * V) :=
  match m with
  | [] => [(key, v)]
  | (k, w) :: rest =>
      if jsstring_eqb k key then (k, v) :: rest
      else (k, w) :: mapSet key v rest
  end.

(** [map.get(key)] *)
Definition mapGet {V : Type} (key : jsstring) (m : list (jsstring * V))
  : option V :=
  option_map snd (find (fun kv => jsstring_eqb (fst kv) key) m).

(** [map.has(key)] *)
Definition mapHas {V : Type} (key : jsstring) (m : list (jsstring * V)) : bool :=
  existsb (fun kv => jsstring_eqb (fst kv) key) m.

(** [{ ...a, ...b }], where [a] may be [undefined] *)
Definition spread (a : option Metadata) (b : Metadata) : Metadata :=
  fold_left (fun obj kv => mapSet (fst kv) (snd kv) obj) b
    (match a with
     | Some a => a
     | None => []
     end).

Record LocalSpan : Type := {
  spanId : jsstring;                    (* id *)
  spanName : jsstring;                  (* name *)
  metadata : option Metadata;
  agentName : option jsstring;
  startTime : Z;
  endTime : option Z;
  parentId : option jsstring
}.

(** A [LangsheetSpan] object: its [data] and its [isEnded]. *)
Record LangsheetSpan : Type := {
  spanData : LocalSpan;             (* data *)
  isEnded : bool
}.

Record LangsheetTrace : Type := {
  spans : list (jsstring * nat);        (* traceData.spans *)
  activeSpans : list (jsstring * nat);
  spanObjects : list LangsheetSpan
}.

(** A trace as the constructor of [LangsheetTrace] leaves it. *)
Definition freshTrace : LangsheetTrace :=
  {| spans := []; activeSpans := []; spanObjects := [] |}.

(** [a || b] on optional strings: an empty string is falsy. *)
Definition firstTruthy (a b : option jsstring) : option jsstring :=
  match a with
  | Some (_ :: _) => a
  | _ => b
  end.

(** [span.hasEnded()] for the span object [ref] *)
Definition hasEnded (trace : LangsheetTrace) (ref : nat) : bool :=
  match nth_error (spanObjects trace) ref with
  | Some span => isEnded span
  | None => false
  end.

(** [trace.hasActiveSpan(name)] *)
Definition hasActiveSpan (trace : LangsheetTrace) (name : jsstring) : bool :=
  match mapGet name (activeSpans trace) with
  | Some ref => negb (hasEnded trace ref)
  | None => false
  end.

(** [trace.addSpanToTrace(localSpan, span)] for a span object made just now;
    answers the number of the object. *)
Definition addSpanToTrace (trace : LangsheetTrace) (localSpan : LocalSpan)
  : LangsheetTrace * nat :=
  let ref := List.length (spanObjects trace) in
  ({| spans := mapSet (spanName localSpan) ref (spans trace);
      activeSpans := mapSet (spanName localSpan) ref (activeSpans trace);
      spanObjects :=
        spanObjects trace ++ [{| spanData := localSpan; isEnded := false |}] |},
   ref).

(** [trace.startSpan(name, data)]; [None] is the [null] it answers when it
    refuses. *)
Definition startSpan (trace : LangsheetTrace) (name : jsstring)
    (meta : option Metadata) (agent : option jsstring) (now : Z)
    (newId : jsstring) : LangsheetTrace * option nat :=
  if mapHas name (activeSpans trace) then (trace, None)
  else
    let localSpan :=
      {| spanId := newId; spanName := name; metadata := meta;
         agentName := agent; startTime := now; endTime := None;
         parentId := None |} in
    let (trace', ref) := addSpanToTrace trace localSpan in
    (trace', Some ref).

(** [span.startChildSpan(name, data)] on the span object [this] *)
Definition startChildSpan (trace : LangsheetTrace) (this : nat)
    (name : jsstring) (meta : option Metadata) (agent : option jsstring)
    (now : Z) (newId : jsstring) : LangsheetTrace * option nat :=
  match nth_error (spanObjects trace) this with
  | None => (trace, None)
  | Some parent =>
      let childSpanName := spanName (spanData parent) ++ ":"%char :: name in
      if hasActiveSpan trace childSpanName then (trace, None)
      else
        let localSpan :=
          {| spanId := newId; spanName := childSpanName; metadata := meta;
             agentName := firstTruthy agent (agentName (spanData parent));
             startTime := now; endTime := None;
             parentId := Some (spanId (spanData parent)) |} in
        let (trace', ref) := addSpanToTrace trace localSpan in
        (trace', Some ref)
  end.

(** [objects[ref] = span] *)
Fixpoint setObject (objects : list LangsheetSpan) (ref : nat)
    (span : LangsheetSpan) : list LangsheetSpan :=
  match objects, ref with
  | [], _ => []
  | _ :: rest, O => span :: rest
  | o :: rest, S k => o :: setObject rest k span
  end.

(** [span.end(data)] on the span object [ref] *)
Definition endSpan (trace : LangsheetTrace) (ref : nat)
    (meta : option Metadata) (now : Z) : LangsheetTrace :=
  match nth_error (spanObjects trace) ref with
  | None => trace
  | Some span =>
      if isEnded span then trace
      else
        let ended :=
          {| spanData :=
               {| spanId := spanId (spanData span);
                  spanName := spanName (spanData span);
                  metadata :=
                    match meta with
                    | Some m => Some (spread (metadata (spanData span)) m)
                    | None => metadata (spanData span)
                    end;
                  agentName := agentName (spanData span);
                  startTime := startTime (spanData span);
                  endTime := Some now;
                  parentId := parentId (spanData span) |};
             isEnded := true |} in
        {| spans := spans trace;
           activeSpans := activeSpans trace;
           spanObjects := setObject (spanObjects trace) ref ended |}
  end.

(** [span?.end(data)] *)
Definition endIfSpan (trace : LangsheetTrace) (span : option nat)
    (meta : option Metadata) (now : Z) : LangsheetTrace :=
  match span with
  | Some ref => endSpan trace ref meta now
  | None => trace
  end.

(** [trace.getActiveSpanNames()] *)
Definition getActiveSpanNames (trace : LangsheetTrace) : list jsstring :=
  filter (fun name =>
            match mapGet name (activeSpans trace) with
            | Some ref => negb (hasEnded trace ref)
            | None => false
            end)
    (map fst (activeSpans trace)).

(** What is done to a trace, one call at a time. *)
Inductive SpanCall : Type :=
| StartSpan (name : jsstring) (meta : option Metadata)
    (agent : option jsstring) (now : Z) (newId : jsstring)
| StartChildSpan (this : nat) (name : jsstring) (meta : option Metadata)
    (agent : option jsstring) (now : Z) (newId : jsstring)
| EndSpan (ref : nat) (meta : option Metadata) (now : Z).

Definition call (trace : LangsheetTrace) (c : SpanCall) : LangsheetTrace :=
  match c with
  | StartSpan name meta agent now newId =>
      fst (startSpan trace name meta agent now newId)
  | StartChildSpan this name meta agent now newId =>
      fst (startChildSpan trace this name meta agent now newId)
  | EndSpan ref meta now => endSpan trace ref meta now
  end.

Definition calls (trace : LangsheetTrace) (cs : list SpanCall)
  : LangsheetTrace :=
  fold_left call cs trace.

(** *** The traced executor

    [generateComparisonDataSqlQueriesResponse] and [dbQueryWithLog] once
    more, this time with the spans they start and end.  Each callback of
    [allQueries.map] runs up to its first [await] as soon as it is called,
    so every child span is started before any query is answered; what
    follows the [await] is listed candidate by candidate, as in the model
    without spans. *)

(** The times and the id the [n]-th candidate meets. *)
Record Timing : Type := {
  startedAt : nat -> Z;
  endedAt : nat -> Z;
  idOf : nat -> jsstring
}.

Definition nullSpanParent : JsError :=
  TypeError "Cannot read properties of null (reading 'startChildSpan')".

(** Where a callback stands when the [map] is through. *)
Inductive Pending : Type :=
| Settled (events : list Event) (result : Outcome (list ComparisonItem))
| AtConnect (query : CandidateQuery) (text : jsstring)
    (langsheetSpan : option nat) (endTime : Z)
| Thrown (query : CandidateQuery) (e : JsError).

(** The callback up to [await pool.connect()]. *)
Definition beginCandidate (writer : bool) (timing : Timing)
    (langsheetSpan : option nat) (state : LangsheetTrace * nat)
    (query : CandidateQuery) : (LangsheetTrace * nat) * Pending :=
  let (trace, n) := state in
  if negb (truthy (sqlQuery query)) then
    ((trace, S n),
     Settled (write writer (stepName query) false (str "No query to execute"))
       (Fulfilled []))
  else if notStringOrDangerous (sqlQuery query) then
    ((trace, S n),
     if writer then
       match isDangerousQueryOf (sqlQuery query) with
       | Fulfilled dangerous =>
           Settled
             (write writer (stepName query) false
                (if dangerous then str "Query is not safe to execute"
                 else str "No query to execute"))
             (Fulfilled [])
       | Rejected e => Settled [] (Rejected e)
       end
     else Settled [] (Fulfilled []))
  else
    match sqlQuery query with
    | JStr text =>
        match langsheetSpan with
        | None => ((trace, S n), Thrown query nullSpanParent)
        | Some langsheetSpanParent =>
            let (trace', span) :=
              startChildSpan trace langsheetSpanParent
                (str "sqlQuery: " ++ stepName query)
                (Some [(str "input", MetaText text)]) None
                (startedAt timing n) (idOf timing n) in
            ((trace', S n), AtConnect query text span (endedAt timing n))
        end
    | _ => ((trace, S n), Settled [] (Fulfilled []))
    end.

(** The [.catch] of the callback and what follows it. *)
Definition afterQuery (writer : bool) (query : CandidateQuery)
    (reply : Outcome (list ComparisonItem))
  : list Event * Outcome (list ComparisonItem) :=
  let (catchEvents, results) :=
    match reply with
    | Fulfilled rows => ([], rows)
    | Rejected err =>
        (write writer (stepName query) false (errorText err),
         [ErrorItem (queryReasoning query) (errorText err)])
    end in
  (catchEvents ++
     write writer (stepName query) (resultsSuccess results)
       (resultsText results),
   Fulfilled (ReasoningItem (queryReasoning query) :: results)).

(** The callback from [await pool.connect()] on. *)
Definition finishCandidate (writer : bool) (db : Database)
    (trace : LangsheetTrace) (pending : Pending)
  : LangsheetTrace * (list Event * Outcome (list ComparisonItem)) :=
  match pending with
  | Settled events result => (trace, (events, result))
  | Thrown query e => (trace, afterQuery writer query (Rejected e))
  | AtConnect query text langsheetSpan now =>
      match poolConnect db with
      | Some e =>
          let (events, result) := afterQuery writer query (Rejected e) in
          (trace, (PoolConnect :: events, result))
      | None =>
          let enforcedQuery := enforceCaseSensitivity text in
          match clientQuery db enforcedQuery with
          | DbRows rows =>
              let output :=
                match rows with
                | [] => [TextItem noResultsText]
                | _ :: _ => map RowItem rows
                end in
              let (events, result) :=
                afterQuery writer query (Fulfilled output) in
              (endIfSpan trace langsheetSpan
                 (Some [(str "output", MetaRows output)]) now,
               ([PoolConnect; ClientQuery enforcedQuery; ClientRelease]
                  ++ events, result))
          | DbThrows e =>
              let (events, result) := afterQuery writer query (Rejected e) in
              (endIfSpan trace langsheetSpan
                 (Some [(str "output", MetaError e)]) now,
               ([PoolConnect; ClientQuery enforcedQuery; ClientRelease]
                  ++ events, result))
          end
      end
  end.

Fixpoint beginAll (writer : bool) (timing : Timing) (langsheetSpan : option nat)
    (state : LangsheetTrace * nat) (queries : list CandidateQuery)
  : LangsheetTrace * list Pending :=
  match queries with
  | [] => (fst state, [])
  | query :: rest =>
      let (state', pending) :=
        beginCandidate writer timing langsheetSpan state query in
      let (trace, pendings) :=
        beginAll writer timing langsheetSpan state' rest in
      (trace, pending :: pendings)
  end.

Fixpoint finishAll (writer : bool) (db : Database) (trace : LangsheetTrace)
    (pendings : list Pending)
  : LangsheetTrace * list (list Event * Outcome (list ComparisonItem)) :=
  match pendings with
  | [] => (trace, [])
  | pending :: rest =>
      let (trace', run) := finishCandidate writer db trace pending in
      let (trace'', runs) := finishAll writer db trace' rest in
      (trace'', run :: runs)
  end.

Definition generateComparisonDataSqlQueriesResponseTraced (writer : bool)
    (db : Database) (langsheetTrace : LangsheetTrace) (now : Z)
    (newId : jsstring) (timing : Timing) (finishedAt : Z)
    (allQueries : list CandidateQuery)
  : LangsheetTrace * (list Event * Outcome (list ComparisonItem)) :=
  let (trace0, langsheetSpan) :=
    startSpan langsheetTrace (str "comparisonDataSqlQueries") None None now
      newId in
  let (trace1, pendings) :=
    beginAll writer timing langsheetSpan (trace0, 0) allQueries in
  let (trace2, runs) := finishAll writer db trace1 pendings in
  let comparisonData :=
    rows <- promiseAll (map snd runs) ;; Fulfilled (List.concat rows) in
  (match comparisonData with
   | Fulfilled rows =>
       endIfSpan trace2 langsheetSpan
         (Some [(str "comparisonData", MetaRows rows)]) finishedAt
   | Rejected _ => trace2
   end,
   (List.concat (map fst runs), comparisonData)).

(** **** Vocabulary *)

(** The candidate gets as far as [dbQueryWithLog]. *)
Definition reachesDatabase (query : CandidateQuery) : bool :=
  truthy (sqlQuery query) && negb (notStringOrDangerous (sqlQuery query)).

(** A timing with one clock tick per candidate. *)
Definition sampleTiming : Timing :=
  {| startedAt := fun n => Z.of_nat n;
     endedAt := fun n => (Z.of_nat n + 100)%Z;
     idOf := fun n => str "span_" ++ natText n |}.

(** The trace a first run of the executor leaves behind. *)
Definition usedTrace : LangsheetTrace :=
  fst (generateComparisonDataSqlQueriesResponseTraced true oneRowDatabase
         freshTrace 0 (str "span_parent") sampleTiming 500 [selectCandidate]).

(** The name of the child span [name] under the span object [this]. *)
Definition childSpanNameOf (trace : LangsheetTrace) (this : nat)
    (name : jsstring) : jsstring :=
  match nth_error (spanObjects trace) this with
  | Some parent => spanName (spanData parent) ++ ":"%char :: name
  | None => name
  end.

(** A trace with the span of the executor on it. *)
Definition parentTrace : LangsheetTrace :=
  fst (startSpan freshTrace (str "comparisonDataSqlQueries") None None 0
         (str "span_a")).

(** A database whose pool hands out no connection. *)
Definition closedDatabase : Database :=
  {| poolConnect := Some (TypeError "timeout exceeded when trying to connect");
     clientQuery := fun _ => DbRows [] |}.

(* ================================================================== *)
(** * Part II — properties *)
(* ================================================================== *)

(** ** Substrings *)

Lemma startsWith_prefix (pat s : jsstring) :
  startsWith pat s = true <-> exists rest, s = pat ++ rest.
Proof.
  revert s; induction pat as [|p pat IH]; intros s; simpl.
  - split; [intros _; now exists s | reflexivity].
  - destruct s as [|c s].
    + split; [discriminate | intros [rest H]; discriminate].
    + rewrite andb_true_iff, Ascii.eqb_eq, IH. split.
      * intros [-> [rest ->]]. now exists rest.
      * intros [rest H]. injection H as -> ->. split; [reflexivity | now exists rest].
Qed.

Lemma includes_contains (s pat : jsstring) :
  includes s pat = true <-> contains s pat.
Proof.
  unfold contains. induction s as [|c s IH].
  - simpl. rewrite orb_false_r, startsWith_prefix. split.
    + intros [rest H]. exists [], rest. exact H.
    + intros [before [after H]]. destruct before; simpl in H.
      * now exists after.
      * discriminate.
  - cbn [includes]. rewrite orb_true_iff, startsWith_prefix, IH. split.
    + intros [[rest H] | [before [after H]]].
      * exists [], rest. exact H.
      * exists (c :: before), after. simpl. now rewrite H.
    + intros [before [after H]]. destruct before as [|b before]; simpl in H.
      * left. now exists after.
      * right. injection H as _ H. now exists before, after.
Qed.

Lemma includes_false_iff (s pat : jsstring) :
  includes s pat = false <-> ~ contains s pat.
Proof.
  rewrite <- includes_contains. destruct (includes s pat); split; intros H;
    try reflexivity; try discriminate; try (exfalso; now apply H).
Qed.

Lemma toUpperCase_app (a b : jsstring) :
  toUpperCase (a ++ b) = toUpperCase a ++ toUpperCase b.
Proof. apply map_app. Qed.

(** ** SafetyFilter *)

Lemma isDangerousQuery_iff (sql : jsstring) :
  isDangerousQuery sql = true <->
  exists verb, In verb denylist /\ contains (toUpperCase sql) verb.
Proof.
  unfold isDangerousQuery, denylist.
  repeat rewrite orb_true_iff. repeat rewrite includes_contains.
  split.
  - intros H.
    repeat (destruct H as [H | H]);
      (eexists; split; [ | exact H ]); simpl; tauto.
  - intros [verb [Hin H]]. simpl in Hin.
    repeat (destruct Hin as [<- | Hin]); tauto.
Qed.

(** C2.  [isDangerousQuery] answers true exactly when the upper-cased text
    contains one of the nine denylisted verbs.  In particular a text that
    holds a verb in any mix of upper and lower case is flagged, and a text
    whose upper-cased form holds none of the nine is not. *)
Theorem isDangerousQuery_denylist (sql : jsstring) :
  (isDangerousQuery sql = true <->
     exists verb, In verb denylist /\ contains (toUpperCase sql) verb)
  /\ (forall word verb,
        In verb denylist -> toUpperCase word = verb ->
        contains sql word -> isDangerousQuery sql = true)
  /\ ((forall verb, In verb denylist -> ~ contains (toUpperCase sql) verb) ->
      isDangerousQuery sql = false).
Proof.
  split; [apply isDangerousQuery_iff | split].
  - intros word verb Hin Hup [before [after ->]].
    apply isDangerousQuery_iff. exists verb. split; [exact Hin|].
    exists (toUpperCase before), (toUpperCase after).
    now rewrite !toUpperCase_app, Hup.
  - intros Hnone. destruct (isDangerousQuery sql) eqn:E; [|reflexivity].
    apply isDangerousQuery_iff in E. destruct E as [verb [Hin Hc]].
    exfalso. exact (Hnone verb Hin Hc).
Qed.

Lemma not_contains_by_includes (s pat : jsstring) :
  includes s pat = false -> ~ contains s pat.
Proof. apply includes_false_iff. Qed.

(** The three spellings of the specification's example and a plain SELECT. *)
Lemma isDangerousQuery_denylist_witness :
  isDangerousQuery (str "drop table t") = true
  /\ isDangerousQuery (str "x; DROP TABLE t") = true
  /\ isDangerousQuery (str "select 1; DrOp view v") = true
  /\ isDangerousQuery (str "SELECT name FROM fundamentals_view LIMIT 5") = false.
Proof.
  split; [|split; [|split]].
  - apply (proj1 (proj2 (isDangerousQuery_denylist (str "drop table t")))
             (str "drop") (str "DROP")).
    + simpl; tauto.
    + reflexivity.
    + exists [], (str " table t"). reflexivity.
  - apply (proj1 (proj2 (isDangerousQuery_denylist (str "x; DROP TABLE t")))
             (str "DROP") (str "DROP")).
    + simpl; tauto.
    + reflexivity.
    + exists (str "x; "), (str " TABLE t"). reflexivity.
  - apply (proj1 (proj2 (isDangerousQuery_denylist (str "select 1; DrOp view v")))
             (str "DrOp") (str "DROP")).
    + simpl; tauto.
    + reflexivity.
    + exists (str "select 1; "), (str " view v"). reflexivity.
  - apply (proj2 (proj2 (isDangerousQuery_denylist
                           (str "SELECT name FROM fundamentals_view LIMIT 5")))).
    intros verb Hin. simpl in Hin.
    repeat (destruct Hin as [<- | Hin]);
      try (apply not_contains_by_includes; vm_compute; reflexivity).
    contradiction.
Defined.

(** ** TickerResolver *)

(** C6.  With no candidate names, no earlier tickers and no trade intent the
    resolver returns the empty sequence and sends nothing to the catalog,
    whatever the other flags are. *)
Theorem resolver_short_circuit (catalog : InstrumentsView)
    (classification : ClassificationAgentSchema) :
  possibleAssetNamesOrTickers classification = [] ->
  previousRelevantTickers classification = [] ->
  userWantsToTradeAnAsset classification = false ->
  generateTickersExtractionQueriesResponse catalog classification = ([], []).
Proof.
  intros Hnames Hprev Htrade.
  unfold generateTickersExtractionQueriesResponse.
  now rewrite Hnames, Hprev, Htrade.
Qed.

Lemma resolver_short_circuit_witness :
  generateTickersExtractionQueriesResponse sampleCatalog allTopicsNoNames
  = ([], []).
Proof.
  apply (resolver_short_circuit sampleCatalog allTopicsNoNames); reflexivity.
Defined.

(** Past the guard the catalog is asked exactly once. *)
Lemma resolver_asks_once (catalog : InstrumentsView)
    (classification : ClassificationAgentSchema) :
  userWantsToTradeAnAsset classification = true ->
  List.length (fst (generateTickersExtractionQueriesResponse catalog classification)) = 1.
Proof.
  intros Htrade. unfold generateTickersExtractionQueriesResponse.
  rewrite Htrade, !andb_false_r.
  now destruct (catalog _).
Qed.

(** ** QueryExecutor *)

Lemma write_no_db (writer : bool) (step : jsstring) (ok : bool)
    (text : jsstring) :
  existsb isDbEvent (write writer step ok text) = false.
Proof. now destruct writer. Qed.

(** A candidate whose SQL field is falsy ([null], [undefined], the empty
    string, ...) is answered with no rows and the status
    [No query to execute]; the database is not touched. *)
Lemma runCandidate_no_query (writer : bool) (db : Database)
    (query : CandidateQuery) :
  truthy (sqlQuery query) = false ->
  runCandidate writer db query
  = (write writer (stepName query) false (str "No query to execute"),
     Fulfilled [])
  /\ existsb isDbEvent (fst (runCandidate writer db query)) = false.
Proof.
  intros H. unfold runCandidate. rewrite H. simpl.
  split; [reflexivity | apply write_no_db].
Qed.

(** A candidate whose SQL text is flagged by [isDangerousQuery] is answered
    with no rows and the status [Query is not safe to execute]; the database
    is not touched. *)
Lemma runCandidate_dangerous (writer : bool) (db : Database)
    (query : CandidateQuery) (text : jsstring) :
  sqlQuery query = JStr text ->
  isDangerousQuery text = true ->
  runCandidate writer db query
  = (write writer (stepName query) false (str "Query is not safe to execute"),
     Fulfilled [])
  /\ existsb isDbEvent (fst (runCandidate writer db query)) = false.
Proof.
  intros Hq Hd.
  assert (Ht : truthy (JStr text) = true).
  { destruct text; [discriminate Hd | reflexivity]. }
  unfold runCandidate. rewrite Hq, Ht. simpl. rewrite Hd.
  destruct writer; simpl; split; reflexivity.
Qed.

Lemma runCandidate_no_query_witness :
  runCandidate true oneRowDatabase declinedCandidate
  = ([Wrote {| sfStepName := str "Latest News"; sfSuccess := false;
               sfText := str "No query to execute" |}],
     Fulfilled [])
  /\ existsb isDbEvent (fst (runCandidate true oneRowDatabase declinedCandidate))
     = false.
Proof.
  exact (runCandidate_no_query true oneRowDatabase declinedCandidate eq_refl).
Defined.

Lemma runCandidate_dangerous_witness :
  runCandidate true oneRowDatabase deleteCandidate
  = ([Wrote {| sfStepName := str "Stock Fundamentals"; sfSuccess := false;
               sfText := str "Query is not safe to execute" |}],
     Fulfilled [])
  /\ existsb isDbEvent (fst (runCandidate true oneRowDatabase deleteCandidate))
     = false.
Proof.
  exact (runCandidate_dangerous true oneRowDatabase deleteCandidate
           (text := str "DELETE FROM fundamentals_view") eq_refl eq_refl).
Defined.

(** Without a writer a truthy value that is no string is dropped silently. *)
Lemma runCandidate_not_a_string_silent (db : Database) (query : CandidateQuery) :
  truthy (sqlQuery query) = true ->
  (forall text, sqlQuery query <> JStr text) ->
  runCandidate false db query = ([], Fulfilled []).
Proof.
  intros Ht Hs. unfold runCandidate. rewrite Ht. simpl.
  destruct (sqlQuery query); try reflexivity.
  now destruct (Hs s).
Qed.

(** With a writer a truthy value that is no string makes the callback
    throw: the status text is computed by [isDangerousQuery] on it. *)
Lemma runCandidate_not_a_string_throws (db : Database) (query : CandidateQuery) :
  truthy (sqlQuery query) = true ->
  (forall text, sqlQuery query <> JStr text) ->
  exists e, runCandidate true db query = ([], Rejected e).
Proof.
  intros Ht Hs. unfold runCandidate. rewrite Ht. simpl.
  destruct (sqlQuery query); try discriminate Ht; simpl; eauto.
  now destruct (Hs s).
Qed.


Lemma promiseAll_app {A : Type} (ps qs : list (Outcome A)) (xs ys : list A) :
  promiseAll ps = Fulfilled xs ->
  promiseAll qs = Fulfilled ys ->
  promiseAll (ps ++ qs) = Fulfilled (xs ++ ys).
Proof.
  revert xs; induction ps as [|p ps IH]; intros xs Hp Hq; simpl in *.
  - injection Hp as <-. exact Hq.
  - destruct p as [a|e]; [|discriminate].
    destruct (promiseAll ps) as [l|e] eqn:E; [|discriminate].
    injection Hp as <-. now rewrite (IH l eq_refl Hq).
Qed.

Lemma promiseAll_rejected {A : Type} (ps : list (Outcome A)) (e : JsError) :
  In (Rejected e) ps -> exists e', promiseAll ps = Rejected e'.
Proof.
  induction ps as [|p ps IH]; intros Hin; [contradiction|].
  simpl. destruct p as [a|e0]; [|eauto].
  destruct Hin as [Hin | Hin]; [discriminate|].
  destruct (IH Hin) as [e' ->]. eauto.
Qed.

Lemma executor_rows (writer : bool) (db : Database)
    (queries : list CandidateQuery) (rows : list ComparisonItem) :
  snd (generateComparisonDataSqlQueriesResponse writer db queries)
  = Fulfilled rows <->
  exists perQuery,
    promiseAll (map snd (map (runCandidate writer db) queries))
    = Fulfilled perQuery
    /\ rows = List.concat perQuery.
Proof.
  unfold generateComparisonDataSqlQueriesResponse. simpl.
  destruct (promiseAll _) as [l|e]; simpl; split.
  - intros H. injection H as <-. now exists l.
  - intros [l' [H ->]]. now injection H as <-.
  - discriminate.
  - intros [l' [H _]]. discriminate.
Qed.

(** The rows of a query list are those of its parts, in dispatch order. *)
Lemma executor_app (writer : bool) (db : Database)
    (before after : list CandidateQuery) (rb ra : list ComparisonItem) :
  snd (generateComparisonDataSqlQueriesResponse writer db before) = Fulfilled rb ->
  snd (generateComparisonDataSqlQueriesResponse writer db after) = Fulfilled ra ->
  snd (generateComparisonDataSqlQueriesResponse writer db (before ++ after))
  = Fulfilled (rb ++ ra).
Proof.
  rewrite !executor_rows. intros [pb [Hb ->]] [pa [Ha ->]].
  exists (pb ++ pa). rewrite !map_app, concat_app.
  split; [now apply promiseAll_app | reflexivity].
Qed.





(** C4.  When the execution of a candidate's query throws (the pool refuses
    the connection or the query fails), the callback still fulfils: the
    query contributes its [{reasoning}] row followed by one row with the
    same reasoning and the error text.  Inside a list of candidates these
    two rows sit at the query's dispatch position between the rows of the
    other queries, and the executor fulfils. *)
Theorem execution_error_becomes_rows (writer : bool) (db : Database)
    (query : CandidateQuery) (text : jsstring) (err : JsError) :
  sqlQuery query = JStr text ->
  truthy (JStr text) = true ->
  isDangerousQuery text = false ->
  snd (dbQueryWithLog db text) = Rejected err ->
  let errorRows :=
    [ReasoningItem (queryReasoning query);
     ErrorItem (queryReasoning query) (errorText err)] in
  snd (runCandidate writer db query) = Fulfilled errorRows
  /\ forall before after rb ra,
       snd (generateComparisonDataSqlQueriesResponse writer db before)
       = Fulfilled rb ->
       snd (generateComparisonDataSqlQueriesResponse writer db after)
       = Fulfilled ra ->
       snd (generateComparisonDataSqlQueriesResponse writer db
              (before ++ query :: after))
       = Fulfilled (rb ++ errorRows ++ ra).
Proof.
  intros Hq Ht Hd Hdb errorRows.
  assert (Hrun : snd (runCandidate writer db query) = Fulfilled errorRows).
  { unfold runCandidate. rewrite Hq, Ht. simpl. rewrite Hd.
    destruct (dbQueryWithLog db text) as [events reply].
    simpl in Hdb. subst reply. reflexivity. }
  split; [exact Hrun|].
  intros before after rb ra Hb Ha.
  apply executor_app; [exact Hb|].
  change (query :: after) with ([query] ++ after).
  apply executor_app; [|exact Ha].
  apply executor_rows. exists [errorRows]. simpl.
  rewrite Hrun. split; reflexivity.
Qed.

Lemma execution_error_becomes_rows_witness :
  snd (runCandidate true failingDatabase selectCandidate)
  = Fulfilled
      [ReasoningItem (JStr (str "list the funds"));
       ErrorItem (JStr (str "list the funds")) (str "relation does not exist")]
  /\ snd (generateComparisonDataSqlQueriesResponse true failingDatabase
            ([] ++ selectCandidate :: []))
     = Fulfilled
         ([] ++
          [ReasoningItem (JStr (str "list the funds"));
           ErrorItem (JStr (str "list the funds")) (str "relation does not exist")]
          ++ []).
Proof.
  pose proof (execution_error_becomes_rows true failingDatabase selectCandidate
                (text := str "SELECT ticker FROM etf_fundamentals_view")
                (err := relationMissing)
                eq_refl eq_refl eq_refl eq_refl) as [Hrun Hall].
  split; [exact Hrun|].
  exact (Hall [] [] [] [] eq_refl eq_refl).
Defined.

(** ** EvidenceOrchestrator *)

Lemma bind_fulfilled {A B : Type} (p : Outcome A) (k : A -> Outcome B) (b : B) :
  bind p k = Fulfilled b -> exists a, p = Fulfilled a /\ k a = Fulfilled b.
Proof. destruct p as [a|e]; simpl; [eauto | discriminate]. Qed.

(** A dispatched query agent that rejects makes [generateSQLAgentResponse]
    reject. *)
Lemma sql_agents_all_or_nothing (w : World)
    (classification : ClassificationAgentSchema) (d : Domain) (e : JsError) :
  precondition classification d = true ->
  sqlAgent w d = Rejected e ->
  exists e', generateSQLAgentResponse w classification = Rejected e'.
Proof.
  intros Hpre Hrej. unfold generateSQLAgentResponse.
  apply promiseAll_rejected with (e := e).
  apply in_map_iff. exists d. rewrite Hrej. split; [reflexivity|].
  apply filter_In. split; [destruct d; simpl; tauto | exact Hpre].
Qed.

(** The join of the route is all-or-nothing: as soon as one dispatched
    evidence task rejects, the join rejects and nothing of what the other
    tasks produced is handed on. *)
Lemma gather_all_or_nothing (w : World)
    (classification : ClassificationAgentSchema) :
  (isAboutUserPortfolio classification = true
   /\ exists e, portfolioAnalysisAgent w = Rejected e)
  \/ (exists d e, precondition classification d = true
                  /\ sqlAgent w d = Rejected e)
  \/ (wantsGoogleSearch classification = true
      /\ exists e, googleSearchAgent w = Rejected e)
  \/ (isAboutAssetPricesOrPerformance classification = true
      /\ exists e, additionalDataAgent w = Rejected e) ->
  exists e, gatherEvidence w classification = Rejected e.
Proof.
  unfold gatherEvidence.
  intros [[Hc [e He]] | [[d [e [Hc He]]] | [[Hc [e He]] | [Hc [e He]]]]].
  - rewrite Hc, He.
    destruct (whenever (isAboutAssetPricesOrPerformance classification) _);
      simpl; eauto.
  - destruct (sql_agents_all_or_nothing w classification d Hc He) as [e' ->].
    destruct (whenever (isAboutAssetPricesOrPerformance classification) _);
      simpl; eauto.
    destruct (whenever (isAboutUserPortfolio classification) _); simpl; eauto.
  - rewrite Hc, He.
    destruct (whenever (isAboutAssetPricesOrPerformance classification) _);
      simpl; eauto.
    destruct (whenever (isAboutUserPortfolio classification) _); simpl; eauto.
    destruct (generateSQLAgentResponse w classification); simpl; eauto.
  - rewrite Hc, He. simpl. eauto.
Qed.

(** C1, at the input on which the code departs from it.  In the sample turn
    three evidence tasks are dispatched: the ETF and the news query agents,
    which both fulfil, and the search-grounded agent, which rejects.  The
    join rejects with the search agent's error, and so does the whole turn:
    the two candidate queries the sibling agents produced are discarded. *)
Theorem one_rejection_aborts_turn :
  List.length (filter (precondition etfNewsClassification) domains) = 2
  /\ wantsGoogleSearch etfNewsClassification = true
  /\ generateSQLAgentResponse searchFailsWorld etfNewsClassification
     = Fulfilled [(selectEtfs, str "ETF Data"); (selectEtfs, str "Latest News")]
  /\ googleSearchAgent searchFailsWorld = Rejected timeout
  /\ gatherEvidence searchFailsWorld etfNewsClassification = Rejected timeout
  /\ agentTaskPipeline searchFailsWorld sampleRequest = Rejected timeout.
Proof. repeat split; vm_compute; reflexivity. Qed.

Lemma evidenceStage_fulfilled (w : World) (request : Request)
    (input : SynthesisInput) :
  evidenceStage w request = Fulfilled input ->
  exists classification portfolioAnalysis queryResults google additional executed,
    classificationAgent w = Fulfilled classification
    /\ gatherEvidence w classification
       = Fulfilled (portfolioAnalysis, queryResults, google, additional)
    /\ snd (generateComparisonDataSqlQueriesResponse true (database w)
              (map toCandidate queryResults)) = Fulfilled executed
    /\ comparisonData input
       = withTickerFallback executed
           (snd (generateTickersExtractionQueriesResponse (instrumentsView w)
                   classification)).
Proof.
  unfold evidenceStage. intros H.
  apply bind_fulfilled in H. destruct H as [classification [Hc H]].
  apply bind_fulfilled in H. destruct H as [portfolio [_ H]].
  apply bind_fulfilled in H. destruct H as [[[[pa qr] g] ad] [Hg H]].
  apply bind_fulfilled in H. destruct H as [executed [He H]].
  injection H as <-. simpl.
  exists classification, pa, qr, g, ad, executed. auto.
Qed.

(** C5.  In every turn that reaches the synthesizer, the evidence handed to
    it is the ticker matches resolved earlier when the executor returned no
    row at all, and the executor's rows, with no ticker match added, when it
    returned at least one. *)
Theorem fallback_to_ticker_matches (w : World) (request : Request)
    (input : SynthesisInput) :
  evidenceStage w request = Fulfilled input ->
  exists classification portfolioAnalysis queryResults google additional executed,
    classificationAgent w = Fulfilled classification
    /\ gatherEvidence w classification
       = Fulfilled (portfolioAnalysis, queryResults, google, additional)
    /\ snd (generateComparisonDataSqlQueriesResponse true (database w)
              (map toCandidate queryResults)) = Fulfilled executed
    /\ (executed = [] ->
        comparisonData input
        = map TickerItem
            (snd (generateTickersExtractionQueriesResponse (instrumentsView w)
                    classification)))
    /\ (executed <> [] -> comparisonData input = executed).
Proof.
  intros H.
  destruct (evidenceStage_fulfilled w request H)
    as (c & pa & qr & g & ad & executed & Hc & Hg & He & Hcd).
  exists c, pa, qr, g, ad, executed. repeat split; try assumption.
  - intros ->. exact Hcd.
  - intros Hne. rewrite Hcd. unfold withTickerFallback.
    destruct executed; [contradiction | reflexivity].
Qed.

Lemma namesOnly_reaches_synthesis :
  evidenceStage namesOnlyWorld sampleRequest = Fulfilled namesOnlyInput.
Proof. vm_compute. reflexivity. Qed.


Lemma fallback_to_ticker_matches_witness :
  exists classification portfolioAnalysis queryResults google additional executed,
    classificationAgent namesOnlyWorld = Fulfilled classification
    /\ gatherEvidence namesOnlyWorld classification
       = Fulfilled (portfolioAnalysis, queryResults, google, additional)
    /\ snd (generateComparisonDataSqlQueriesResponse true
              (database namesOnlyWorld) (map toCandidate queryResults))
       = Fulfilled executed
    /\ (executed = [] ->
        comparisonData namesOnlyInput
        = map TickerItem
            (snd (generateTickersExtractionQueriesResponse
                    (instrumentsView namesOnlyWorld) classification)))
    /\ (executed <> [] -> comparisonData namesOnlyInput = executed).
Proof.
  exact (fallback_to_ticker_matches namesOnlyWorld sampleRequest
           namesOnly_reaches_synthesis).
Defined.

(** ** FinalSynthesizer *)

Lemma cleanedHistory_id (messages : list ChatHistory) :
  cleanedHistory messages = messages.
Proof.
  unfold cleanedHistory. induction messages as [|[role text] l IH]; simpl.
  - reflexivity.
  - now rewrite IH.
Qed.



(** Whatever the synthesizer returns is the literal of its last line. *)
Lemma generateStreamFinalAgentResponse_returns
    (model : SynthesisInput -> list PartialObject) (input : SynthesisInput)
    (text : jsstring) (cleaned : list ChatHistory) (response : JsObject) :
  generateStreamFinalAgentResponse model input text cleaned
  = Fulfilled response ->
  response = [ (str "partialObjectStream", VStream (model input));
               (str "finishPromise", VUndefined) ].
Proof.
  unfold generateStreamFinalAgentResponse.
  destruct (convertToModelMessages cleaned); simpl; [|discriminate].
  intros H. now injection H as <-.
Qed.




(** ** PortfolioFetcher *)

Lemma Qltb_lt (a b : Q) : Qltb a b = true <-> (a < b)%Q.
Proof.
  unfold Qltb. rewrite negb_true_iff. split.
  - intros H. apply Qnot_le_lt. intros Hle.
    apply Qle_bool_iff in Hle. congruence.
  - intros H. destruct (Qle_bool b a) eqn:E; [|reflexivity].
    apply Qle_bool_iff in E. exfalso. exact (Qlt_not_le _ _ H E).
Qed.

Lemma Qltb_ge (a b : Q) : Qltb a b = false -> (b <= a)%Q.
Proof.
  unfold Qltb. rewrite negb_false_iff. apply Qle_bool_iff.
Qed.

Section SortByWeight.

Variable P : Holding -> Prop.

Lemma insertByWeight_Forall (x : Holding) (l : list Holding) :
  P x -> Forall P l -> Forall P (insertByWeight x l).
Proof.
  intros Hx Hl. induction Hl as [|y l Hy Hl IH]; simpl.
  - now constructor.
  - destruct (Qltb _ _); repeat constructor; assumption.
Qed.

Lemma sortByWeight_Forall (l : list Holding) :
  Forall P l -> Forall P (sortByWeight l).
Proof.
  intros Hl. induction Hl as [|x l Hx Hl IH]; simpl.
  - constructor.
  - now apply insertByWeight_Forall.
Qed.

End SortByWeight.

Lemma insertByWeight_sorted (x : Holding) (l : list Holding) :
  StronglySorted notLighter l -> StronglySorted notLighter (insertByWeight x l).
Proof.
  intros Hl. induction Hl as [|y l Hl IH Hy]; simpl.
  - repeat constructor.
  - destruct (Qltb (weightOrZero x) (weightOrZero y)) eqn:E.
    + apply Qltb_lt in E. constructor; [exact IH|].
      apply insertByWeight_Forall; [|exact Hy].
      unfold notLighter. apply Qlt_le_weak, E.
    + apply Qltb_ge in E. constructor.
      * now constructor.
      * constructor; [exact E|].
        eapply Forall_impl; [|exact Hy]. unfold notLighter. intros z Hz.
        eapply Qle_trans; [exact Hz | exact E].
Qed.

Lemma sortByWeight_sorted (l : list Holding) :
  StronglySorted notLighter (sortByWeight l).
Proof.
  induction l as [|x l IH]; simpl.
  - constructor.
  - now apply insertByWeight_sorted.
Qed.


(** Holdings of one weight come out of the sort in the order they went in:
    the sort is stable. *)
Lemma insertByWeight_stable (w : number) (x : Holding) (l : list Holding) :
  filter (fun h => Qeq_bool (weightOrZero h) w) (insertByWeight x l)
  = filter (fun h => Qeq_bool (weightOrZero h) w) (x :: l).
Proof.
  induction l as [|y l IH]; [reflexivity|].
  cbn [insertByWeight].
  destruct (Qltb (weightOrZero x) (weightOrZero y)) eqn:E; [|reflexivity].
  apply Qltb_lt in E. cbn [filter] in *. rewrite IH.
  destruct (Qeq_bool (weightOrZero x) w) eqn:Ex; [|reflexivity].
  destruct (Qeq_bool (weightOrZero y) w) eqn:Ey; [|reflexivity].
  apply Qeq_bool_iff in Ex. apply Qeq_bool_iff in Ey.
  exfalso. rewrite Ex, Ey in E. exact (Qlt_irrefl _ E).
Qed.

Lemma sortByWeight_stable (w : number) (l : list Holding) :
  filter (fun h => Qeq_bool (weightOrZero h) w) (sortByWeight l)
  = filter (fun h => Qeq_bool (weightOrZero h) w) l.
Proof.
  induction l as [|x l IH]; [reflexivity|].
  cbn [sortByWeight fold_right]. fold (sortByWeight l).
  rewrite insertByWeight_stable. cbn [filter]. now rewrite IH.
Qed.


Lemma firstn_subset {A : Type} (n : nat) (l : list A) (y : A) :
  In y (firstn n l) -> In y l.
Proof.
  revert n; induction l as [|x l IH]; intros [|n]; simpl; try tauto.
  intros [H | H]; [now left | right; eauto].
Qed.

Lemma firstn_sorted (n : nat) (l : list Holding) :
  StronglySorted notLighter l -> StronglySorted notLighter (firstn n l).
Proof.
  intros Hl. revert n. induction Hl as [|x l Hl IH Hx]; intros [|n]; simpl;
    try constructor.
  - apply IH.
  - apply Forall_forall. intros y Hy.
    rewrite Forall_forall in Hx. apply Hx. eapply firstn_subset; exact Hy.
Qed.

Lemma firstn_Forall (P : Holding -> Prop) (n : nat) (l : list Holding) :
  Forall P l -> Forall P (firstn n l).
Proof.
  rewrite !Forall_forall. intros H y Hy. apply H. eapply firstn_subset; exact Hy.
Qed.

Lemma aboveMinimum_heavierThan (m : number) (h : Holding) :
  aboveMinimum m h = true <-> heavierThan m h.
Proof.
  unfold aboveMinimum, heavierThan. destruct (portfolioWeight h) as [w|].
  - rewrite Qltb_lt. split.
    + intros H. now exists w.
    + intros [w' [Hw H]]. now injection Hw as ->.
  - split; [discriminate | intros [w [Hw _]]; discriminate].
Qed.

Lemma descending_of_notLighter (m : number) (l : list Holding) :
  Forall (heavierThan m) l ->
  StronglySorted notLighter l -> StronglySorted descending l.
Proof.
  intros Hw Hs. induction Hs as [|x l Hs IH Hx].
  - constructor.
  - inversion Hw as [|? ? Hwx Hwl]; subst. constructor; [now apply IH|].
    rewrite Forall_forall in *. intros y Hy.
    specialize (Hx y Hy). specialize (Hwl y Hy).
    destruct Hwx as [wx [Ex _]], Hwl as [wy [Ey _]].
    unfold descending, notLighter, weightOrZero in *.
    now rewrite Ex, Ey in *.
Qed.

Lemma finalResult_contract (m : number) (n : nat) (merged : list Holding) :
  Forall (heavierThan m) (finalResult m n merged)
  /\ StronglySorted descending (finalResult m n merged)
  /\ List.length (finalResult m n merged) <= n.
Proof.
  assert (Hw : Forall (heavierThan m) (finalResult m n merged)).
  { unfold finalResult. apply firstn_Forall, sortByWeight_Forall.
    apply Forall_forall. intros h Hh. apply filter_In in Hh.
    now apply aboveMinimum_heavierThan. }
  split; [exact Hw | split].
  - apply descending_of_notLighter with (m := m); [exact Hw|].
    apply firstn_sorted, sortByWeight_sorted.
  - apply firstn_le_length.
Qed.

(** C9.  (1) When the brokerage answers with positions (and the copy trades
    the investor query is built from) and none of the four enrichment
    queries reports an error, [getUserPortfolio] returns holdings only, each
    with a weight strictly above the threshold, in descending order of
    weight, and at most [maxPositions] of them.  (2) When the answer has no
    [positions], it returns the one-element array with the text
    [No portfolio data to analyze since portfolio is private or empty].
    (3) With an empty or missing username it returns the empty array, and
    (4) so it does when an enrichment query reports an error. *)
Theorem getUserPortfolio_contract
    (brokerage : jsstring -> Outcome PortfolioSummary)
    (catalog : PortfolioCatalog) (username : option jsstring)
    (minPortfolioWeight : number) (maxPositions : nat) :
  let result :=
    getUserPortfolio brokerage catalog username minPortfolioWeight maxPositions in
  let enrichmentError (ps : list Position) (ts : list SocialTrade) :=
    anyError (fundamentals_view catalog (map positionInstrumentId ps))
      (instruments catalog (map positionInstrumentId ps))
      (etf_fundamentals_view catalog (map positionInstrumentId ps))
      (popular_investors_fundamentals catalog (map parentUsername ts)) in
  (forall user ps ts,
     username = Some user -> noUsername username = false ->
     brokerage user
     = Fulfilled {| positions := Some ps; socialTrades := Some ts |} ->
     enrichmentError ps ts = false ->
     exists held,
       result = Fulfilled (map Held held)
       /\ Forall (heavierThan minPortfolioWeight) held
       /\ StronglySorted descending held
       /\ List.length held <= maxPositions)
  /\ (forall user summary,
        username = Some user -> noUsername username = false ->
        brokerage user = Fulfilled summary ->
        positions summary = None ->
        result = Fulfilled [Note noPortfolioText])
  /\ (noUsername username = true -> result = Fulfilled [])
  /\ (forall user ps ts,
        username = Some user -> noUsername username = false ->
        brokerage user
        = Fulfilled {| positions := Some ps; socialTrades := Some ts |} ->
        enrichmentError ps ts = true ->
        result = Fulfilled []).
Proof.
  intros result enrichmentError. subst result enrichmentError.
  unfold getUserPortfolio. repeat split.
  - intros user ps ts -> Hu Hb He.
    destruct user as [|c user]; [discriminate Hu|].
    rewrite Hb. simpl. rewrite He.
    eexists. split; [reflexivity|]. apply finalResult_contract.
  - intros user summary -> Hu Hb Hp.
    destruct user as [|c user]; [discriminate Hu|].
    rewrite Hb. simpl. now rewrite Hp.
  - intros Hu. destruct username as [[|c user]|]; try reflexivity.
    discriminate Hu.
  - intros user ps ts -> Hu Hb He.
    destruct user as [|c user]; [discriminate Hu|].
    rewrite Hb. simpl. now rewrite He.
Qed.

Lemma getUserPortfolio_contract_witness :
  (exists held,
     getUserPortfolio sampleBrokerage emptyPortfolioCatalog (Some (str "ann"))
       defaultMinPortfolioWeight defaultMaxPositions
     = Fulfilled (map Held held)
     /\ Forall (heavierThan defaultMinPortfolioWeight) held
     /\ StronglySorted descending held
     /\ List.length held <= defaultMaxPositions)
  /\ getUserPortfolio privateBrokerage emptyPortfolioCatalog (Some (str "ann"))
       defaultMinPortfolioWeight defaultMaxPositions
     = Fulfilled [Note noPortfolioText]
  /\ getUserPortfolio sampleBrokerage emptyPortfolioCatalog (Some [])
       defaultMinPortfolioWeight defaultMaxPositions
     = Fulfilled []
  /\ getUserPortfolio sampleBrokerage failingPortfolioCatalog (Some (str "ann"))
       defaultMinPortfolioWeight defaultMaxPositions
     = Fulfilled [].
Proof.
  split; [|split; [|split]].
  - exact (proj1 (getUserPortfolio_contract sampleBrokerage emptyPortfolioCatalog
                    (Some (str "ann")) defaultMinPortfolioWeight
                    defaultMaxPositions)
             (str "ann") samplePositions sampleTrades
             eq_refl eq_refl eq_refl eq_refl).
  - exact (proj1 (proj2 (getUserPortfolio_contract privateBrokerage
                           emptyPortfolioCatalog (Some (str "ann"))
                           defaultMinPortfolioWeight defaultMaxPositions))
             (str "ann") _ eq_refl eq_refl eq_refl eq_refl).
  - exact (proj1 (proj2 (proj2 (getUserPortfolio_contract sampleBrokerage
                                  emptyPortfolioCatalog (Some [])
                                  defaultMinPortfolioWeight defaultMaxPositions)))
             eq_refl).
  - exact (proj2 (proj2 (proj2 (getUserPortfolio_contract sampleBrokerage
                                  failingPortfolioCatalog (Some (str "ann"))
                                  defaultMinPortfolioWeight defaultMaxPositions)))
             (str "ann") samplePositions sampleTrades
             eq_refl eq_refl eq_refl eq_refl).
Defined.

(** The sample portfolio, evaluated: the weights 12, 7 and 5 remain, in
    that order. *)
Example getUserPortfolio_sample :
  option_map (map (fun e => match e with
                            | Held h => portfolioWeight h
                            | Note _ => None
                            end))
    (match getUserPortfolio sampleBrokerage emptyPortfolioCatalog
             (Some (str "ann")) defaultMinPortfolioWeight defaultMaxPositions with
     | Fulfilled l => Some l
     | Rejected _ => None
     end)
  = Some [Some (12 # 1)%Q; Some (7 # 1)%Q; Some (5 # 1)%Q].
Proof. vm_compute. reflexivity. Qed.

(** Ties, evaluated.  With the weights 5, 5, 9 and 5 the heaviest position
    comes first and the three others follow in the order of the array; of
    three positions of one weight, a limit of two keeps the first two. *)
Example getUserPortfolio_keeps_ties_in_order :
  heldInstrumentIds
    (getUserPortfolio (brokerageOf tiedPositions) emptyPortfolioCatalog
       (Some (str "ann")) defaultMinPortfolioWeight defaultMaxPositions)
  = Some [3; 1; 2; 4]%Z
  /\ heldInstrumentIds
       (getUserPortfolio (brokerageOf evenPositions) emptyPortfolioCatalog
          (Some (str "ann")) defaultMinPortfolioWeight 2)
     = Some [1; 2]%Z.
Proof. split; vm_compute; reflexivity. Qed.

(** ** IdentifierQuoter *)

(** The worked example of the specification: the tokens of the literal are
    quoted by stage 1 and unquoted again by stages 3 and 6. *)
Example enforceCaseSensitivity_select_this :
  quoteTokens (str "WHERE name = 'select this'")
  = str "WHERE " ++ [dquote] ++ str "name" ++ [dquote] ++ str " = '"
      ++ str "select " ++ [dquote] ++ str "this" ++ [dquote] ++ str "'"
  /\ enforceCaseSensitivity (str "WHERE name = 'select this'")
     = str "WHERE " ++ [dquote] ++ str "name" ++ [dquote]
         ++ str " = 'select this'".
Proof. split; vm_compute; reflexivity. Qed.

(** C7, at the input on which the code departs from it.  The literal
    ['x y'] comes after an empty literal.  Stage 6 needs a non-empty body,
    so it pairs the closing quote of the empty literal with the opening
    quote of ['x y'], strips the quotes of the identifier in between, and
    never sees ['x y'] as a literal: the double quotes stage 1 has put
    around [x] and [y] stay inside it. *)
Theorem literal_after_empty_literal_stays_quoted :
  enforceCaseSensitivity (str "a = '' OR b = 'x y'")
  = [dquote] ++ str "a" ++ [dquote] ++ str " = '' OR b = 'x"
      ++ [dquote] ++ str " " ++ [dquote] ++ str "y'"
  /\ includes (enforceCaseSensitivity (str "a = '' OR b = 'x y'"))
       (str "'x" ++ [dquote] ++ str " " ++ [dquote] ++ str "y'") = true
  /\ includes (enforceCaseSensitivity (str "a = '' OR b = 'x y'"))
       (str "'x y'") = false.
Proof. repeat split; vm_compute; reflexivity. Qed.

(** *** Character classes *)

Ltac by_cases_on c :=
  destruct c as [[] [] [] [] [] [] [] []]; vm_compute; try reflexivity;
  try discriminate; try tauto.

Lemma isDquote_eqb (c : ascii) : Ascii.eqb dquote c = isDquote c.
Proof. by_cases_on c. Qed.

Lemma wordChar_plain (c : ascii) :
  isWordChar c = true ->
  isDquote c = false /\ isSquote c = false /\ isPercent c = false.
Proof. by_cases_on c; intros H; try discriminate H; auto. Qed.

Lemma digit_not_identStart (c : ascii) :
  isDigit c = true -> isIdentStart c = false.
Proof. by_cases_on c. Qed.

Lemma isDquote_true (c : ascii) : isDquote c = true -> c = dquote.
Proof. by_cases_on c. Qed.

Lemma isSquote_true (c : ascii) : isSquote c = true -> c = squote.
Proof. by_cases_on c. Qed.

Lemma isPercent_true (c : ascii) : isPercent c = true -> c = percent.
Proof. by_cases_on c. Qed.

(** *** Stages that find nothing to do *)

Lemma startsWith_In (pat s : jsstring) (c : ascii) :
  startsWith pat s = true -> In c pat -> In c s.
Proof.
  intros H Hin. apply startsWith_prefix in H. destruct H as [rest ->].
  apply in_or_app. now left.
Qed.

(** A pattern with a character the text lacks is never found. *)
Lemma replaceAll_absent (pat rep s : jsstring) (c : ascii) :
  In c pat -> ~ In c s -> replaceAll pat rep s = s.
Proof.
  intros Hp. unfold replaceAll. induction s as [|x s IH]; intros Hs.
  - reflexivity.
  - cbn [replaceAllFrom].
    destruct (startsWith pat (x :: s)) eqn:E.
    + exfalso. apply Hs. eapply startsWith_In; eassumption.
    + f_equal. apply IH. intros H. apply Hs. now right.
Qed.

Lemma unquoteWildcards_absent (s : jsstring) :
  ~ In percent s -> unquoteWildcards s = s.
Proof.
  unfold unquoteWildcards. induction s as [|c s IH]; intros Hs.
  - reflexivity.
  - cbn [unquoteWildcardsFrom]. destruct (isPercent c) eqn:E.
    + apply isPercent_true in E. subst c. exfalso. apply Hs. now left.
    + f_equal. apply IH. intros H. apply Hs. now right.
Qed.

Lemma unquoteLiterals_absent (s : jsstring) :
  ~ In squote s -> unquoteLiterals s = s.
Proof.
  unfold unquoteLiterals. induction s as [|c s IH]; intros Hs.
  - reflexivity.
  - cbn [unquoteLiteralsFrom]. destruct (isSquote c) eqn:E.
    + apply isSquote_true in E. subst c. exfalso. apply Hs. now left.
    + f_equal. apply IH. intros H. apply Hs. now right.
Qed.

(** *** Stage 1 on words *)

Lemma quoteTokensFrom_word (cur w s : jsstring) :
  forallb isWordChar w = true ->
  quoteTokensFrom cur (w ++ s) = quoteTokensFrom (cur ++ w) s.
Proof.
  revert cur. induction w as [|c w IH]; intros cur Hw; simpl in *.
  - now rewrite app_nil_r.
  - apply andb_true_iff in Hw. destruct Hw as [Hc Hw].
    rewrite Hc, IH by exact Hw. now rewrite <- app_assoc.
Qed.

Lemma quoteTokensFrom_flush (cur s : jsstring) :
  beginsWithWordChar s = false ->
  quoteTokensFrom cur s = flushWord cur ++ quoteTokens s.
Proof.
  unfold quoteTokens. destruct s as [|c s]; simpl; intros H.
  - now rewrite app_nil_r.
  - now rewrite H.
Qed.

(** *** Stage 4 on runs of double quotes *)

Lemma collapse_other (c : ascii) (s : jsstring) :
  isDquote c = false -> collapse (c :: s) = c :: collapse s.
Proof.
  intros H. unfold collapse, replaceAll. cbn [replaceAllFrom startsWith].
  now rewrite isDquote_eqb, H.
Qed.

Lemma collapse_pair (s : jsstring) :
  collapse (dquote :: dquote :: s) = dquote :: collapse s.
Proof. reflexivity. Qed.

Lemma collapse_single (s : jsstring) :
  beginsWithDquote s = false -> collapse (dquote :: s) = dquote :: collapse s.
Proof.
  intros H. unfold collapse, replaceAll. cbn [replaceAllFrom startsWith].
  destruct s as [|c s]; [reflexivity|].
  simpl in H. now rewrite (isDquote_eqb c), H.
Qed.

Lemma collapse_word (w s : jsstring) :
  forallb isWordChar w = true -> collapse (w ++ s) = w ++ collapse s.
Proof.
  induction w as [|c w IH]; simpl; intros Hw; [reflexivity|].
  apply andb_true_iff in Hw. destruct Hw as [Hc Hw].
  rewrite collapse_other by (apply wordChar_plain, Hc).
  now rewrite IH.
Qed.

Lemma wellFormed_cons (p : Piece) (rest : list Piece) :
  wellFormed (p :: rest) = true ->
  pieceOk p = true /\ mayFollow p rest = true /\ wellFormed rest = true.
Proof.
  simpl. rewrite !andb_true_iff. tauto.
Qed.

Lemma isIdentifier_word (w : jsstring) :
  isIdentifier w = true ->
  forallb isWordChar w = true /\ exists c w', w = c :: w' /\ isIdentStart c = true.
Proof.
  destruct w as [|c w]; [discriminate|]. unfold isIdentifier.
  rewrite andb_true_iff. intros [Hc Hw]. split; [exact Hw | eauto].
Qed.

Lemma isNumeral_word (w : jsstring) :
  isNumeral w = true ->
  forallb isWordChar w = true /\ flushWord w = w.
Proof.
  destruct w as [|c w]; [discriminate|]. unfold isNumeral.
  rewrite andb_true_iff. intros [Hc Hw]. split; [exact Hw|].
  simpl. now rewrite (digit_not_identStart c Hc).
Qed.

Lemma isWord_word (w : jsstring) :
  isWord w = true -> forallb isWordChar w = true /\ beginsWithDquote w = false.
Proof.
  destruct w as [|c w]; [discriminate|]. unfold isWord. intros Hw.
  split; [exact Hw|]. simpl in *. apply andb_true_iff in Hw.
  apply wordChar_plain, Hw.
Qed.

Lemma reserved_flush (w : jsstring) :
  isIdentifier w = true -> isReserved w = true -> flushWord w = w.
Proof.
  intros Hi Hr. destruct (isIdentifier_word w Hi) as [_ [c [w' [-> Hc]]]].
  unfold flushWord, quoteToken. now rewrite Hc, Hr.
Qed.

(** After a bare word no word character follows. *)
Lemma after_bare_word (p : Piece) (rest : list Piece) :
  (exists w, p = Reserved w \/ p = Numeral w) ->
  mayFollow p rest = true -> wellFormed rest = true ->
  beginsWithWordChar (render rest) = false.
Proof.
  intros [w Hp] Hm Hr. destruct rest as [|q rest]; [reflexivity|].
  apply wellFormed_cons in Hr. destruct Hr as [Hq _].
  destruct q as [v|v|v|c]; simpl.
  - destruct Hp as [-> | ->]; discriminate Hm.
  - reflexivity.
  - destruct Hp as [-> | ->]; discriminate Hm.
  - simpl in Hq. apply negb_true_iff in Hq.
    now destruct (isWordChar c).
Qed.

(** After a quoted word no double quote follows, before stage 1 and after. *)
Lemma after_quoted (w : jsstring) (rest : list Piece) :
  mayFollow (Quoted w) rest = true -> wellFormed rest = true ->
  beginsWithDquote (renderQuoted rest) = false.
Proof.
  intros Hm Hr. destruct rest as [|q rest]; [reflexivity|].
  apply wellFormed_cons in Hr. destruct Hr as [Hq _].
  destruct q as [v|v|v|c]; simpl in *.
  - apply andb_true_iff in Hq. destruct Hq as [Hq _].
    destruct (isIdentifier_word v Hq) as [_ [c [v' [-> Hc]]]]. simpl.
    apply wordChar_plain. unfold isWordChar. now rewrite Hc.
  - discriminate Hm.
  - destruct v as [|c v]; [discriminate Hq|]. simpl.
    unfold isNumeral in Hq. apply andb_true_iff in Hq. destruct Hq as [Hc _].
    apply wordChar_plain. unfold isWordChar. rewrite Hc. apply orb_true_r.
  - apply negb_true_iff in Hq. now destruct (isWordChar c), (isDquote c).
Qed.

(** Stage 1 leaves reserved words, numerals and the other characters, and
    quotes the words between double quotes once more (unless they are
    reserved or start with a digit). *)
Lemma quoteTokens_render (ps : list Piece) :
  wellFormed ps = true -> quoteTokens (render ps) = renderQuoted ps.
Proof.
  induction ps as [|p rest IH]; intros Hwf; [reflexivity|].
  destruct (wellFormed_cons _ _ Hwf) as [Hp [Hm Hr]].
  specialize (IH Hr).
  destruct p as [w|w|w|c]; simpl in Hp; cbn [render renderQuoted flat_map
    pieceText pieceQuoted]; fold (render rest); fold (renderQuoted rest).
  - apply andb_true_iff in Hp. destruct Hp as [Hi Hres].
    destruct (isIdentifier_word w Hi) as [Hw _].
    unfold quoteTokens. rewrite quoteTokensFrom_word by exact Hw. simpl.
    rewrite quoteTokensFrom_flush
      by (apply (after_bare_word (p := Reserved w));
          [exists w; now left | exact Hm | exact Hr]).
    now rewrite reserved_flush, IH.
  - destruct (isWord_word w Hp) as [Hw _].
    unfold quoteTokens. simpl.
    rewrite <- app_assoc. rewrite quoteTokensFrom_word by exact Hw. simpl.
    fold (quoteTokens (render rest)). rewrite IH.
    now rewrite <- app_assoc.
  - destruct (isNumeral_word w Hp) as [Hw Hf].
    unfold quoteTokens. rewrite quoteTokensFrom_word by exact Hw. simpl.
    rewrite quoteTokensFrom_flush
      by (apply (after_bare_word (p := Numeral w));
          [exists w; now right | exact Hm | exact Hr]).
    now rewrite Hf, IH.
  - apply negb_true_iff in Hp. unfold quoteTokens. simpl.
    destruct (isWordChar c); [discriminate Hp|].
    simpl. fold (quoteTokens (render rest)). now rewrite IH.
Qed.

(** Stage 4 takes the added quotes away again. *)
Lemma collapse_renderQuoted (ps : list Piece) :
  wellFormed ps = true -> collapse (renderQuoted ps) = render ps.
Proof.
  induction ps as [|p rest IH]; intros Hwf; [reflexivity|].
  destruct (wellFormed_cons _ _ Hwf) as [Hp [Hm Hr]].
  specialize (IH Hr).
  destruct p as [w|w|w|c]; simpl in Hp; cbn [render renderQuoted flat_map
    pieceText pieceQuoted]; fold (render rest); fold (renderQuoted rest).
  - apply andb_true_iff in Hp. destruct Hp as [Hi _].
    destruct (isIdentifier_word w Hi) as [Hw _].
    now rewrite collapse_word, IH.
  - destruct (isWord_word w Hp) as [Hw Hq].
    pose proof (after_quoted w rest Hm Hr) as Hnext.
    assert (Hkeep : collapse (dquote :: w ++ dquote :: renderQuoted rest)
                    = dquote :: w ++ dquote :: render rest).
    { rewrite collapse_single.
      - rewrite collapse_word by exact Hw.
        now rewrite collapse_single, IH.
      - destruct w; [discriminate Hp | exact Hq]. }
    destruct w as [|c w]; [discriminate Hp|].
    unfold flushWord. destruct (isIdentStart c).
    + unfold quoteToken. destruct (isReserved (c :: w)).
      * simpl. rewrite <- !app_assoc. simpl. simpl in Hkeep. exact Hkeep.
      * simpl. rewrite <- !app_assoc. simpl.
        change (dquote :: dquote :: c :: w ++ dquote :: dquote :: renderQuoted rest)
          with (dquote :: dquote :: (c :: w) ++ dquote :: dquote :: renderQuoted rest).
        rewrite collapse_pair, collapse_word by exact Hw.
        rewrite collapse_pair, IH. reflexivity.
    + simpl. rewrite <- !app_assoc. simpl. simpl in Hkeep. exact Hkeep.
  - destruct (isNumeral_word w Hp) as [Hw _].
    now rewrite collapse_word, IH.
  - apply negb_true_iff in Hp. simpl.
    rewrite collapse_other, IH; [reflexivity|].
    now destruct (isWordChar c), (isDquote c).
Qed.

Lemma plain_word (w : jsstring) :
  forallb isWordChar w = true -> forallb plain w = true.
Proof.
  induction w as [|c w IH]; simpl; [reflexivity|].
  rewrite !andb_true_iff. intros [Hc Hw]. split; [|now apply IH].
  unfold plain. destruct (wordChar_plain c Hc) as [_ [-> ->]]. reflexivity.
Qed.

Lemma plain_flushWord (w : jsstring) :
  forallb plain w = true -> forallb plain (flushWord w) = true.
Proof.
  intros Hw. destruct w as [|c w]; [reflexivity|].
  unfold flushWord, quoteToken.
  destruct (isIdentStart c); [|exact Hw].
  destruct (isReserved (c :: w)); [exact Hw|].
  cbn [forallb]. rewrite forallb_app, Hw. reflexivity.
Qed.

Lemma plain_pieces (ps : list Piece) :
  wellFormed ps = true ->
  forallb plain (render ps) = true /\ forallb plain (renderQuoted ps) = true.
Proof.
  induction ps as [|p rest IH]; intros Hwf; [split; reflexivity|].
  destruct (wellFormed_cons _ _ Hwf) as [Hp [_ Hr]].
  destruct (IH Hr) as [IH1 IH2].
  assert (Htext : forallb plain (pieceText p) = true
                  /\ forallb plain (pieceQuoted p) = true).
  { destruct p as [w|w|w|c]; simpl in Hp |- *.
    - apply andb_true_iff in Hp. destruct Hp as [Hi _].
      destruct (isIdentifier_word w Hi) as [Hw _].
      split; now apply plain_word.
    - destruct (isWord_word w Hp) as [Hw _]. apply plain_word in Hw.
      split.
      + rewrite forallb_app, Hw. reflexivity.
      + rewrite forallb_app, (plain_flushWord w Hw). reflexivity.
    - destruct (isNumeral_word w Hp) as [Hw _].
      split; now apply plain_word.
    - apply negb_true_iff in Hp. unfold plain.
      destruct (isWordChar c), (isDquote c), (isSquote c), (isPercent c);
        try discriminate Hp; split; reflexivity. }
  destruct Htext as [H1 H2]. unfold render, renderQuoted. simpl.
  rewrite !forallb_app. fold (render rest). fold (renderQuoted rest).
  now rewrite H1, H2, IH1, IH2.
Qed.

Lemma plain_no_squote (s : jsstring) :
  forallb plain s = true -> ~ In squote s.
Proof.
  intros H Hin. rewrite forallb_forall in H. specialize (H _ Hin).
  discriminate H.
Qed.

Lemma plain_no_percent (s : jsstring) :
  forallb plain s = true -> ~ In percent s.
Proof.
  intros H Hin. rewrite forallb_forall in H. specialize (H _ Hin).
  discriminate H.
Qed.

(** The quoter leaves a correctly quoted text as it is. *)
Lemma enforceCaseSensitivity_fixed (ps : list Piece) :
  wellFormed ps = true -> enforceCaseSensitivity (render ps) = render ps.
Proof.
  intros Hwf. destruct (plain_pieces ps Hwf) as [Hr Hq].
  unfold enforceCaseSensitivity, repairQuoteAdjacency.
  rewrite quoteTokens_render by exact Hwf.
  rewrite (@replaceAll_absent [squote; dquote] [squote] (renderQuoted ps)
             squote)
    by (simpl; auto using plain_no_squote).
  rewrite (@replaceAll_absent [dquote; squote] [squote] (renderQuoted ps)
             squote)
    by (simpl; auto using plain_no_squote).
  fold (collapse (renderQuoted ps)).
  rewrite collapse_renderQuoted by exact Hwf.
  rewrite unquoteWildcards_absent by (apply plain_no_percent, Hr).
  apply unquoteLiterals_absent, plain_no_squote, Hr.
Qed.

(** C8.  On a text made only of keywords and function names of the fixed
    sets, words already in double quotes, numerals and punctuation, with no
    literal in it, quoting twice gives what quoting once gives. *)
Theorem enforceCaseSensitivity_idempotent (x : jsstring) :
  correctlyQuoted x ->
  enforceCaseSensitivity (enforceCaseSensitivity x) = enforceCaseSensitivity x.
Proof.
  intros [ps [Hwf <-]]. now rewrite !enforceCaseSensitivity_fixed.
Qed.

Example sampleQuotedQuery_text :
  render sampleQuotedQuery
  = backquoted "SELECT `name`, count(`instrumentId`) FROM `fundamentals_view` WHERE `peRatio` > 10 ORDER BY `date` desc LIMIT 5".
Proof. vm_compute. reflexivity. Qed.

Lemma sampleQuotedQuery_correct :
  correctlyQuoted
    (backquoted "SELECT `name`, count(`instrumentId`) FROM `fundamentals_view` WHERE `peRatio` > 10 ORDER BY `date` desc LIMIT 5").
Proof. exists sampleQuotedQuery. split; vm_compute; reflexivity. Qed.

Lemma enforceCaseSensitivity_idempotent_witness :
  enforceCaseSensitivity
    (enforceCaseSensitivity
       (backquoted "SELECT `name`, count(`instrumentId`) FROM `fundamentals_view` WHERE `peRatio` > 10 ORDER BY `date` desc LIMIT 5"))
  = enforceCaseSensitivity
      (backquoted "SELECT `name`, count(`instrumentId`) FROM `fundamentals_view` WHERE `peRatio` > 10 ORDER BY `date` desc LIMIT 5").
Proof.
  exact (enforceCaseSensitivity_idempotent sampleQuotedQuery_correct).
Defined.

(* ================================================================== *)
(** * Part III — further properties of the code *)
(* ================================================================== *)

(** ** QueryExecutor: what reaches the database *)

Lemma dbQueryWithLog_events (db : Database) (text : jsstring) :
  fst (dbQueryWithLog db text) = [PoolConnect]
  \/ fst (dbQueryWithLog db text)
     = [PoolConnect; ClientQuery (enforceCaseSensitivity text); ClientRelease].
Proof.
  unfold dbQueryWithLog. destruct (poolConnect db); [now left|].
  destruct (clientQuery db _); now right.
Qed.

Lemma dbQueryWithLog_nonempty (db : Database) (text : jsstring)
    (rows : list ComparisonItem) :
  snd (dbQueryWithLog db text) = Fulfilled rows -> rows <> [].
Proof.
  unfold dbQueryWithLog. destruct (poolConnect db); [discriminate|].
  destruct (clientQuery db _) as [[|r rs]|e]; simpl; intros H;
    try discriminate; injection H as <-; discriminate.
Qed.

Lemma dbEvents_app (a b : list Event) :
  dbEvents (a ++ b) = dbEvents a ++ dbEvents b.
Proof. apply filter_app. Qed.

Lemma dbEvents_write (writer : bool) (step : jsstring) (ok : bool)
    (text : jsstring) :
  dbEvents (write writer step ok text) = [].
Proof. now destruct writer. Qed.

(** The database side of one candidate: nothing at all for a candidate that
    is not executed, and for an executed one the events of its one
    [dbQueryWithLog] call. *)
Lemma runCandidate_dbEvents (writer : bool) (db : Database)
    (query : CandidateQuery) :
  dbEvents (fst (runCandidate writer db query)) = []
  \/ exists text,
       sqlQuery query = JStr text
       /\ truthy (JStr text) = true
       /\ isDangerousQuery text = false
       /\ dbEvents (fst (runCandidate writer db query))
          = fst (dbQueryWithLog db text).
Proof.
  unfold runCandidate.
  destruct (truthy (sqlQuery query)) eqn:Ht; simpl.
  2:{ left. apply dbEvents_write. }
  destruct (notStringOrDangerous (sqlQuery query)) eqn:Hn.
  - left. destruct writer; [|reflexivity].
    destruct (isDangerousQueryOf (sqlQuery query)); [|reflexivity].
    apply dbEvents_write.
  - destruct (sqlQuery query) as [| | | | |text|] eqn:Hq; try discriminate Hn.
    right. exists text. simpl in Hn. repeat split; try assumption.
    destruct (dbQueryWithLog_events db text) as [He | He];
      destruct (dbQueryWithLog db text) as [events reply]; simpl in He;
      subst events; destruct reply; simpl;
      rewrite ?dbEvents_app, ?dbEvents_write; reflexivity.
Qed.

Lemma executor_events (writer : bool) (db : Database)
    (queries : list CandidateQuery) :
  fst (generateComparisonDataSqlQueriesResponse writer db queries)
  = flat_map (fun q => fst (runCandidate writer db q)) queries.
Proof.
  unfold generateComparisonDataSqlQueriesResponse. simpl.
  rewrite map_map. now rewrite flat_map_concat_map.
Qed.

(** Every SQL text the executor sends to the database is the quoted form of
    the text of one of its candidates, and that text is a non-empty string
    which [isDangerousQuery] does not flag. *)
Theorem executor_sends_only_vetted (writer : bool) (db : Database)
    (queries : list CandidateQuery) (sql : jsstring) :
  In (ClientQuery sql)
     (fst (generateComparisonDataSqlQueriesResponse writer db queries)) ->
  exists query text,
    In query queries
    /\ sqlQuery query = JStr text
    /\ text <> []
    /\ isDangerousQuery text = false
    /\ sql = enforceCaseSensitivity text.
Proof.
  rewrite executor_events, in_flat_map. intros [query [Hq Hin]].
  assert (Hdb : In (ClientQuery sql)
                  (dbEvents (fst (runCandidate writer db query)))).
  { apply filter_In. split; [exact Hin | reflexivity]. }
  destruct (runCandidate_dbEvents writer db query) as [He | [text [Hs [Ht [Hd He]]]]].
  - rewrite He in Hdb. contradiction.
  - exists query, text. repeat split; try assumption.
    + intros ->. discriminate Ht.
    + rewrite He in Hdb.
      destruct (dbQueryWithLog_events db text) as [H | H]; rewrite H in Hdb;
        simpl in Hdb.
      * destruct Hdb as [Hdb | []]. discriminate Hdb.
      * destruct Hdb as [Hdb | [Hdb | [Hdb | []]]]; try discriminate Hdb.
        now injection Hdb as <-.
Qed.

Lemma executor_sends_only_vetted_witness :
  exists query text,
    In query [deleteCandidate; selectCandidate; declinedCandidate]
    /\ sqlQuery query = JStr text
    /\ text <> []
    /\ isDangerousQuery text = false
    /\ enforceCaseSensitivity (str "SELECT ticker FROM etf_fundamentals_view")
       = enforceCaseSensitivity text.
Proof.
  apply (executor_sends_only_vetted true oneRowDatabase
           [deleteCandidate; selectCandidate; declinedCandidate]).
  vm_compute. tauto.
Defined.

Lemma count_app (kind : Event -> bool) (a b : list Event) :
  count kind (a ++ b) = count kind a + count kind b.
Proof. unfold count. now rewrite filter_app, length_app. Qed.

Lemma count_dbEvents (kind : Event -> bool) (events : list Event) :
  (forall ev, kind ev = true -> isDbEvent ev = true) ->
  count kind (dbEvents events) = count kind events.
Proof.
  intros Hk. unfold count, dbEvents. induction events as [|ev events IH].
  - reflexivity.
  - simpl. destruct (isDbEvent ev) eqn:Ed; simpl.
    + destruct (kind ev); simpl; now rewrite IH.
    + destruct (kind ev) eqn:Ek; [|exact IH].
      rewrite (Hk ev Ek) in Ed. discriminate Ed.
Qed.

(** A connection the pool has handed out is given back, whether the query
    on it returns or throws.  For one candidate the database sees nothing,
    or a refused connection, or: connect, the one query, release.  Over a
    whole run as many connections are released as queries are sent, no more
    queries are sent than connections are asked for, and no more connections
    are asked for than there are candidates. *)
Theorem executor_releases_connections (writer : bool) (db : Database)
    (queries : list CandidateQuery) :
  (forall query, In query queries ->
     dbEvents (fst (runCandidate writer db query)) = []
     \/ (poolConnect db <> None
         /\ dbEvents (fst (runCandidate writer db query)) = [PoolConnect])
     \/ exists sql,
          poolConnect db = None
          /\ dbEvents (fst (runCandidate writer db query))
             = [PoolConnect; ClientQuery sql; ClientRelease])
  /\ let events :=
       fst (generateComparisonDataSqlQueriesResponse writer db queries) in
     count isRelease events = count isQuery events
     /\ count isQuery events <= count isConnect events
     /\ count isConnect events <= List.length queries.
Proof.
  assert (Hone : forall query,
             dbEvents (fst (runCandidate writer db query)) = []
             \/ (poolConnect db <> None
                 /\ dbEvents (fst (runCandidate writer db query)) = [PoolConnect])
             \/ exists sql,
                  poolConnect db = None
                  /\ dbEvents (fst (runCandidate writer db query))
                     = [PoolConnect; ClientQuery sql; ClientRelease]).
  { intros query.
    destruct (runCandidate_dbEvents writer db query) as [He | [text [_ [_ [_ He]]]]];
      [now left|].
    right. rewrite He. unfold dbQueryWithLog.
    destruct (poolConnect db) as [e|] eqn:Ep.
    - left. split; [discriminate | reflexivity].
    - right. exists (enforceCaseSensitivity text).
      destruct (clientQuery db _); split; reflexivity. }
  split; [intros query _; apply Hone|].
  intros events. subst events. rewrite executor_events.
  induction queries as [|q queries IH]; [repeat split; apply Nat.le_refl|].
  cbn [flat_map List.length]. rewrite !count_app.
  destruct IH as [IH1 [IH2 IH3]].
  rewrite <- (count_dbEvents isRelease (fst (runCandidate writer db q)))
    by (now intros []).
  rewrite <- (count_dbEvents isQuery (fst (runCandidate writer db q)))
    by (now intros []).
  rewrite <- (count_dbEvents isConnect (fst (runCandidate writer db q)))
    by (now intros []).
  destruct (Hone q) as [-> | [[_ ->] | [sql [_ ->]]]]; cbn [count filter
    isRelease isQuery isConnect List.length Nat.add];
    repeat split; try (now rewrite IH1);
    eauto using Nat.le_trans, le_n_S, le_S.
Qed.

Lemma promiseAll_fulfilled {A : Type} (ps : list (Outcome A)) :
  Forall (fun p => exists a, p = Fulfilled a) ps ->
  exists l, promiseAll ps = Fulfilled l
            /\ Forall2 (fun p a => p = Fulfilled a) ps l.
Proof.
  induction 1 as [|p ps [a ->] _ [l [IH1 IH2]]].
  - exists []. split; [reflexivity | constructor].
  - exists (a :: l). simpl. rewrite IH1. split; [reflexivity|].
    now constructor.
Qed.

(** The callback of a candidate fulfils when no writer was passed, and with
    a writer when the SQL field is [null] or a string; what it fulfils with
    is nothing, or the reasoning row and at least one more element. *)
Lemma runCandidate_fulfils (writer : bool) (db : Database)
    (query : CandidateQuery) :
  writer = false \/ schemaConforming query ->
  exists rows,
    snd (runCandidate writer db query) = Fulfilled rows
    /\ contribution query rows.
Proof.
  intros Hok. unfold runCandidate, contribution.
  destruct (truthy (sqlQuery query)) eqn:Ht; simpl.
  2:{ exists []. split; [reflexivity | now left]. }
  destruct (notStringOrDangerous (sqlQuery query)) eqn:Hn.
  - destruct writer.
    + destruct Hok as [Hok | [Hok | [text Hok]]]; try discriminate Hok;
        rewrite Hok in *; try discriminate Ht.
      simpl. exists []. split; [reflexivity | now left].
    + exists []. split; [reflexivity | now left].
  - destruct (sqlQuery query) as [| | | | |text|]; try discriminate Hn.
    destruct (dbQueryWithLog db text) as [events reply] eqn:Edb.
    destruct reply as [rows|err]; simpl.
    + assert (Hne : rows <> []).
      { apply (@dbQueryWithLog_nonempty db text). now rewrite Edb. }
      destruct rows as [|r rows]; [contradiction|].
      eexists. split; [reflexivity|]. right. eauto.
    + eexists. split; [reflexivity|]. right. eauto.
Qed.

(** In the route that passes no writer, and in any route for candidates
    whose SQL field is [null] or a string, the executor never rejects,
    whatever the database does.  Its result is the concatenation, in
    dispatch order, of one contribution per candidate: nothing for a
    candidate that is skipped, the reasoning row followed by at least one
    element (rows, the no-results text or the error row) for an executed
    one. *)
Theorem executor_never_rejects (writer : bool) (db : Database)
    (queries : list CandidateQuery) :
  writer = false \/ Forall schemaConforming queries ->
  exists perQuery,
    snd (generateComparisonDataSqlQueriesResponse writer db queries)
    = Fulfilled (List.concat perQuery)
    /\ Forall2 contribution queries perQuery.
Proof.
  intros Hok.
  assert (Hall : Forall (fun q => writer = false \/ schemaConforming q) queries).
  { destruct Hok as [-> | Hs].
    - apply Forall_forall. now left.
    - eapply Forall_impl; [|exact Hs]. now right. }
  clear Hok. unfold generateComparisonDataSqlQueriesResponse. simpl.
  induction Hall as [|q queries Hq _ [per [IH1 IH2]]].
  - exists []. split; [reflexivity | constructor].
  - destruct (runCandidate_fulfils db Hq) as [rows [Hr Hc]].
    exists (rows :: per). simpl. rewrite Hr.
    destruct (promiseAll _) as [l|e]; simpl in IH1; [|discriminate IH1].
    injection IH1 as IH1.
    assert (Hl : List.concat l = List.concat per) by exact IH1.
    split; [|now constructor].
    simpl. now rewrite Hl.
Qed.

Lemma executor_never_rejects_witness :
  exists perQuery,
    snd (generateComparisonDataSqlQueriesResponse true failingDatabase
           [deleteCandidate; selectCandidate; declinedCandidate])
    = Fulfilled (List.concat perQuery)
    /\ Forall2 contribution
         [deleteCandidate; selectCandidate; declinedCandidate] perQuery.
Proof.
  apply (@executor_never_rejects true failingDatabase
           [deleteCandidate; selectCandidate; declinedCandidate]).
  right.
  constructor; [right; eexists; reflexivity|].
  constructor; [right; eexists; reflexivity|].
  constructor; [left; reflexivity | constructor].
Defined.

(** ** EvidenceOrchestrator: which agents run *)

Lemma gather_all_or_nothing_witness :
  exists e, gatherEvidence searchFailsWorld etfNewsClassification = Rejected e.
Proof.
  apply gather_all_or_nothing. right. right. left.
  split; [reflexivity | exists timeout; reflexivity].
Defined.

Lemma promiseAll_map_fulfilled {A B : Type} (f : A -> Outcome B) (g : A -> B)
    (l : list A) :
  (forall a, In a l -> f a = Fulfilled (g a)) ->
  promiseAll (map f l) = Fulfilled (map g l).
Proof.
  induction l as [|a l IH]; intros H; [reflexivity|].
  simpl. rewrite (H a (or_introl eq_refl)).
  rewrite IH by (intros b Hb; apply H; now right). reflexivity.
Qed.

(** When every agent whose precondition holds answers, the join fulfils
    whatever the agents whose precondition fails would do: they are not
    asked.  It carries one query result per evidence domain whose
    precondition holds, in the fixed order of the domains and tagged with
    the domain's step name, and the portfolio analysis, the search text and
    the tool text exactly for the flags that ask for them. *)
Theorem gather_dispatches_by_flags (w : World)
    (classification : ClassificationAgentSchema)
    (objects : Domain -> SqlObject) (analysis : PortfolioAnalysis)
    (search additional : jsstring) :
  (forall d, precondition classification d = true ->
             sqlAgent w d = Fulfilled (objects d)) ->
  (isAboutUserPortfolio classification = true ->
   portfolioAnalysisAgent w = Fulfilled analysis) ->
  (wantsGoogleSearch classification = true ->
   googleSearchAgent w = Fulfilled search) ->
  (isAboutAssetPricesOrPerformance classification = true ->
   additionalDataAgent w = Fulfilled additional) ->
  gatherEvidence w classification
  = Fulfilled
      (if isAboutUserPortfolio classification then Some analysis else None,
       map (fun d => (objects d, stepNameOf d))
         (filter (precondition classification) domains),
       if wantsGoogleSearch classification then Some search else None,
       if isAboutAssetPricesOrPerformance classification
       then Some additional else None).
Proof.
  intros Hsql Hpa Hg Had. unfold gatherEvidence, generateSQLAgentResponse.
  rewrite (promiseAll_map_fulfilled _
             (fun d => (objects d, stepNameOf d))).
  2:{ intros d Hd. apply filter_In in Hd. destruct Hd as [_ Hd].
      now rewrite (Hsql d Hd). }
  unfold whenever.
  destruct (isAboutAssetPricesOrPerformance classification);
    [rewrite (Had eq_refl)|]; simpl;
    (destruct (isAboutUserPortfolio classification);
     [rewrite (Hpa eq_refl)|]); simpl;
    (destruct (wantsGoogleSearch classification);
     [rewrite (Hg eq_refl)|]); reflexivity.
Qed.

Lemma gather_dispatches_by_flags_witness :
  gatherEvidence agentsAnswerWorld etfNewsClassification
  = Fulfilled
      (None,
       [(sampleObject ETFs, str "ETF Data"); (sampleObject News, str "Latest News")],
       Some (str "funds are up"),
       None).
Proof.
  refine (@gather_dispatches_by_flags agentsAnswerWorld etfNewsClassification
            sampleObject
            {| analysisReasoning := []; content := [] |}
            (str "funds are up") [] _ _ _ _).
  - intros d. destruct d; simpl; intros H; try discriminate H; reflexivity.
  - discriminate.
  - reflexivity.
  - discriminate.
Defined.

(** ** TickerResolver: the request it builds *)

Lemma relevantAssetTypes_known (classification : ClassificationAgentSchema) :
  incl (relevantAssetTypes classification) knownAssetClasses.
Proof.
  unfold relevantAssetTypes, knownAssetClasses. intros code Hin.
  repeat (apply in_app_or in Hin; destruct Hin as [Hin | Hin]);
    match type of Hin with
    | In _ (if ?b then _ else _) => destruct b
    end; simpl in *; intuition.
Qed.

Lemma known_class_has_type (code : Z) :
  In code knownAssetClasses -> ASSET_TYPE_MAP code <> None.
Proof.
  unfold knownAssetClasses. simpl.
  intros [<- | [<- | [<- | [<- | [<- | [<- | []]]]]]]; discriminate.
Qed.

(** Against a catalog that applies the asset-class filter it is sent, every
    ticker match the resolver returns has an asset type: the filter holds
    only codes [ASSET_TYPE_MAP] knows. *)
Theorem resolver_matches_have_asset_type (catalog : InstrumentsView)
    (classification : ClassificationAgentSchema) :
  honoursFilter catalog ->
  Forall (fun m => assetType m <> None)
    (snd (generateTickersExtractionQueriesResponse catalog classification)).
Proof.
  intros Hcat. unfold generateTickersExtractionQueriesResponse.
  destruct (_ && _ && _); [constructor|].
  match goal with |- context [catalog ?q] => set (query := q) end.
  destruct (catalog query) as [rows|] eqn:E; simpl; [|constructor].
  apply Forall_forall. intros m Hm. apply in_map_iff in Hm.
  destruct Hm as [row [<- Hrow]]. simpl.
  apply known_class_has_type, (relevantAssetTypes_known classification).
  exact (Hcat query rows row E Hrow).
Qed.

Lemma filtered_rows_honour (base : list Instrument) :
  honoursFilter
    (fun query =>
       Some (filter
               (fun row => existsb (Z.eqb (assetClassId row)) (assetClassIn query))
               base)).
Proof.
  intros query rows row H Hin. injection H as <-.
  apply filter_In in Hin. destruct Hin as [_ Hin].
  apply existsb_exists in Hin. destruct Hin as [code [Hc He]].
  apply Z.eqb_eq in He. now rewrite He.
Qed.

Lemma filteringCatalog_honours : honoursFilter filteringCatalog.
Proof. apply filtered_rows_honour. Qed.

Lemma resolver_matches_have_asset_type_witness :
  Forall (fun m => assetType m <> None)
    (snd (generateTickersExtractionQueriesResponse filteringCatalog
            namesOnlyClassification)).
Proof.
  exact (@resolver_matches_have_asset_type filteringCatalog
           namesOnlyClassification filteringCatalog_honours).
Defined.

Lemma joinWithComma_clauses (terms : list jsstring) :
  terms <> [] ->
  removelast (flat_map orClause terms) = joinWithComma (map orTerm terms).
Proof.
  assert (Hclause : forall t, orClause t = orTerm t ++ str ",").
  { intros t. unfold orClause, orTerm. now rewrite <- !app_assoc. }
  assert (Hlast : forall (a : jsstring) c, removelast (a ++ [c]) = a).
  { intros a c. now rewrite removelast_last. }
  induction terms as [|t terms IH]; intros Hne; [contradiction|].
  destruct terms as [|u terms].
  - cbn [flat_map map joinWithComma]. rewrite app_nil_r, Hclause.
    exact (Hlast (orTerm t) ","%char).
  - cbn [flat_map map joinWithComma] in *.
    rewrite removelast_app.
    + rewrite IH by discriminate. rewrite Hclause. now rewrite <- app_assoc.
    + rewrite Hclause. destruct (orTerm u); discriminate.
Qed.

(** Past the short-circuit the resolver sends exactly one request.  It asks
    for at most 50 rows; its asset-class filter holds only known codes and
    is empty exactly when none of the ten flags that select asset classes is
    set; and its [or] filter is the per-term clauses joined by commas, with
    no trailing comma, or absent when there is no search term. *)
Theorem resolver_request_shape (catalog : InstrumentsView)
    (classification : ClassificationAgentSchema) :
  let terms :=
    possibleAssetNamesOrTickers classification
    ++ previousRelevantTickers classification in
  terms <> [] \/ userWantsToTradeAnAsset classification = true ->
  exists query,
    fst (generateTickersExtractionQueriesResponse catalog classification)
    = [query]
    /\ rowLimit query = 50
    /\ incl (assetClassIn query) knownAssetClasses
    /\ (assetClassIn query = [] <->
        isAboutStockFundamentals classification = false
        /\ isAboutNews classification = false
        /\ isAboutEarningsDates classification = false
        /\ isAboutDividendDates classification = false
        /\ isAboutETFs classification = false
        /\ isAboutCurrenciesOrCommoditiesOrIndices classification = false
        /\ isAboutCrypto classification = false
        /\ userWantsToTradeAnAsset classification = false
        /\ isAboutAssetPricesOrPerformance classification = false
        /\ isAboutInvestors classification = false)
    /\ orFilter query
       = match terms with
         | [] => None
         | _ :: _ => Some (joinWithComma (map orTerm terms))
         end.
Proof.
  intros terms Hguard. unfold generateTickersExtractionQueriesResponse.
  assert (Hg : (List.length (possibleAssetNamesOrTickers classification) =? 0)%nat
               && (List.length (previousRelevantTickers classification) =? 0)%nat
               && negb (userWantsToTradeAnAsset classification) = false).
  { destruct Hguard as [Hne | Ht].
    - subst terms.
      destruct (possibleAssetNamesOrTickers classification);
        [|reflexivity].
      destruct (previousRelevantTickers classification);
        [now contradiction Hne | reflexivity].
    - rewrite Ht. now rewrite andb_false_r. }
  rewrite Hg.
  match goal with |- context [catalog ?q] => set (query := q) end.
  exists query. split; [now destruct (catalog query)|].
  split; [reflexivity|]. split; [apply relevantAssetTypes_known|]. split.
  - subst query. cbn [assetClassIn]. unfold relevantAssetTypes.
    destruct (isAboutStockFundamentals classification),
             (isAboutNews classification),
             (isAboutEarningsDates classification),
             (isAboutDividendDates classification),
             (isAboutETFs classification),
             (isAboutCurrenciesOrCommoditiesOrIndices classification),
             (isAboutCrypto classification),
             (userWantsToTradeAnAsset classification),
             (isAboutAssetPricesOrPerformance classification),
             (isAboutInvestors classification); simpl;
      split; intros H; try discriminate H; try reflexivity;
      try (repeat split; reflexivity);
      decompose [and] H; discriminate.
  - subst query. cbn [orFilter]. unfold orString. fold terms.
    destruct terms as [|t terms'] eqn:Et; [reflexivity|].
    assert (Hpos : (0 <? List.length (flat_map orClause (t :: terms')))%nat = true).
    { simpl. unfold orClause. simpl. reflexivity. }
    rewrite Hpos. f_equal. apply joinWithComma_clauses. discriminate.
Qed.

Lemma resolver_request_shape_witness :
  exists query,
    fst (generateTickersExtractionQueriesResponse sampleCatalog
           namesOnlyClassification)
    = [query]
    /\ rowLimit query = 50
    /\ incl (assetClassIn query) knownAssetClasses
    /\ (assetClassIn query = [] <->
        isAboutStockFundamentals namesOnlyClassification = false
        /\ isAboutNews namesOnlyClassification = false
        /\ isAboutEarningsDates namesOnlyClassification = false
        /\ isAboutDividendDates namesOnlyClassification = false
        /\ isAboutETFs namesOnlyClassification = false
        /\ isAboutCurrenciesOrCommoditiesOrIndices namesOnlyClassification = false
        /\ isAboutCrypto namesOnlyClassification = false
        /\ userWantsToTradeAnAsset namesOnlyClassification = false
        /\ isAboutAssetPricesOrPerformance namesOnlyClassification = false
        /\ isAboutInvestors namesOnlyClassification = false)
    /\ orFilter query
       = Some (joinWithComma (map orTerm [str "AAPL"])).
Proof.
  apply (@resolver_request_shape sampleCatalog namesOnlyClassification).
  left. discriminate.
Defined.

(** ** PortfolioFetcher: what the cap drops *)




(** ** TurnPipeline: how a turn of the finance route ends *)

(** No turn of the finance route runs to completion: whatever the model,
    the brokerage, the catalog and the database answer, and whatever the
    history holds, [agentTaskPipeline] rejects: before the synthesizer, in
    the synthesizer where the history is converted, or at the reader it
    asks of the synthesizer's result. *)
Lemma agentTaskPipeline_rejects (w : World) (request : Request) :
  exists e, agentTaskPipeline w request = Rejected e.
Proof.
  unfold agentTaskPipeline.
  destruct (evidenceStage w request) as [input|e]; cbn [bind];
    [|eexists; reflexivity].
  destruct (generateStreamFinalAgentResponse (finalAgent w) input
              (prompt request) (cleanedHistory (requestHistory request)))
    as [response|e] eqn:E; [|eexists; reflexivity].
  rewrite (generateStreamFinalAgentResponse_returns _ _ _ _ E).
  eexists. reflexivity.
Qed.

(** ** The HTTP entry *)

Lemma splitOn_nonempty (sep : ascii) (s : jsstring) : splitOn sep s <> [].
Proof.
  induction s as [|c s IH]; simpl; [discriminate|].
  destruct (Ascii.eqb c sep); [discriminate|].
  destruct (splitOn sep s); discriminate.
Qed.

(** Splitting loses nothing: joining the parts with the separator gives the
    text back, and no part holds the separator. *)
Lemma joinOn_splitOn (sep : ascii) (s : jsstring) :
  joinOn sep (splitOn sep s) = s
  /\ Forall (fun part => ~ In sep part) (splitOn sep s).
Proof.
  induction s as [|c s [IHj IHf]]; simpl.
  - split; [reflexivity | repeat constructor; auto].
  - destruct (Ascii.eqb c sep) eqn:E.
    + apply Ascii.eqb_eq in E. subst c. split.
      * simpl. destruct (splitOn sep s) eqn:Es.
        -- now destruct (splitOn_nonempty sep s).
        -- now rewrite IHj.
      * constructor; [auto | exact IHf].
    + apply Ascii.eqb_neq in E.
      destruct (splitOn sep s) as [|part parts] eqn:Es;
        [now destruct (splitOn_nonempty sep s)|].
      split.
      * simpl in *. destruct parts; simpl in *; now rewrite IHj.
      * inversion IHf as [|? ? Hp Hps]; subst. constructor; [|exact Hps].
        intros [H | H]; [now apply E | now apply Hp].
Qed.

Lemma differs_false (token : jsstring) (configured : option jsstring) :
  differs token configured = false <-> configured = Some token.
Proof.
  unfold differs, jsstring_eqb. destruct configured as [t|].
  - destruct (list_eq_dec ascii_dec token t) as [-> | Hne]; simpl.
    + tauto.
    + split; [discriminate | intros H; injection H as ->; now destruct Hne].
  - split; discriminate.
Qed.

Lemma validateRequest_valid (env : Env) (limiter : jsstring -> Outcome bool)
    (request : HttpRequest) (v : ValidateRequestResult) :
  validateRequest env limiter request = Fulfilled v ->
  (isValid v = true <->
   limiter (clientIp request) = Fulfilled true
   /\ presentsConfiguredToken env request).
Proof.
  unfold validateRequest, presentsConfiguredToken.
  destruct (limiter (clientIp request)) as [[|]|e]; simpl; try discriminate.
  - destruct (bearerToken request) as [[|c token]|] eqn:Et.
    + intros H. injection H as <-. simpl. split; [discriminate|].
      intros [_ [t [Ht [Hne _]]]]. injection Ht as <-. now destruct Hne.
    + destruct (differs (c :: token) (VALID_TOKEN_1 env)) eqn:E1;
      destruct (differs (c :: token) (VALID_TOKEN_2 env)) eqn:E2;
      destruct (differs (c :: token) (VALID_TOKEN_3 env)) eqn:E3;
      destruct (differs (c :: token) (VALID_TOKEN_4 env)) eqn:E4;
      simpl; intros H; injection H as <-; simpl;
      try (split; [intros _; split; [reflexivity|];
                   exists (c :: token); split; [reflexivity|];
                   split; [discriminate|];
                   rewrite <- !differs_false; tauto
                  | reflexivity]).
      split; [discriminate|].
      intros [_ [t [Ht [_ Hc]]]]. injection Ht as <-.
      rewrite <- !differs_false in Hc.
      destruct Hc as [Hc | [Hc | [Hc | Hc]]]; congruence.
    + intros H. injection H as <-. simpl. split; [discriminate|].
      intros [_ [t [Ht _]]]. discriminate Ht.
  - intros H. injection H as <-. simpl. split; [discriminate|].
    intros [Hl _]. discriminate Hl.
Qed.

(** The finance route accepts a request, that is answers with the stream and
    starts the pipeline, exactly when the rate limiter lets the client
    address pass, the second blank-separated field of the Authorization
    header is non-empty and equal to one of the configured tokens, and the
    body carries a history and a non-empty prompt.  A token variable that is
    not set matches nothing. *)
Theorem POST_accepts_exactly (env : Env) (limiter : jsstring -> Outcome bool)
    (w : World) (request : HttpRequest) :
  accepted (POST env limiter w request) <->
  limiter (clientIp request) = Fulfilled true
  /\ presentsConfiguredToken env request
  /\ carriesPrompt request.
Proof.
  unfold accepted, POST, carriesPrompt.
  destruct (validateRequest env limiter request) as [v|e] eqn:Ev; simpl.
  - pose proof (validateRequest_valid env limiter request Ev) as Hv.
    destruct (isValid v); simpl.
    + destruct Hv as [Hv _]. destruct (Hv eq_refl) as [Hl Ht].
      destruct (json request) as [body|e]; simpl.
      * destruct (history body) as [messages|] eqn:Eh;
          destruct (bodyPrompt body) as [[|c p]|] eqn:Ep; split;
          try (intros [s [cl H]]; discriminate H);
          try (intros [_ [_ [b [m [c' [p' [Hb [Hh Hp]]]]]]]];
               injection Hb as <-; congruence).
        -- intros _. repeat split; try assumption.
           exists body, messages, c, p. auto.
        -- intros _. eauto.
      * split; [intros [s [cl H]]; discriminate H|].
        intros [_ [_ [b [m [c [p [Hb _]]]]]]]. discriminate Hb.
    + split; [intros [s [cl H]]; discriminate H|].
      intros [Hl [Ht _]]. destruct Hv as [_ Hv].
      discriminate (Hv (conj Hl Ht)).
  - split; [intros [s [cl H]]; discriminate H|].
    intros [Hl _]. unfold validateRequest in Ev. rewrite Hl in Ev. simpl in Ev.
    destruct (bearerToken request) as [[|c token]|]; try discriminate Ev.
    destruct (_ && _ && _ && _); discriminate Ev.
Qed.

(** Refusals come in a fixed order.  A client over the rate limit is
    answered 429 whatever token it presents; within the limit, a request
    without a configured token is answered 401 and its body is never read;
    with a configured token, a body without history or prompt is answered
    400. *)
Theorem POST_refuses_in_order (env : Env) (limiter : jsstring -> Outcome bool)
    (w : World) (request : HttpRequest) :
  (limiter (clientIp request) = Fulfilled false ->
   exists text,
     POST env limiter w request
     = Fulfilled (Replied {| status := 429; responseText := text |}))
  /\ (limiter (clientIp request) = Fulfilled true ->
      ~ presentsConfiguredToken env request ->
      exists text,
        POST env limiter w request
        = Fulfilled (Replied {| status := 401; responseText := text |}))
  /\ (limiter (clientIp request) = Fulfilled true ->
      presentsConfiguredToken env request ->
      forall body, json request = Fulfilled body ->
      history body = None \/ bodyPrompt body = None \/ bodyPrompt body = Some [] ->
      POST env limiter w request
      = Fulfilled
          (Replied {| status := 400; responseText := str "No prompt provided" |})).
Proof.
  split; [|split].
  - intros Hl. unfold POST, validateRequest. rewrite Hl. simpl. eauto.
  - intros Hl Hno. unfold POST.
    destruct (validateRequest env limiter request) as [v|e] eqn:Ev.
    + pose proof (validateRequest_valid env limiter request Ev) as Hv.
      destruct (isValid v) eqn:Ei.
      * destruct Hv as [Hv _]. destruct (Hv eq_refl) as [_ Ht].
        now destruct Hno.
      * simpl. rewrite Ei. simpl.
        unfold validateRequest in Ev. rewrite Hl in Ev. simpl in Ev.
        destruct (bearerToken request) as [[|c token]|];
          try (injection Ev as <-; simpl; eauto).
        destruct (_ && _ && _ && _); injection Ev as <-; simpl; eauto.
        discriminate Ei.
    + unfold validateRequest in Ev. rewrite Hl in Ev. simpl in Ev.
      destruct (bearerToken request) as [[|c token]|]; try discriminate Ev.
      destruct (_ && _ && _ && _); discriminate Ev.
  - intros Hl Ht body Hb Hmiss. unfold POST.
    destruct (validateRequest env limiter request) as [v|e] eqn:Ev.
    + pose proof (validateRequest_valid env limiter request Ev) as Hv.
      destruct Hv as [_ Hv]. simpl. rewrite (Hv (conj Hl Ht)). simpl.
      rewrite Hb. simpl.
      destruct Hmiss as [-> | [-> | ->]]; try reflexivity;
        now destruct (history body).
    + unfold validateRequest in Ev. rewrite Hl in Ev. simpl in Ev.
      destruct (bearerToken request) as [[|c token]|]; try discriminate Ev.
      destruct (_ && _ && _ && _); discriminate Ev.
Qed.

Lemma sample_presents_token : presentsConfiguredToken sampleEnv sampleHttpRequest.
Proof.
  exists (str "gamma"). split; [reflexivity|]. split; [discriminate|].
  right. right. left. reflexivity.
Qed.

Lemma promptless_presents_token :
  presentsConfiguredToken sampleEnv promptlessRequest.
Proof.
  exists (str "gamma"). split; [reflexivity|]. split; [discriminate|].
  right. right. left. reflexivity.
Qed.

Lemma POST_refuses_in_order_witness :
  (exists text,
     POST sampleEnv closedLimiter namesOnlyWorld sampleHttpRequest
     = Fulfilled (Replied {| status := 429; responseText := text |}))
  /\ POST sampleEnv openLimiter namesOnlyWorld promptlessRequest
     = Fulfilled
         (Replied {| status := 400; responseText := str "No prompt provided" |}).
Proof.
  split.
  - exact (proj1 (POST_refuses_in_order sampleEnv closedLimiter namesOnlyWorld
                    sampleHttpRequest) eq_refl).
  - exact (proj2 (proj2 (POST_refuses_in_order sampleEnv openLimiter
                           namesOnlyWorld promptlessRequest))
             eq_refl promptless_presents_token promptlessBody eq_refl
             (or_intror (or_intror eq_refl))).
Defined.

(** An accepted request is never finished by the route, whatever history
    it carries: the pipeline it starts in the background rejects (before
    the synthesizer, in the synthesizer on a history that holds a message
    of the user, or at [textStream.getReader()]), [executeTasksLangfuse]
    rejects with it, and the call that closes the response writer is never
    reached. *)
Theorem POST_never_closes_the_stream (env : Env)
    (limiter : jsstring -> Outcome bool) (w : World) (request : HttpRequest)
    (settled : Outcome unit) (writerClosed : bool) :
  POST env limiter w request = Fulfilled (Streaming settled writerClosed) ->
  writerClosed = false /\ exists e, settled = Rejected e.
Proof.
  unfold POST.
  destruct (validateRequest env limiter request) as [v|e]; simpl;
    [|discriminate].
  destruct (isValid v); simpl; [|discriminate].
  destruct (json request) as [body|e]; simpl; [|discriminate].
  destruct (history body) as [messages|];
    destruct (bodyPrompt body) as [[|c p]|]; try discriminate.
  intros H. injection H as <- <-.
  destruct (agentTaskPipeline_rejects w
              {| prompt := c :: p; user_name := bodyUserName body;
                 requestHistory := messages |})
    as [e He].
  rewrite He. simpl. eauto.
Qed.

Lemma POST_never_closes_the_stream_witness :
  exists settled writerClosed,
    POST sampleEnv openLimiter namesOnlyWorld followUpHttpRequest
    = Fulfilled (Streaming settled writerClosed)
    /\ writerClosed = false
    /\ exists e, settled = Rejected e.
Proof.
  eexists. eexists. split; [reflexivity|].
  exact (@POST_never_closes_the_stream sampleEnv openLimiter namesOnlyWorld
           followUpHttpRequest _ _ eq_refl).
Defined.


(** ** IdentifierQuoter on plain SQL *)

Lemma isSquote_eqb (c : ascii) : Ascii.eqb squote c = isSquote c.
Proof. by_cases_on c. Qed.

Lemma plain_not_squote (c : ascii) : plain c = true -> isSquote c = false.
Proof. unfold plain. now destruct (isSquote c). Qed.

Lemma plain_app (a b : jsstring) :
  forallb plain (a ++ b) = true <->
  forallb plain a = true /\ forallb plain b = true.
Proof. rewrite forallb_app. apply andb_true_iff. Qed.

Lemma plain_dquote : plain dquote = true.
Proof. reflexivity. Qed.

(** *** Stage 2, the pattern single quote, double quote *)


Lemma stage2_other (c : ascii) (s : jsstring) :
  isSquote c = false -> stage2 (c :: s) = c :: stage2 s.
Proof.
  intros H. unfold stage2, replaceAll. cbn [replaceAllFrom startsWith].
  now rewrite isSquote_eqb, H.
Qed.

Lemma stage2_squote (s : jsstring) :
  stage2 (squote :: s) = squote :: stage2 (dropLeadingDquote s).
Proof.
  destruct s as [|c s]; [reflexivity|].
  unfold stage2, replaceAll, dropLeadingDquote.
  cbn [replaceAllFrom startsWith]. rewrite (isDquote_eqb c).
  destruct (isDquote c) eqn:E; [|reflexivity].
  apply isDquote_true in E. subst c. reflexivity.
Qed.

Lemma stage2_app (a s : jsstring) :
  forallb plain a = true -> stage2 (a ++ s) = a ++ stage2 s.
Proof.
  induction a as [|c a IH]; simpl; intros H; [reflexivity|].
  apply andb_true_iff in H. destruct H as [Hc Ha].
  rewrite stage2_other by (apply plain_not_squote, Hc). now rewrite IH.
Qed.

(** *** Stage 3, the pattern double quote, single quote *)


Lemma stage3_other (c : ascii) (s : jsstring) :
  isDquote c = false -> stage3 (c :: s) = c :: stage3 s.
Proof.
  intros H. unfold stage3, replaceAll. cbn [replaceAllFrom startsWith].
  now rewrite isDquote_eqb, H.
Qed.

Lemma stage3_hit (s : jsstring) :
  stage3 (dquote :: squote :: s) = squote :: stage3 s.
Proof. reflexivity. Qed.

Lemma stage3_miss (s : jsstring) :
  beginsWithSquote s = false -> stage3 (dquote :: s) = dquote :: stage3 s.
Proof.
  intros H. unfold stage3, replaceAll. cbn [replaceAllFrom startsWith].
  destruct s as [|c s]; [reflexivity|].
  simpl in H. now rewrite (isSquote_eqb c), H.
Qed.

Lemma stage3_word (w s : jsstring) :
  forallb isWordChar w = true -> stage3 (w ++ s) = w ++ stage3 s.
Proof.
  induction w as [|c w IH]; simpl; intros Hw; [reflexivity|].
  apply andb_true_iff in Hw. destruct Hw as [Hc Hw].
  rewrite stage3_other by (apply wordChar_plain, Hc). now rewrite IH.
Qed.

Lemma dropTrailingDquote_cons (c d : ascii) (s : jsstring) :
  dropTrailingDquote (c :: d :: s) = c :: dropTrailingDquote (d :: s).
Proof. reflexivity. Qed.

(** The body of a literal up to its closing quote. *)
Lemma stage3_body (b s : jsstring) :
  forallb plain b = true ->
  stage3 (b ++ squote :: s) = dropTrailingDquote b ++ squote :: stage3 s.
Proof.
  induction b as [|c b IH]; intros Hb.
  - simpl. now rewrite stage3_other.
  - simpl in Hb. apply andb_true_iff in Hb. destruct Hb as [Hc Hb].
    specialize (IH Hb). destruct b as [|d b].
    + simpl. destruct (isDquote c) eqn:E.
      * apply isDquote_true in E. subst c. now rewrite stage3_hit.
      * rewrite stage3_other by exact E. now rewrite stage3_other.
    + rewrite dropTrailingDquote_cons.
      change ((c :: d :: b) ++ squote :: s) with (c :: (d :: b) ++ squote :: s).
      destruct (isDquote c) eqn:E.
      * apply isDquote_true in E. subst c. rewrite stage3_miss.
        -- now rewrite IH.
        -- simpl in Hb. apply andb_true_iff in Hb.
           simpl. apply plain_not_squote, Hb.
      * rewrite stage3_other by exact E. now rewrite IH.
Qed.

(** *** Stage 4 across a character that is no double quote *)

Lemma list_two_step (A : Type) (P : list A -> Prop) :
  P [] -> (forall x, P [x]) ->
  (forall x y l, P l -> P (y :: l) -> P (x :: y :: l)) ->
  forall l, P l.
Proof.
  intros H0 H1 H2 l.
  assert (H : P l /\ forall x, P (x :: l)).
  { induction l as [|y l [IHa IHb]]; split; auto. }
  exact (proj1 H).
Qed.

Lemma collapse_stop (a : jsstring) (c : ascii) (s : jsstring) :
  isDquote c = false ->
  collapse (a ++ c :: s) = collapse a ++ c :: collapse s.
Proof.
  intros Hc. induction a as [| x | x y l IH1 IH2] using list_two_step.
  - simpl. now rewrite collapse_other.
  - simpl. destruct (isDquote x) eqn:E.
    + apply isDquote_true in E. subst x.
      rewrite collapse_single by (simpl; exact Hc).
      now rewrite collapse_other.
    + rewrite !collapse_other by assumption. reflexivity.
  - destruct (isDquote x) eqn:Ex.
    + apply isDquote_true in Ex. subst x. destruct (isDquote y) eqn:Ey.
      * apply isDquote_true in Ey. subst y. simpl.
        rewrite !collapse_pair. now rewrite IH1.
      * change ((dquote :: y :: l) ++ c :: s)
          with (dquote :: (y :: l) ++ c :: s).
        rewrite collapse_single by (simpl; exact Ey).
        rewrite (collapse_single (y :: l)) by (simpl; exact Ey).
        now rewrite IH2.
    + change ((x :: y :: l) ++ c :: s) with (x :: (y :: l) ++ c :: s).
      rewrite !collapse_other by exact Ex. now rewrite IH2.
Qed.

Lemma collapse_keeps (b : jsstring) :
  removeDquotes (collapse b) = removeDquotes b
  /\ (forallb plain b = true -> forallb plain (collapse b) = true).
Proof.
  induction b as [| x | x y l [IH1 IH1'] [IH2 IH2']] using list_two_step.
  - split; [reflexivity | auto].
  - destruct (isDquote x) eqn:E.
    + apply isDquote_true in E. subst x. split; [reflexivity | auto].
    + rewrite collapse_other by exact E. split; [reflexivity | auto].
  - destruct (isDquote x) eqn:Ex.
    + apply isDquote_true in Ex. subst x. destruct (isDquote y) eqn:Ey.
      * apply isDquote_true in Ey. subst y. rewrite collapse_pair. split.
        -- simpl. exact IH1.
        -- simpl. intros H. apply IH1'. exact H.
      * rewrite collapse_single by (simpl; exact Ey). split.
        -- simpl. simpl in IH2. exact IH2.
        -- intros H. simpl. apply IH2'. exact H.
    + rewrite collapse_other by exact Ex. split.
      * simpl. rewrite Ex. simpl. now rewrite IH2.
      * simpl. intros H. apply andb_true_iff in H. destruct H as [Hx H].
        rewrite Hx. simpl. apply IH2'. exact H.
Qed.

(** *** Stage 6 *)

Lemma unquoteLiterals_other (c : ascii) (s : jsstring) :
  isSquote c = false -> unquoteLiterals (c :: s) = c :: unquoteLiterals s.
Proof.
  intros H. unfold unquoteLiterals. cbn [unquoteLiteralsFrom]. now rewrite H.
Qed.

Lemma unquoteLiterals_app (a s : jsstring) :
  forallb plain a = true -> unquoteLiterals (a ++ s) = a ++ unquoteLiterals s.
Proof.
  induction a as [|c a IH]; simpl; intros H; [reflexivity|].
  apply andb_true_iff in H. destruct H as [Hc Ha].
  rewrite unquoteLiterals_other by (apply plain_not_squote, Hc).
  now rewrite IH.
Qed.

Lemma unquoteLiteralsFrom_skip (a s : jsstring) (k : nat) :
  unquoteLiteralsFrom (List.length a + k) (a ++ s) = unquoteLiteralsFrom k s.
Proof.
  induction a as [|c a IH]; [reflexivity|]. simpl. exact IH.
Qed.

Lemma runToSquote_body (b s : jsstring) :
  forallb plain b = true -> runToSquote (b ++ squote :: s) = Some b.
Proof.
  induction b as [|c b IH]; simpl; intros H; [reflexivity|].
  apply andb_true_iff in H. destruct H as [Hc Hb].
  rewrite (plain_not_squote c Hc), IH by exact Hb. reflexivity.
Qed.

Lemma unquoteLiterals_literal (b s : jsstring) :
  forallb plain b = true -> b <> [] ->
  unquoteLiterals (squote :: b ++ squote :: s)
  = squote :: removeDquotes b ++ squote :: unquoteLiterals s.
Proof.
  intros Hb Hne. unfold unquoteLiterals. cbn [unquoteLiteralsFrom].
  change (isSquote squote) with true. cbv iota.
  unfold literalBody. rewrite runToSquote_body by exact Hb.
  destruct b as [|c b]; [contradiction|].
  f_equal. f_equal. f_equal.
  replace (S (List.length (c :: b)))
    with (List.length ((c :: b) ++ [squote]) + 0)
    by (rewrite length_app, Nat.add_0_r; simpl; now rewrite Nat.add_1_r).
  change ((c :: b) ++ squote :: s) with ((c :: b) ++ [squote] ++ s).
  rewrite app_assoc. apply unquoteLiteralsFrom_skip.
Qed.

(** *** The lexemes *)

Lemma plainOk_text (p : Plain) :
  plainOk p = true ->
  forallb plain (plainText p) = true
  /\ forallb plain (plainQuoted p) = true
  /\ removeDquotes (plainQuoted p) = plainText p
  /\ plainText p <> []
  /\ beginsWithDquote (plainText p) = false
  /\ beginsWithSquote (plainText p) = false
  /\ beginsWithSquote (plainQuoted p) = false
  /\ beginsWithDquote (plainQuoted p) = isIdentifierLexeme p
  /\ beginsWithWordChar (plainText p) = wordLike p.
Proof.
  assert (Hrm : forall w, forallb isWordChar w = true -> removeDquotes w = w).
  { induction w as [|c w IH]; simpl; [reflexivity|].
    rewrite andb_true_iff. intros [Hc Hw].
    destruct (wordChar_plain c Hc) as [-> _]. simpl. now rewrite IH. }
  assert (Hword : forall w, isWord w = true ->
            forallb plain w = true
            /\ forallb plain (dquote :: w ++ [dquote]) = true
            /\ removeDquotes (dquote :: w ++ [dquote]) = w
            /\ w <> []
            /\ beginsWithDquote w = false
            /\ beginsWithSquote w = false
            /\ beginsWithWordChar w = true).
  { intros w Hw. destruct (isWord_word w Hw) as [Hall Hd].
    pose proof (plain_word w Hall) as Hp.
    destruct w as [|c w]; [discriminate Hw|].
    simpl in Hall. apply andb_true_iff in Hall. destruct Hall as [Hc Hall].
    repeat split.
    - exact Hp.
    - cbn [forallb]. rewrite forallb_app, Hp. reflexivity.
    - unfold removeDquotes. cbn [filter]. change (isDquote dquote) with true.
      cbv iota. cbn [negb]. rewrite filter_app.
      fold (removeDquotes (c :: w)). rewrite Hrm.
      + simpl. now rewrite app_nil_r.
      + simpl. now rewrite Hc, Hall.
    - discriminate.
    - exact Hd.
    - simpl. apply wordChar_plain, Hc.
    - exact Hc. }
  assert (Hid : forall w, isIdentifier w = true -> isWord w = true).
  { intros w H. destruct (isIdentifier_word w H) as [Hw [c [w' [-> _]]]].
    exact Hw. }
  assert (Hnum : forall w, isNumeral w = true -> isWord w = true).
  { intros w H. destruct (isNumeral_word w H) as [Hw _].
    destruct w; [discriminate H | exact Hw]. }
  destruct p as [w|w|w|c]; simpl; intros Hp.
  - apply andb_true_iff in Hp. destruct Hp as [Hi _].
    destruct (Hword w (Hid w Hi)) as (H1 & H2 & H3 & H4 & H5 & H6 & H7).
    rewrite (Hrm w) by (apply isWord_word, Hid, Hi). repeat split; assumption.
  - apply andb_true_iff in Hp. destruct Hp as [Hi _].
    destruct (Hword w (Hid w Hi)) as (H1 & H2 & H3 & H4 & H5 & H6 & H7).
    repeat split; assumption.
  - destruct (Hword w (Hnum w Hp)) as (H1 & H2 & H3 & H4 & H5 & H6 & H7).
    rewrite (Hrm w) by (apply isWord_word, Hnum, Hp). repeat split; assumption.
  - apply negb_true_iff in Hp. unfold removeDquotes, plain. simpl.
    destruct (isWordChar c), (isDquote c), (isSquote c), (isPercent c);
      try discriminate Hp.
    repeat split; try reflexivity. discriminate.
Qed.

Lemma plainSeqOk_cons (p : Plain) (rest : list Plain) :
  plainSeqOk (p :: rest) = true ->
  plainOk p = true
  /\ (wordLike p = true -> beginsWithWordChar (bodyText rest) = false)
  /\ plainSeqOk rest = true.
Proof.
  cbn [plainSeqOk]. rewrite !andb_true_iff. intros [[Hp Hadj] Hrest].
  repeat split; try assumption.
  intros Hw. destruct rest as [|q rest]; [reflexivity|].
  rewrite Hw in Hadj. simpl in Hadj. apply negb_true_iff in Hadj.
  cbn [plainSeqOk] in Hrest. rewrite !andb_true_iff in Hrest.
  destruct Hrest as [[Hq _] _].
  destruct (plainOk_text q Hq) as (_ & _ & _ & Hne & _ & _ & _ & _ & Hb).
  unfold bodyText. cbn [flat_map].
  destruct (plainText q) as [|c t] eqn:Et; [contradiction|].
  simpl in *. congruence.
Qed.

Lemma body_facts (body : list Plain) :
  plainSeqOk body = true ->
  forallb plain (bodyQuoted body) = true
  /\ forallb plain (bodyText body) = true
  /\ removeDquotes (bodyQuoted body) = bodyText body
  /\ (body <> [] -> bodyText body <> []).
Proof.
  induction body as [|p body IH]; intros H.
  - repeat split; try reflexivity. intros Hne. now destruct Hne.
  - destruct (plainSeqOk_cons _ _ H) as [Hp [_ Hrest]].
    destruct (IH Hrest) as (I1 & I2 & I3 & _).
    destruct (plainOk_text p Hp) as (P1 & P2 & P3 & P4 & _).
    unfold bodyQuoted, bodyText in *. cbn [flat_map]. repeat split.
    + apply plain_app. now split.
    + apply plain_app. now split.
    + unfold removeDquotes in *. rewrite filter_app. now rewrite P3, I3.
    + intros _ Habs. apply app_eq_nil in Habs. now destruct Habs.
Qed.

(** *** Stage 1 *)

Lemma quoteTokens_plain (p : Plain) (s : jsstring) :
  plainOk p = true ->
  (wordLike p = true -> beginsWithWordChar s = false) ->
  quoteTokens (plainText p ++ s) = plainQuoted p ++ quoteTokens s.
Proof.
  intros Hp Hs. unfold quoteTokens at 1.
  destruct p as [w|w|w|c]; simpl in Hp |- *.
  - apply andb_true_iff in Hp. destruct Hp as [Hi Hr].
    destruct (isIdentifier_word w Hi) as [Hw _].
    rewrite quoteTokensFrom_word by exact Hw. simpl.
    rewrite quoteTokensFrom_flush by (apply Hs; reflexivity).
    now rewrite reserved_flush.
  - apply andb_true_iff in Hp. destruct Hp as [Hi Hr].
    apply negb_true_iff in Hr.
    destruct (isIdentifier_word w Hi) as [Hw [c [w' [-> Hc]]]].
    rewrite quoteTokensFrom_word by exact Hw. cbn [app].
    rewrite quoteTokensFrom_flush by (apply Hs; reflexivity).
    unfold flushWord, quoteToken. rewrite Hc, Hr.
    cbn [app]. now rewrite <- app_assoc.
  - destruct (isNumeral_word w Hp) as [Hw Hf].
    rewrite quoteTokensFrom_word by exact Hw. simpl.
    rewrite quoteTokensFrom_flush by (apply Hs; reflexivity).
    now rewrite Hf.
  - apply negb_true_iff in Hp.
    destruct (isWordChar c); [discriminate Hp | reflexivity].
Qed.

Lemma quoteTokens_body (body : list Plain) (s : jsstring) :
  plainSeqOk body = true ->
  beginsWithWordChar s = false ->
  quoteTokens (bodyText body ++ s) = bodyQuoted body ++ quoteTokens s.
Proof.
  intros Hb Hs. induction body as [|p body IH]; [reflexivity|].
  destruct (plainSeqOk_cons _ _ Hb) as [Hp [Hadj Hrest]].
  unfold bodyText, bodyQuoted. cbn [flat_map].
  fold (bodyText body). fold (bodyQuoted body).
  rewrite <- !app_assoc. rewrite quoteTokens_plain.
  - now rewrite IH.
  - exact Hp.
  - intros Hw. specialize (Hadj Hw).
    destruct (bodyText body); [exact Hs | exact Hadj].
Qed.

(** *** The text between the stages *)

Lemma lexeme_text (l : Lexeme) (rest : list Lexeme) :
  sourceText (l :: rest)
  = match l with
    | Bare p => plainText p ++ sourceText rest
    | Literal body => squote :: bodyText body ++ squote :: sourceText rest
    end
  /\ quotedText (l :: rest)
     = match l with
       | Bare p => plainQuoted p ++ quotedText rest
       | Literal body => squote :: bodyText body ++ squote :: quotedText rest
       end.
Proof.
  unfold sourceText, quotedText. cbn [flat_map].
  destruct l; split; try reflexivity; simpl; now rewrite <- app_assoc.
Qed.

Lemma plainSql_cons (l : Lexeme) (rest : list Lexeme) :
  plainSql (l :: rest) = true ->
  lexemeOk l = true
  /\ match rest with
     | m :: _ => mayTouch l m = true
     | [] => True
     end
  /\ plainSql rest = true.
Proof.
  cbn [plainSql]. rewrite !andb_true_iff. intros [[Hl Hadj] Hrest].
  repeat split; try assumption. now destruct rest.
Qed.

Lemma lexemeOk_literal (body : list Plain) :
  lexemeOk (Literal body) = true -> plainSeqOk body = true /\ body <> [].
Proof.
  destruct body; simpl; [discriminate|]. intros H. split; [exact H | discriminate].
Qed.



Lemma begins_app (f : jsstring -> bool) (a s : jsstring) :
  (f = beginsWithDquote \/ f = beginsWithSquote \/ f = beginsWithWordChar) ->
  a <> [] -> f (a ++ s) = f a.
Proof.
  intros Hf Hne. destruct a; [contradiction|].
  destruct Hf as [-> | [-> | ->]]; reflexivity.
Qed.


Lemma decorated_head (ls : list Lexeme) (t : jsstring) :
  plainSql ls = true -> Decorated ls t ->
  beginsWithDquote t = headIsIdentifier ls
  /\ beginsWithSquote t = headIsLiteral ls.
Proof.
  intros Hwf Hd. destruct Hd as [|p ls t _|body b ls t _ _ _].
  - split; reflexivity.
  - destruct (plainSql_cons _ _ Hwf) as [Hp _]. simpl in Hp.
    destruct (plainOk_text p Hp) as (_ & _ & Hrm & Hne & _ & _ & Hs & Hq & _).
    assert (Hqne : plainQuoted p <> []).
    { intros E. rewrite E in Hrm. simpl in Hrm. now destruct Hne. }
    rewrite !begins_app by (auto; tauto). now rewrite Hq, Hs.
  - split; reflexivity.
Qed.

Lemma source_head (ls : list Lexeme) :
  plainSql ls = true ->
  beginsWithWordChar (sourceText ls)
  = match ls with
    | Bare p :: _ => wordLike p
    | _ => false
    end.
Proof.
  intros Hwf. destruct ls as [|[p|body] rest]; try reflexivity.
  - destruct (plainSql_cons _ _ Hwf) as [Hp _]. simpl in Hp.
    destruct (plainOk_text p Hp) as (_ & _ & _ & Hne & _ & _ & _ & _ & Hw).
    rewrite (proj1 (lexeme_text _ _)).
    rewrite begins_app by (auto; tauto). exact Hw.
Qed.

Lemma quoteTokens_decorated (ls : list Lexeme) :
  plainSql ls = true -> Decorated ls (quoteTokens (sourceText ls)).
Proof.
  induction ls as [|l rest IH]; intros Hwf; [constructor|].
  destruct (plainSql_cons _ _ Hwf) as [Hl [Hadj Hrest]].
  specialize (IH Hrest). rewrite (proj1 (lexeme_text _ _)).
  pose proof (source_head rest Hrest) as Hhead.
  destruct l as [p|body].
  - rewrite quoteTokens_plain.
    + now constructor.
    + exact Hl.
    + intros Hw. rewrite Hhead. destruct rest as [|[q|b] rest']; try reflexivity.
      simpl in Hadj. rewrite Hw in Hadj. simpl in Hadj.
      now apply negb_true_iff in Hadj.
  - destruct (lexemeOk_literal body Hl) as [Hb Hne].
    destruct (body_facts body Hb) as (B1 & B2 & B3 & _).
    assert (Hsq : forall s, quoteTokens (squote :: s) = squote :: quoteTokens s)
      by reflexivity.
    rewrite Hsq, quoteTokens_body by (auto; reflexivity).
    rewrite Hsq. now constructor.
Qed.

Lemma stage2_decorated (ls : list Lexeme) (t : jsstring) :
  plainSql ls = true -> Decorated ls t -> Decorated ls (stage2 t).
Proof.
  intros Hwf Hd. induction Hd as [|p ls t Hd IH|body b ls t Hb Hrm Hd IH].
  - constructor.
  - destruct (plainSql_cons _ _ Hwf) as [Hp [_ Hrest]]. simpl in Hp.
    destruct (plainOk_text p Hp) as (_ & Hq & _).
    rewrite stage2_app by exact Hq. constructor. now apply IH.
  - destruct (plainSql_cons _ _ Hwf) as [Hl [Hadj Hrest]].
    destruct (lexemeOk_literal body Hl) as [Hbody Hne].
    destruct (body_facts body Hbody) as (_ & _ & _ & Htext).
    assert (Hbne : b <> []).
    { intros ->. simpl in Hrm. symmetry in Hrm. now apply (Htext Hne). }
    rewrite stage2_squote.
    assert (Hdrop : dropLeadingDquote (b ++ squote :: t)
                    = dropLeadingDquote b ++ squote :: t).
    { destruct b as [|c b]; [contradiction|]. simpl. now destruct (isDquote c). }
    rewrite Hdrop.
    assert (Hpb : forallb plain (dropLeadingDquote b) = true).
    { destruct b as [|c b]; [reflexivity|]. simpl in *.
      apply andb_true_iff in Hb. destruct Hb as [Hc Hb].
      destruct (isDquote c); [exact Hb | simpl; now rewrite Hc, Hb]. }
    rewrite stage2_app by exact Hpb. rewrite stage2_squote.
    assert (Ht : dropLeadingDquote t = t).
    { destruct (decorated_head Hrest Hd) as [Hdq _].
      destruct t as [|c t]; [reflexivity|]. simpl in *.
      rewrite Hdq. destruct ls as [|[q|b'] ls']; try reflexivity.
      simpl in Hadj. simpl. apply negb_true_iff in Hadj. now rewrite Hadj. }
    rewrite Ht. constructor; [exact Hpb | | now apply IH].
    rewrite <- Hrm. clear. destruct b as [|c b]; [reflexivity|].
    unfold removeDquotes, dropLeadingDquote.
    destruct (isDquote c) eqn:E; [|reflexivity].
    cbn [filter]. now rewrite E.
Qed.


Lemma removeDquotes_dropTrailing (b : jsstring) :
  removeDquotes (dropTrailingDquote b) = removeDquotes b.
Proof.
  unfold removeDquotes. induction b as [|c b IH]; [reflexivity|].
  destruct b as [|d b].
  - cbn [dropTrailingDquote]. destruct (isDquote c) eqn:E; cbn [filter];
      rewrite ?E; reflexivity.
  - change (dropTrailingDquote (c :: d :: b))
      with (c :: dropTrailingDquote (d :: b)).
    cbn [filter] in *. now rewrite IH.
Qed.

Lemma plain_dropTrailing (b : jsstring) :
  forallb plain b = true -> forallb plain (dropTrailingDquote b) = true.
Proof.
  induction b as [|c b IH]; [reflexivity|]. intros H.
  cbn [forallb] in H. apply andb_true_iff in H. destruct H as [Hc Hb].
  destruct b as [|d b].
  - simpl. destruct (isDquote c); simpl; [reflexivity | now rewrite Hc].
  - change (dropTrailingDquote (c :: d :: b))
      with (c :: dropTrailingDquote (d :: b)).
    cbn [forallb]. now rewrite Hc, IH.
Qed.

Lemma stage3_decorated (ls : list Lexeme) (t : jsstring) :
  plainSql ls = true -> Decorated ls t -> Decorated ls (stage3 t).
Proof.
  intros Hwf Hd. induction Hd as [|p ls t Hd IH|body b ls t Hb Hrm Hd IH].
  - constructor.
  - destruct (plainSql_cons _ _ Hwf) as [Hp [Hadj Hrest]]. simpl in Hp.
    specialize (IH Hrest).
    destruct (decorated_head Hrest Hd) as [_ Hsq].
    assert (Hnext : isIdentifierLexeme p = true -> beginsWithSquote t = false).
    { intros Hi. rewrite Hsq. destruct ls as [|[q|b'] ls']; try reflexivity.
      simpl in Hadj. rewrite Hi in Hadj. discriminate Hadj. }
    destruct p as [w|w|w|c]; simpl in Hp |- *.
    + apply andb_true_iff in Hp. destruct Hp as [Hi _].
      destruct (isIdentifier_word w Hi) as [Hw _].
      rewrite stage3_word by exact Hw. now apply (Decorated_bare (Keyword w)).
    + apply andb_true_iff in Hp. destruct Hp as [Hi _].
      destruct (isIdentifier_word w Hi) as [Hw [c [w' [Ew _]]]].
      rewrite <- app_assoc. cbn [app].
      rewrite stage3_miss.
      * rewrite stage3_word by exact Hw.
        rewrite stage3_miss by (apply Hnext; reflexivity).
        change (dquote :: w ++ dquote :: stage3 t)
          with ((dquote :: w) ++ [dquote] ++ stage3 t).
        rewrite app_assoc.
        now apply (Decorated_bare (Identifier w)).
      * subst w. simpl in Hw |- *. apply andb_true_iff in Hw.
        apply wordChar_plain, Hw.
    + destruct (isNumeral_word w Hp) as [Hw _].
      rewrite stage3_word by exact Hw. now apply (Decorated_bare (Number w)).
    + apply negb_true_iff in Hp.
      rewrite stage3_other.
      * now apply (Decorated_bare (Punct c)).
      * destruct (isWordChar c), (isDquote c); try discriminate Hp. reflexivity.
  - destruct (plainSql_cons _ _ Hwf) as [Hl [Hadj Hrest]].
    specialize (IH Hrest).
    rewrite stage3_other by reflexivity. rewrite stage3_body by exact Hb.
    constructor.
    + now apply plain_dropTrailing.
    + now rewrite removeDquotes_dropTrailing.
    + exact IH.
Qed.

Lemma collapse_decorated (ls : list Lexeme) (t : jsstring) :
  plainSql ls = true -> Decorated ls t -> Decorated ls (collapse t).
Proof.
  intros Hwf Hd. induction Hd as [|p ls t Hd IH|body b ls t Hb Hrm Hd IH].
  - constructor.
  - destruct (plainSql_cons _ _ Hwf) as [Hp [Hadj Hrest]]. simpl in Hp.
    specialize (IH Hrest).
    destruct (decorated_head Hrest Hd) as [Hdq _].
    assert (Hnext : wordLike p = true -> beginsWithDquote t = false).
    { intros Hw. rewrite Hdq. destruct ls as [|[q|b'] ls']; try reflexivity.
      simpl in Hadj |- *. rewrite Hw in Hadj. apply negb_true_iff in Hadj.
      simpl in Hadj. destruct q; try reflexivity. discriminate Hadj. }
    destruct p as [w|w|w|c]; simpl in Hp |- *.
    + apply andb_true_iff in Hp. destruct Hp as [Hi _].
      destruct (isIdentifier_word w Hi) as [Hw _].
      rewrite collapse_word by exact Hw. now apply (Decorated_bare (Keyword w)).
    + apply andb_true_iff in Hp. destruct Hp as [Hi _].
      destruct (isIdentifier_word w Hi) as [Hw [c [w' [Ew _]]]].
      rewrite <- app_assoc. cbn [app].
      rewrite collapse_single.
      * rewrite collapse_word by exact Hw.
        rewrite collapse_single by (apply Hnext; reflexivity).
        change (dquote :: w ++ dquote :: collapse t)
          with ((dquote :: w) ++ [dquote] ++ collapse t).
        rewrite app_assoc.
        now apply (Decorated_bare (Identifier w)).
      * subst w. simpl in Hw |- *. apply andb_true_iff in Hw.
        apply wordChar_plain, Hw.
    + destruct (isNumeral_word w Hp) as [Hw _].
      rewrite collapse_word by exact Hw. now apply (Decorated_bare (Number w)).
    + apply negb_true_iff in Hp.
      rewrite collapse_other.
      * now apply (Decorated_bare (Punct c)).
      * destruct (isWordChar c), (isDquote c); try discriminate Hp. reflexivity.
  - destruct (plainSql_cons _ _ Hwf) as [Hl [Hadj Hrest]].
    specialize (IH Hrest).
    rewrite collapse_other by reflexivity.
    rewrite collapse_stop by reflexivity.
    destruct (collapse_keeps b) as [Hk1 Hk2].
    constructor; [now apply Hk2 | now rewrite Hk1 | exact IH].
Qed.

Lemma decorated_no_percent (ls : list Lexeme) (t : jsstring) :
  plainSql ls = true -> Decorated ls t -> ~ In percent t.
Proof.
  intros Hwf Hd. induction Hd as [|p ls t Hd IH|body b ls t Hb Hrm Hd IH].
  - intros [].
  - destruct (plainSql_cons _ _ Hwf) as [Hp [_ Hrest]]. simpl in Hp.
    destruct (plainOk_text p Hp) as (_ & Hq & _).
    intros Hin. apply in_app_or in Hin. destruct Hin as [Hin|Hin].
    + now apply (plain_no_percent _ Hq).
    + now apply IH.
  - destruct (plainSql_cons _ _ Hwf) as [_ [_ Hrest]].
    intros [Hin|Hin]; [discriminate Hin|].
    apply in_app_or in Hin. destruct Hin as [Hin|[Hin|Hin]].
    + now apply (plain_no_percent _ Hb).
    + discriminate Hin.
    + now apply IH.
Qed.

Lemma unquoteLiterals_decorated (ls : list Lexeme) (t : jsstring) :
  plainSql ls = true -> Decorated ls t -> unquoteLiterals t = quotedText ls.
Proof.
  intros Hwf Hd. induction Hd as [|p ls t Hd IH|body b ls t Hb Hrm Hd IH].
  - reflexivity.
  - destruct (plainSql_cons _ _ Hwf) as [Hp [_ Hrest]]. simpl in Hp.
    destruct (plainOk_text p Hp) as (_ & Hq & _).
    rewrite unquoteLiterals_app by exact Hq.
    rewrite (proj2 (lexeme_text _ _)). now rewrite IH.
  - destruct (plainSql_cons _ _ Hwf) as [Hl [_ Hrest]].
    destruct (lexemeOk_literal body Hl) as [Hbody Hne].
    destruct (body_facts body Hbody) as (_ & _ & _ & Htext).
    assert (Hbne : b <> []).
    { intros ->. simpl in Hrm. symmetry in Hrm. now apply (Htext Hne). }
    rewrite unquoteLiterals_literal by assumption.
    rewrite (proj2 (lexeme_text _ _)). now rewrite Hrm, IH.
Qed.

(** On plain SQL with literals the quoter puts every bare identifier
    outside a literal in double quotes and changes nothing else. *)
Theorem enforceCaseSensitivity_quotes_identifiers (ls : list Lexeme) :
  plainSql ls = true ->
  enforceCaseSensitivity (sourceText ls) = quotedText ls.
Proof.
  intros Hwf. unfold enforceCaseSensitivity, repairQuoteAdjacency.
  pose proof (quoteTokens_decorated ls Hwf) as H1.
  pose proof (stage2_decorated Hwf H1) as H2.
  pose proof (stage3_decorated Hwf H2) as H3.
  pose proof (collapse_decorated Hwf H3) as H4.
  unfold stage2, stage3, collapse in H4.
  rewrite unquoteWildcards_absent
    by (eapply decorated_no_percent; eassumption).
  now apply unquoteLiterals_decorated.
Qed.


Lemma enforceCaseSensitivity_quotes_identifiers_witness :
  plainSql sampleSql = true
  /\ sourceText sampleSql
     = str "SELECT name FROM instruments WHERE ticker = 'AAPL stock' LIMIT 5"
  /\ enforceCaseSensitivity (sourceText sampleSql) = quotedText sampleSql.
Proof.
  split; [reflexivity|]. split; [reflexivity|].
  apply enforceCaseSensitivity_quotes_identifiers. reflexivity.
Defined.

(** ** tools.ts: the market-data tools *)

Lemma find_split (A : Type) (p : A -> bool) (l : list A) :
  match find p l with
  | Some c =>
      exists before after,
        l = before ++ c :: after
        /\ p c = true
        /\ Forall (fun x => p x = false) before
  | None => Forall (fun x => p x = false) l
  end.
Proof.
  induction l as [|x l IH]; simpl; [constructor|].
  destruct (p x) eqn:E.
  - exists [], l. repeat split; [exact E | constructor].
  - destruct (find p l) as [c|].
    + destruct IH as (before & after & -> & Hc & Hb).
      exists (x :: before), after. repeat split; [exact Hc | now constructor].
    + now constructor.
Qed.

Lemma Qltb_irrefl (a : Q) : Qltb a a = false.
Proof.
  destruct (Qltb a a) eqn:E; [|reflexivity].
  apply Qltb_lt in E. now apply Qlt_irrefl in E.
Qed.

(** The loop of the all-time-high tool keeps the first of the highest
    candles it has seen. *)
Lemma higherOf_scan (candles seenBefore : list CandleDanny) (c : CandleDanny)
    (seenAfter : list CandleDanny) :
  Forall (fun x => (High x < High c)%Q) seenBefore ->
  Forall (fun x => (High x <= High c)%Q) seenAfter ->
  exists before c' after,
    seenBefore ++ c :: seenAfter ++ candles = before ++ c' :: after
    /\ fold_left higherOf candles (High c, FromDate c) = (High c', FromDate c')
    /\ Forall (fun x => (High x < High c')%Q) before
    /\ Forall (fun x => (High x <= High c')%Q) after.
Proof.
  revert seenBefore c seenAfter.
  induction candles as [|x candles IH]; intros seenBefore c seenAfter Hb Ha.
  - exists seenBefore, c, seenAfter. rewrite app_nil_r. now repeat split.
  - cbn [fold_left]. unfold higherOf at 2. cbn [fst].
    destruct (Qltb (High c) (High x)) eqn:E.
    + apply Qltb_lt in E.
      destruct (IH (seenBefore ++ c :: seenAfter) x []) as
        (before & c' & after & Heq & Hfold & Hb' & Ha').
      * apply Forall_app. split.
        -- eapply Forall_impl; [|exact Hb]. intros y Hy. simpl in Hy.
           eapply Qlt_trans; eassumption.
        -- constructor; [exact E|].
           eapply Forall_impl; [|exact Ha]. intros y Hy. simpl in Hy.
           eapply Qle_lt_trans; eassumption.
      * constructor.
      * exists before, c', after. repeat split; try assumption.
        rewrite <- Heq. now rewrite <- app_assoc.
    + apply Qltb_ge in E.
      destruct (IH seenBefore c (seenAfter ++ [x])) as
        (before & c' & after & Heq & Hfold & Hb' & Ha').
      * exact Hb.
      * apply Forall_app. split; [exact Ha | now repeat constructor].
      * exists before, c', after. repeat split; try assumption.
        rewrite <- Heq. now rewrite <- app_assoc.
Qed.

(** The all-time-high tool reports the first of the highest candles: no
    candle of the body is higher, every candle before the reported one is
    strictly lower, and the date range ends at the reported candle's date
    and starts six days before it. *)
Theorem getInstrumentAllTimeHighTool_first_maximum (calendar : Calendar)
    (market : Market) (instrumentId : Z) (result : AllTimeHigh) :
  getInstrumentAllTimeHighTool calendar market instrumentId
  = Fulfilled (Some result) ->
  exists data before c after finishTime startTime,
    market {| interval := OneWeek; candlesCount := Some 1000%Z;
              instrument := instrumentId |} = Fulfilled data
    /\ candlesOf data = Fulfilled (before ++ c :: after)
    /\ allTimeHigh result = High c
    /\ Forall (fun x => (High x < High c)%Q) before
    /\ Forall (fun x => (High x <= High c)%Q) after
    /\ timeOf calendar (FromDate c) = Some finishTime
    /\ setDateBack calendar 6 finishTime = Some startTime
    /\ dateRange result
       = (toISOString calendar startTime, toISOString calendar finishTime).
Proof.
  unfold getInstrumentAllTimeHighTool.
  destruct (market _) as [data|e] eqn:Hm; simpl; [|discriminate].
  destruct (candlesOf data) as [candles|e] eqn:Hc; simpl; [|discriminate].
  destruct candles as [|first rest]; [discriminate|].
  destruct (@higherOf_scan rest [] first []) as
    (before & c & after & Heq & Hfold & Hb & Ha); try constructor.
  assert (Hself : fold_left higherOf (first :: rest) (High first, FromDate first)
                  = (High c, FromDate c)).
  { cbn [fold_left]. unfold higherOf at 2. cbn [fst].
    rewrite Qltb_irrefl. exact Hfold. }
  rewrite Hself. cbn [fst snd].
  destruct (timeOf calendar (FromDate c)) as [finishTime|] eqn:Et;
    [|discriminate].
  destruct (setDateBack calendar 6 finishTime) as [startTime|] eqn:Es;
    [|discriminate].
  simpl. intros H. injection H as <-.
  exists data, before, c, after, finishTime, startTime.
  simpl in Heq. rewrite <- Heq.
  split; [reflexivity|]. split; [exact Hc|].
  split; [reflexivity|]. split; [exact Hb|]. split; [exact Ha|].
  split; [exact Et|]. split; [exact Es | reflexivity].
Qed.

Lemma getInstrumentAllTimeHighTool_first_maximum_witness :
  exists result,
    getInstrumentAllTimeHighTool juneCalendar sampleMarket 1001
    = Fulfilled (Some result)
    /\ exists data before c after finishTime startTime,
         sampleMarket {| interval := OneWeek; candlesCount := Some 1000%Z;
                         instrument := 1001 |} = Fulfilled data
         /\ candlesOf data = Fulfilled (before ++ c :: after)
         /\ allTimeHigh result = High c
         /\ Forall (fun x => (High x < High c)%Q) before
         /\ Forall (fun x => (High x <= High c)%Q) after
         /\ timeOf juneCalendar (FromDate c) = Some finishTime
         /\ setDateBack juneCalendar 6 finishTime = Some startTime
         /\ dateRange result
            = (toISOString juneCalendar startTime,
               toISOString juneCalendar finishTime).
Proof.
  eexists. split; [reflexivity|].
  exact (@getInstrumentAllTimeHighTool_first_maximum juneCalendar
           sampleMarket 1001 _ eq_refl).
Defined.

Lemma mathMax_spec (first : number) (rest : list number) :
  In (mathMax first rest) (first :: rest)
  /\ Forall (fun x => (x <= mathMax first rest)%Q) (first :: rest).
Proof.
  unfold mathMax. revert first.
  induction rest as [|x rest IH]; intros first.
  - simpl. split; [now left | repeat constructor; apply Qle_refl].
  - cbn [fold_left]. destruct (Qltb first x) eqn:E.
    + apply Qltb_lt in E. destruct (IH x) as [Hin Hall].
      inversion Hall as [|? ? Hx Hrest]; subst. split.
      * right. exact Hin.
      * constructor; [|exact Hall].
        eapply Qle_trans; [apply Qlt_le_weak, E | exact Hx].
    + apply Qltb_ge in E. destruct (IH first) as [Hin Hall].
      inversion Hall as [|? ? Hf Hrest]; subst. split.
      * destruct Hin as [Hin|Hin]; [now left | right; now right].
      * constructor; [exact Hf|]. constructor; [|exact Hrest].
        eapply Qle_trans; eassumption.
Qed.

Lemma mathMin_spec (first : number) (rest : list number) :
  In (mathMin first rest) (first :: rest)
  /\ Forall (fun x => (mathMin first rest <= x)%Q) (first :: rest).
Proof.
  unfold mathMin. revert first.
  induction rest as [|x rest IH]; intros first.
  - simpl. split; [now left | repeat constructor; apply Qle_refl].
  - cbn [fold_left]. destruct (Qltb x first) eqn:E.
    + apply Qltb_lt in E. destruct (IH x) as [Hin Hall].
      inversion Hall as [|? ? Hx Hrest]; subst. split.
      * right. exact Hin.
      * constructor; [|exact Hall].
        eapply Qle_trans; [exact Hx | apply Qlt_le_weak, E].
    + apply Qltb_ge in E. destruct (IH first) as [Hin Hall].
      inversion Hall as [|? ? Hf Hrest]; subst. split.
      * destruct Hin as [Hin|Hin]; [now left | right; now right].
      * constructor; [exact Hf|]. constructor; [|exact Hrest].
        eapply Qle_trans; eassumption.
Qed.

(** The price the period tool computes is the quote of one of the candles
    of the period, and no candle of the period goes beyond it. *)
Lemma period_price (direction : Direction) (first : CandleDanny)
    (rest : list CandleDanny) :
  let price :=
    match direction with
    | high => mathMax (High first) (map High rest)
    | low => mathMin (Low first) (map Low rest)
    end in
  (exists c, In c (first :: rest) /\ quote direction c = price)
  /\ Forall (fun x => notBeyond direction (quote direction x) price)
       (first :: rest).
Proof.
  destruct direction; cbn zeta.
  - destruct (mathMax_spec (High first) (map High rest)) as [Hin Hall].
    change (High first :: map High rest) with (map High (first :: rest)) in *.
    split.
    + apply in_map_iff in Hin. destruct Hin as [c [Hc Hin]]. eauto.
    + rewrite Forall_forall in *. intros x Hx. simpl.
      apply Hall. now apply in_map.
  - destruct (mathMin_spec (Low first) (map Low rest)) as [Hin Hall].
    change (Low first :: map Low rest) with (map Low (first :: rest)) in *.
    split.
    + apply in_map_iff in Hin. destruct Hin as [c [Hc Hin]]. eauto.
    + rewrite Forall_forall in *. intros x Hx. simpl.
      apply Hall. now apply in_map.
Qed.

Lemma notBeyond_fallsShort (direction : Direction) (x p : number) :
  notBeyond direction x p -> Qeq_bool x p = false -> fallsShort direction x p.
Proof.
  intros Hle Hne.
  assert (Hneq : ~ (x == p)%Q).
  { intros Heq. apply Qeq_bool_iff in Heq. congruence. }
  destruct direction; simpl in *; apply Qle_lteq in Hle;
    destruct Hle as [Hlt|Heq]; try exact Hlt; exfalso; apply Hneq;
    [exact Heq | symmetry; exact Heq].
Qed.

(** When the period tool answers with a price, the price is the highest
    high (or the lowest low) among the candles of the body whose date part
    lies between the date parts of the two bounds, compared as strings; the
    date is that of the first candle of the period with that price. *)
Theorem getInstrumentHighOrLowOnPeriodTool_extreme (calendar : Calendar)
    (market : Market) (instrumentId : Z) (startDate endDate : jsstring)
    (direction : Direction) (result : PeriodExtreme) :
  getInstrumentHighOrLowOnPeriodTool calendar market instrumentId startDate
    endDate direction = Fulfilled (Some result) ->
  exists data candles before c after,
    market {| interval := OneDay;
              candlesCount := candlesFor calendar startDate;
              instrument := instrumentId |} = Fulfilled data
    /\ candlesOf data = Fulfilled candles
    /\ filter (inPeriod (datePart startDate) (datePart endDate)) candles
       = before ++ c :: after
    /\ date result = Some (FromDate c)
    /\ (quote direction c == price result)%Q
    /\ Forall (fun x => fallsShort direction (quote direction x) (price result))
         before
    /\ Forall (fun x => notBeyond direction (quote direction x) (price result))
         after.
Proof.
  unfold getInstrumentHighOrLowOnPeriodTool.
  destruct (market _) as [data|e] eqn:Hm; simpl; [|discriminate].
  destruct (thirdCandle data) as [third|e]; simpl; [|discriminate].
  destruct (candlesOf data) as [candles|e] eqn:Hc; simpl; [|discriminate].
  destruct candles as [|c0 candles]; [discriminate|].
  destruct (filter _ (c0 :: candles)) as [|first rest] eqn:Hf; [discriminate|].
  destruct (period_price direction first rest) as [[cmax [Hin Hq]] Hall].
  cbv zeta in Hq, Hall.
  set (best := match direction with
               | high => mathMax (High first) (map High rest)
               | low => mathMin (Low first) (map Low rest)
               end) in *.
  pose proof (find_split (fun c => Qeq_bool (quote direction c) best)
                (first :: rest)) as Hfind.
  destruct (find _ (first :: rest)) as [c|].
  - destruct Hfind as (before & after & Heq & Hc' & Hb).
    intros H. injection H as <-.
    exists data, (c0 :: candles), before, c, after. cbn [date price].
    rewrite Heq in Hall. apply Forall_app in Hall. destruct Hall as [Hb' Ha'].
    inversion Ha' as [|? ? _ Ha'']; subst.
    split; [reflexivity|]. split; [exact Hc|].
    split; [rewrite Hf; exact Heq|].
    split; [reflexivity|]. split; [now apply Qeq_bool_iff|]. split.
    + rewrite Forall_forall in *. intros x Hx.
      apply notBeyond_fallsShort; [now apply Hb' | now apply Hb].
    + exact Ha''.
  - exfalso. rewrite Forall_forall in Hfind. specialize (Hfind cmax Hin).
    simpl in Hfind. rewrite Hq in Hfind.
    assert (Qeq_bool best best = true) by (apply Qeq_bool_iff; reflexivity).
    congruence.
Qed.

Lemma getInstrumentHighOrLowOnPeriodTool_extreme_witness :
  exists result,
    getInstrumentHighOrLowOnPeriodTool juneCalendar sampleMarket 1001
      (str "2025-06-03T00:00:00Z") (str "2025-06-05T00:00:00Z") high
    = Fulfilled (Some result)
    /\ date result = Some (str "2025-06-03T00:00:00Z")
    /\ exists data candles before c after,
         sampleMarket
           {| interval := OneDay;
              candlesCount :=
                candlesFor juneCalendar (str "2025-06-03T00:00:00Z");
              instrument := 1001 |} = Fulfilled data
         /\ candlesOf data = Fulfilled candles
         /\ filter (inPeriod (datePart (str "2025-06-03T00:00:00Z"))
                      (datePart (str "2025-06-05T00:00:00Z"))) candles
            = before ++ c :: after
         /\ date result = Some (FromDate c)
         /\ (quote high c == price result)%Q
         /\ Forall (fun x => fallsShort high (quote high x) (price result))
              before
         /\ Forall (fun x => notBeyond high (quote high x) (price result))
              after.
Proof.
  eexists. split; [reflexivity|]. split; [reflexivity|].
  exact (@getInstrumentHighOrLowOnPeriodTool_extreme juneCalendar
           sampleMarket 1001 (str "2025-06-03T00:00:00Z")
           (str "2025-06-05T00:00:00Z") high _ eq_refl).
Defined.

(** The period tool answers [null] exactly when the body holds a candle
    array and no candle of it lies in the period. *)
Theorem getInstrumentHighOrLowOnPeriodTool_null (calendar : Calendar)
    (market : Market) (instrumentId : Z) (startDate endDate : jsstring)
    (direction : Direction) :
  getInstrumentHighOrLowOnPeriodTool calendar market instrumentId startDate
    endDate direction = Fulfilled None
  <-> exists data candles,
        market {| interval := OneDay;
                  candlesCount := candlesFor calendar startDate;
                  instrument := instrumentId |} = Fulfilled data
        /\ hasCandleArray data = true
        /\ candlesOf data = Fulfilled candles
        /\ filter (inPeriod (datePart startDate) (datePart endDate)) candles
           = [].
Proof.
  unfold getInstrumentHighOrLowOnPeriodTool. split.
  - destruct (market _) as [data|e] eqn:Hm; simpl; [|discriminate].
    destruct data as [|[[|first entries]|]]; simpl; try discriminate.
    destruct (Candles first) as [candles|] eqn:Ec; simpl; [|discriminate].
    intros H. exists (DataObject (Some (first :: entries))), candles.
    simpl. rewrite Ec.
    split; [reflexivity|]. split; [reflexivity|]. split; [reflexivity|].
    destruct candles as [|c0 candles]; [reflexivity|].
    destruct (filter _ (c0 :: candles)); [reflexivity | discriminate H].
  - intros (data & candles & Hm & Harr & Hc & Hf). rewrite Hm. simpl.
    destruct data as [|[[|first entries]|]]; simpl in *; try discriminate.
    destruct (Candles first) as [cs|]; simpl in *; [|discriminate].
    injection Hc as ->.
    destruct candles as [|c0 candles]; [reflexivity|]. now rewrite Hf.
Qed.

(** A body without a candle array, an error body for one, makes the period
    tool throw a [TypeError] at its log line, where the all-time-high tool
    answers [null] to the same body. *)
Theorem period_tool_throws_without_candle_array (calendar : Calendar)
    (market : Market) (instrumentId : Z) (startDate endDate : jsstring)
    (direction : Direction) (data : CandleData) :
  (forall request, market request = Fulfilled data) ->
  hasCandleArray data = false ->
  data <> DataNull ->
  getInstrumentAllTimeHighTool calendar market instrumentId = Fulfilled None
  /\ exists message,
       getInstrumentHighOrLowOnPeriodTool calendar market instrumentId
         startDate endDate direction = Rejected (TypeError message).
Proof.
  intros Hm Harr Hnull.
  unfold getInstrumentAllTimeHighTool, getInstrumentHighOrLowOnPeriodTool.
  rewrite !Hm. simpl.
  destruct data as [|[[|first entries]|]]; simpl in *.
  - now destruct Hnull.
  - split; [reflexivity | eauto].
  - destruct (Candles first); [discriminate Harr|]. simpl.
    split; [reflexivity | eauto].
  - split; [reflexivity | eauto].
Qed.

Lemma period_tool_throws_without_candle_array_witness :
  getInstrumentAllTimeHighTool juneCalendar errorMarket 1001 = Fulfilled None
  /\ exists message,
       getInstrumentHighOrLowOnPeriodTool juneCalendar errorMarket 1001
         (str "2025-06-03T00:00:00Z") (str "2025-06-05T00:00:00Z") low
       = Rejected (TypeError message).
Proof.
  apply (@period_tool_throws_without_candle_array juneCalendar errorMarket
           1001 (str "2025-06-03T00:00:00Z") (str "2025-06-05T00:00:00Z") low
           errorBody).
  - reflexivity.
  - reflexivity.
  - discriminate.
Defined.

Lemma ceilDiv_bounds (a b : Z) :
  (0 <= a)%Z -> (0 < b)%Z ->
  ((ceilDiv a b - 1) * b < a <= ceilDiv a b * b)%Z.
Proof.
  intros Ha Hb. unfold ceilDiv.
  pose proof (Z.div_mod (- a) b ltac:(lia)) as Hdm.
  pose proof (Z.mod_pos_bound (- a) b Hb) as Hmod.
  nia.
Qed.

(** The three tools that ask for daily candles never ask for more than 1000
    nor for fewer than 5.  The count is the number of started days between
    today and the date, plus 5, capped at 1000; a date that is no date
    makes it [NaN]. *)
Theorem candlesFor_bounds (calendar : Calendar) (date : jsstring) :
  match candlesFor calendar date with
  | Some n =>
      (5 <= n <= 1000)%Z
      /\ exists t,
           timeOf calendar date = Some t
           /\ (n < 1000 ->
               (n - 6) * msPerDay < Z.abs (today calendar - t)
               <= (n - 5) * msPerDay)%Z
           /\ (n = 1000 -> 994 * msPerDay < Z.abs (today calendar - t))%Z
  | None => timeOf calendar date = None
  end.
Proof.
  unfold candlesFor. destruct (timeOf calendar date) as [t|]; [|reflexivity].
  pose proof (@ceilDiv_bounds (Z.abs (today calendar - t)) msPerDay
                (Z.abs_nonneg _) eq_refl) as Hc.
  set (d := ceilDiv (Z.abs (today calendar - t)) msPerDay) in *.
  assert (Hd : (0 <= d)%Z).
  { pose proof (Z.abs_nonneg (today calendar - t)).
    assert (0 < msPerDay)%Z by reflexivity. nia. }
  split; [lia|]. exists t. split; [reflexivity|]. split.
  - intros Hn. replace (Z.min (d + 5) 1000) with (d + 5)%Z by lia.
    replace (d + 5 - 6)%Z with (d - 1)%Z by lia.
    replace (d + 5 - 5)%Z with d by lia. exact Hc.
  - intros Hn. assert (995 <= d)%Z by lia.
    assert (0 < msPerDay)%Z by reflexivity. nia.
Qed.

(** *** The closest trading day *)

Lemma timeLeb_true (a b : option Z) :
  timeLeb a b = true -> exists x y, a = Some x /\ b = Some y /\ (x <= y)%Z.
Proof.
  destruct a as [x|], b as [y|]; simpl; try discriminate.
  intros H. apply Z.leb_le in H. eauto.
Qed.

Lemma notEarlier_refl (calendar : Calendar) (c : CandleDanny) :
  timeOf calendar (FromDate c) <> None -> notEarlier calendar c c.
Proof.
  intros H. unfold notEarlier.
  destruct (timeOf calendar (FromDate c)) as [t|]; [|now destruct H].
  exists t, t. repeat split. apply Z.le_refl.
Qed.

Lemma notEarlier_trans (calendar : Calendar) (a b c : CandleDanny) :
  notEarlier calendar a b -> notEarlier calendar b c -> notEarlier calendar a c.
Proof.
  intros (ta & tb & Ha & Hb & Hab) (tb' & tc & Hb' & Hc & Hbc).
  rewrite Hb in Hb'. injection Hb' as <-.
  exists ta, tc. repeat split; try assumption. eapply Z.le_trans; eassumption.
Qed.

(** The head of the sorted window is a most recent candle of the window;
    there is none exactly when the window is empty. *)
Lemma sorted_window_head (calendar : Calendar) (engine : Engine)
    (targetDate : jsstring) (lookBackDays : nat) (candles : list CandleDanny) :
  SortsByDate calendar engine ->
  DatedCandles calendar candles ->
  match hd_error (arraySort engine (mostRecentFirst calendar)
                    (window calendar targetDate lookBackDays candles)) with
  | Some c => closestTradingDay calendar targetDate lookBackDays candles c
  | None => window calendar targetDate lookBackDays candles = []
  end.
Proof.
  intros Hsort Hdated.
  assert (Hvalid : Forall (fun c => timeOf calendar (FromDate c) <> None)
                     (window calendar targetDate lookBackDays candles)).
  { unfold window. rewrite Forall_forall. intros c Hc.
    apply filter_In in Hc. destruct Hc as [Hin Hw].
    unfold DatedCandles in Hdated. rewrite Forall_forall in Hdated.
    apply (Hdated c Hin). unfold withinLookBack in Hw.
    apply andb_true_iff in Hw. destruct Hw as [_ Hw].
    apply timeLeb_true in Hw. destruct Hw as (x & y & Hx & _). congruence. }
  destruct (Hsort _ Hvalid) as [Hperm Hsorted].
  destruct (arraySort engine (mostRecentFirst calendar)
              (window calendar targetDate lookBackDays candles))
    as [|c rest] eqn:Es; simpl.
  - now apply Permutation_sym, Permutation_nil in Hperm.
  - split.
    + eapply Permutation_in; [apply Permutation_sym, Hperm | now left].
    + intros x Hx. pose proof (Permutation_in _ Hperm Hx) as Hx'.
      destruct Hx' as [<-|Hx'].
      * apply notEarlier_refl. rewrite Forall_forall in Hvalid.
        now apply Hvalid.
      * apply StronglySorted_inv in Hsorted. destruct Hsorted as [_ Hall].
        rewrite Forall_forall in Hall. now apply Hall.
Qed.

(** The performance tool compares the closing prices of two candles: for
    each of the two dates a most recent candle among those dated from three
    days before it up to it.  It answers [null] exactly when the body holds
    no candle in one of the two windows, and it never throws on a body that
    is an object. *)
Theorem getInstrumentPerformanceInRangeTool_closest_days
    (calendar : Calendar) (engine : Engine) (market : Market)
    (instrumentId : Z) (startDate endDate : jsstring) (data : CandleData)
    (candles : list CandleDanny) :
  SortsByDate calendar engine ->
  market {| interval := OneDay;
            candlesCount := candlesFor calendar startDate;
            instrument := instrumentId |} = Fulfilled data ->
  candlesOf data = Fulfilled candles ->
  DatedCandles calendar candles ->
  match getInstrumentPerformanceInRangeTool calendar engine market
          instrumentId startDate endDate with
  | Fulfilled (Some result) =>
      exists startCandle endCandle,
        closestTradingDay calendar (datePart startDate) 3 candles startCandle
        /\ closestTradingDay calendar (datePart endDate) 3 candles endCandle
        /\ result
           = {| performance :=
                  percentChange engine (Close startCandle) (Close endCandle);
                startDate := FromDate startCandle;
                endDate := FromDate endCandle;
                startPrice := Close startCandle;
                endPrice := Close endCandle;
                period := (FromDate startCandle, FromDate endCandle) |}
  | Fulfilled None =>
      window calendar (datePart startDate) 3 candles = []
      \/ window calendar (datePart endDate) 3 candles = []
  | Rejected _ => False
  end.
Proof.
  intros Hsort Hm Hc Hdated.
  unfold getInstrumentPerformanceInRangeTool. rewrite Hm. simpl.
  rewrite Hc. simpl.
  destruct candles as [|c0 candles]; [now left|].
  pose proof (sorted_window_head (datePart startDate) 3 Hsort Hdated) as Hs.
  pose proof (sorted_window_head (datePart endDate) 3 Hsort Hdated) as He.
  unfold findClosestTradingDay. unfold window in Hs, He.
  destruct (hd_error _) as [s|] in Hs |- *.
  - destruct (hd_error _) as [e|] in He |- *.
    + exists s, e. split; [exact Hs|]. split; [exact He | reflexivity].
    + right. exact He.
  - left. exact Hs.
Qed.

Lemma insertCandle_perm (compare : CandleDanny -> CandleDanny -> option Z)
    (x : CandleDanny) (l : list CandleDanny) :
  Permutation (x :: l) (insertCandle compare x l).
Proof.
  induction l as [|y l IH]; simpl; [reflexivity|].
  destruct (compare x y) as [d|]; [|reflexivity].
  destruct (d <=? 0)%Z; [reflexivity|].
  etransitivity; [apply perm_swap|]. now apply perm_skip.
Qed.

Lemma insertCandle_sorted (calendar : Calendar) (x : CandleDanny)
    (l : list CandleDanny) :
  timeOf calendar (FromDate x) <> None ->
  Forall (fun c => timeOf calendar (FromDate c) <> None) l ->
  StronglySorted (notEarlier calendar) l ->
  StronglySorted (notEarlier calendar)
    (insertCandle (mostRecentFirst calendar) x l).
Proof.
  intros Hx Hl Hs. induction l as [|y l IH]; simpl.
  - repeat constructor.
  - inversion Hl as [|? ? Hy Hl']; subst.
    apply StronglySorted_inv in Hs. destruct Hs as [Hs Hall].
    destruct (timeOf calendar (FromDate y)) as [ty|] eqn:Ey;
      [|now destruct Hy].
    destruct (timeOf calendar (FromDate x)) as [tx|] eqn:Ex;
      [|now destruct Hx].
    assert (Hcmp : mostRecentFirst calendar x y = Some (ty - tx)%Z)
      by (unfold mostRecentFirst; now rewrite Ey, Ex).
    rewrite Hcmp.
    destruct (ty - tx <=? 0)%Z eqn:E.
    + apply Z.leb_le in E.
      assert (Hxy : notEarlier calendar x y).
      { exists tx, ty. repeat split; try assumption.
        apply Z.le_sub_0. exact E. }
      constructor; [now constructor|]. constructor; [exact Hxy|].
      eapply Forall_impl; [|exact Hall]. intros z Hz.
      eapply notEarlier_trans; eassumption.
    + apply Z.leb_gt in E.
      assert (Hyx : notEarlier calendar y x).
      { exists ty, tx. repeat split; try assumption.
        apply Z.lt_le_incl. apply Z.lt_0_sub. exact E. }
      constructor.
      * apply IH; assumption.
      * eapply Permutation_Forall; [apply insertCandle_perm|].
        constructor; assumption.
Qed.

(** Sorting by insertion keeps what the language promises. *)
Lemma sampleEngine_sorts (calendar : Calendar) :
  SortsByDate calendar sampleEngine.
Proof.
  intros l Hl. simpl. induction l as [|x l IH]; simpl.
  - split; constructor.
  - inversion Hl as [|? ? Hx Hl']; subst. destruct (IH Hl') as [Hp Hs].
    split.
    + etransitivity; [apply perm_skip, Hp | apply insertCandle_perm].
    + apply insertCandle_sorted; try assumption.
      eapply Permutation_Forall; eassumption.
Qed.

Lemma juneCalendar_dated (candles : list CandleDanny) :
  DatedCandles juneCalendar candles.
Proof.
  unfold DatedCandles. rewrite Forall_forall. intros c _ _. discriminate.
Qed.

Lemma getInstrumentPerformanceInRangeTool_closest_days_witness :
  exists result startCandle endCandle,
    getInstrumentPerformanceInRangeTool juneCalendar sampleEngine sampleMarket
      1001 (str "2025-06-03T12:00:00Z") (str "2025-06-08T00:00:00Z")
    = Fulfilled (Some result)
    /\ closestTradingDay juneCalendar (datePart (str "2025-06-03T12:00:00Z"))
         3 sampleCandles startCandle
    /\ closestTradingDay juneCalendar (datePart (str "2025-06-08T00:00:00Z"))
         3 sampleCandles endCandle
    /\ startDate result = FromDate startCandle
    /\ endDate result = FromDate endCandle.
Proof.
  pose proof (@getInstrumentPerformanceInRangeTool_closest_days juneCalendar
                sampleEngine sampleMarket 1001 (str "2025-06-03T12:00:00Z")
                (str "2025-06-08T00:00:00Z") sampleBody sampleCandles
                (sampleEngine_sorts juneCalendar) eq_refl eq_refl
                (juneCalendar_dated sampleCandles)) as H.
  destruct (getInstrumentPerformanceInRangeTool juneCalendar sampleEngine
              sampleMarket 1001 (str "2025-06-03T12:00:00Z")
              (str "2025-06-08T00:00:00Z")) as [[result|]|e].
  - destruct H as (s & e & Hs & He & ->). eexists. exists s, e.
    split; [reflexivity|]. split; [exact Hs|]. split; [exact He|].
    split; reflexivity.
  - exfalso. destruct H as [H|H]; vm_compute in H; discriminate H.
  - destruct H.
Defined.

Lemma jsstring_eqb_eq (a b : jsstring) : jsstring_eqb a b = true <-> a = b.
Proof.
  unfold jsstring_eqb. destruct (list_eq_dec ascii_dec a b); split;
    intros H; try reflexivity; try assumption; try discriminate.
  contradiction.
Qed.

(** The single-day tool answers with the first candle of the body whose
    date part is that of the date asked for.  If there is none it answers
    with a most recent candle among those dated from three days before
    that date up to it, and with [null] if there is none either. *)
Theorem getSingleDayPriceTool_exact_or_closest (calendar : Calendar)
    (engine : Engine) (market : Market) (instrumentId : Z) (date : jsstring)
    (data : CandleData) (candles : list CandleDanny) :
  SortsByDate calendar engine ->
  market {| interval := OneDay;
            candlesCount := candlesFor calendar date;
            instrument := instrumentId |} = Fulfilled data ->
  candlesOf data = Fulfilled candles ->
  DatedCandles calendar candles ->
  let onTheDay c := datePart (FromDate c) = datePart date in
  match getSingleDayPriceTool calendar engine market instrumentId date with
  | Fulfilled (Some c) =>
      (exists before after,
         candles = before ++ c :: after
         /\ onTheDay c
         /\ Forall (fun x => ~ onTheDay x) before)
      \/ (Forall (fun x => ~ onTheDay x) candles
          /\ closestTradingDay calendar (datePart date) 3 candles c)
  | Fulfilled None =>
      Forall (fun x => ~ onTheDay x) candles
      /\ window calendar (datePart date) 3 candles = []
  | Rejected _ => False
  end.
Proof.
  intros Hsort Hm Hc Hdated onTheDay.
  unfold getSingleDayPriceTool. rewrite Hm. simpl. rewrite Hc. simpl.
  pose proof (find_split
                (fun candle =>
                   jsstring_eqb (datePart (FromDate candle)) (datePart date))
                candles) as Hfind.
  assert (Hno : forall l,
            Forall (fun x => jsstring_eqb (datePart (FromDate x))
                               (datePart date) = false) l ->
            Forall (fun x => ~ onTheDay x) l).
  { intros l Hl. eapply Forall_impl; [|exact Hl]. intros x Hx Hon.
    apply jsstring_eqb_eq in Hon. simpl in Hx. congruence. }
  destruct (find _ candles) as [c|].
  - destruct Hfind as (before & after & Heq & Hon & Hb).
    left. exists before, after. split; [exact Heq|].
    split; [now apply jsstring_eqb_eq | now apply Hno].
  - pose proof (sorted_window_head (datePart date) 3 Hsort Hdated) as Hw.
    unfold window in Hw.
    destruct (hd_error _) as [c|] in Hw |- *.
    + right. split; [now apply Hno | exact Hw].
    + split; [now apply Hno | exact Hw].
Qed.

Lemma getSingleDayPriceTool_exact_or_closest_witness :
  getSingleDayPriceTool juneCalendar sampleEngine sampleMarket 1001
    (str "2025-06-07T00:00:00Z")
  = Fulfilled (nth_error sampleCandles 3)
  /\ match getSingleDayPriceTool juneCalendar sampleEngine sampleMarket 1001
             (str "2025-06-07T00:00:00Z") with
     | Fulfilled (Some c) =>
         (exists before after,
            sampleCandles = before ++ c :: after
            /\ datePart (FromDate c) = datePart (str "2025-06-07T00:00:00Z")
            /\ Forall (fun x => datePart (FromDate x)
                                <> datePart (str "2025-06-07T00:00:00Z"))
                 before)
         \/ (Forall (fun x => datePart (FromDate x)
                              <> datePart (str "2025-06-07T00:00:00Z"))
               sampleCandles
             /\ closestTradingDay juneCalendar
                  (datePart (str "2025-06-07T00:00:00Z")) 3 sampleCandles c)
     | Fulfilled None =>
         Forall (fun x => datePart (FromDate x)
                          <> datePart (str "2025-06-07T00:00:00Z"))
           sampleCandles
         /\ window juneCalendar (datePart (str "2025-06-07T00:00:00Z")) 3
              sampleCandles = []
     | Rejected _ => False
     end.
Proof.
  split; [reflexivity|].
  exact (@getSingleDayPriceTool_exact_or_closest juneCalendar sampleEngine
           sampleMarket 1001 (str "2025-06-07T00:00:00Z") sampleBody
           sampleCandles (sampleEngine_sorts juneCalendar) eq_refl eq_refl
           (juneCalendar_dated sampleCandles)).
Defined.

(** ** IdentifierQuoter between percent signs *)

Lemma inert_facts (c : ascii) :
  inert c = true ->
  isSquote c = false /\ isPercent c = false /\ isLineTerminator c = false.
Proof.
  unfold inert. destruct (isSquote c), (isPercent c), (isLineTerminator c);
    simpl; intros H; try discriminate H; auto.
Qed.

Lemma inert_plain (s : jsstring) :
  forallb inert s = true -> forallb plain s = true.
Proof.
  induction s as [|c s IH]; simpl; [reflexivity|].
  rewrite andb_true_iff. intros [Hc Hs].
  destruct (inert_facts c Hc) as (H1 & H2 & _).
  unfold plain. rewrite H1, H2. simpl. now apply IH.
Qed.

(** Stage 1 reads up to a character that is no word character as if the
    text ended there. *)
Lemma quoteTokensFrom_split (cur s : jsstring) (c : ascii) (t : jsstring) :
  isWordChar c = false ->
  quoteTokensFrom cur (s ++ c :: t)
  = quoteTokensFrom cur s ++ c :: quoteTokens t.
Proof.
  intros Hc. revert cur. induction s as [|x s IH]; intros cur.
  - simpl. now rewrite Hc.
  - simpl. destruct (isWordChar x).
    + apply IH.
    + rewrite IH. now rewrite <- app_assoc.
Qed.

Section Kept.

Variable P : ascii -> bool.
Hypothesis P_dquote : P dquote = true.

Lemma flushWord_forallb (w : jsstring) :
  forallb P w = true -> forallb P (flushWord w) = true.
Proof.
  intros Hw. destruct w as [|c w]; [reflexivity|].
  unfold flushWord. destruct (isIdentStart c); [|exact Hw].
  unfold quoteToken. destruct (isReserved (c :: w)); [exact Hw|].
  cbn [forallb]. rewrite P_dquote. cbn [andb].
  rewrite forallb_app. rewrite Hw. simpl. now rewrite P_dquote.
Qed.

Lemma quoteTokensFrom_forallb (cur s : jsstring) :
  forallb P cur = true -> forallb P s = true ->
  forallb P (quoteTokensFrom cur s) = true.
Proof.
  revert cur. induction s as [|c s IH]; intros cur Hcur Hs.
  - simpl. now apply flushWord_forallb.
  - simpl in Hs. apply andb_true_iff in Hs. destruct Hs as [Hc Hs].
    simpl. destruct (isWordChar c).
    + apply IH; [|exact Hs]. rewrite forallb_app, Hcur. simpl. now rewrite Hc.
    + rewrite forallb_app. rewrite flushWord_forallb by exact Hcur.
      simpl. rewrite Hc. simpl. now apply IH.
Qed.

Lemma collapse_forallb (b : jsstring) :
  forallb P b = true -> forallb P (collapse b) = true.
Proof.
  induction b as [| x | x y l IH1 IH2] using list_two_step.
  - auto.
  - destruct (isDquote x) eqn:E.
    + apply isDquote_true in E. subst x. auto.
    + rewrite collapse_other by exact E. auto.
  - destruct (isDquote x) eqn:Ex.
    + apply isDquote_true in Ex. subst x. destruct (isDquote y) eqn:Ey.
      * apply isDquote_true in Ey. subst y. rewrite collapse_pair.
        simpl. rewrite P_dquote. simpl. exact IH1.
      * rewrite collapse_single by (simpl; exact Ey).
        simpl. rewrite P_dquote. simpl. intros H. apply IH2. exact H.
    + rewrite collapse_other by exact Ex.
      simpl. intros H. apply andb_true_iff in H. destruct H as [Hx H].
      rewrite Hx. simpl. apply IH2. exact H.
Qed.

End Kept.

Lemma removeDquotes_app (a b : jsstring) :
  removeDquotes (a ++ b) = removeDquotes a ++ removeDquotes b.
Proof. unfold removeDquotes. apply filter_app. Qed.

Lemma removeDquotes_flushWord (w : jsstring) :
  removeDquotes (flushWord w) = removeDquotes w.
Proof.
  destruct w as [|c w]; [reflexivity|].
  unfold flushWord. destruct (isIdentStart c); [|reflexivity].
  unfold quoteToken. destruct (isReserved (c :: w)); [reflexivity|].
  change (dquote :: (c :: w) ++ [dquote])
    with ([dquote] ++ (c :: w) ++ [dquote]).
  rewrite !removeDquotes_app. change (removeDquotes [dquote]) with (@nil ascii).
  simpl. now rewrite app_nil_r.
Qed.

(** Stage 1 adds double quotes and nothing else. *)
Lemma removeDquotes_quoteTokensFrom (cur s : jsstring) :
  removeDquotes (quoteTokensFrom cur s) = removeDquotes (cur ++ s).
Proof.
  revert cur. induction s as [|c s IH]; intros cur.
  - simpl. rewrite app_nil_r. apply removeDquotes_flushWord.
  - simpl. destruct (isWordChar c).
    + rewrite IH. now rewrite <- app_assoc.
    + rewrite !removeDquotes_app, removeDquotes_flushWord.
      change (c :: quoteTokensFrom [] s) with ([c] ++ quoteTokensFrom [] s).
      change (c :: s) with ([c] ++ s).
      rewrite !removeDquotes_app. now rewrite IH.
Qed.

Lemma flushWord_nonempty (w : jsstring) : w <> [] -> flushWord w <> [].
Proof.
  destruct w as [|c w]; [congruence|]. intros _.
  unfold flushWord, quoteToken.
  destruct (isIdentStart c); [|discriminate].
  destruct (isReserved (c :: w)); discriminate.
Qed.

Lemma quoteTokensFrom_nonempty (cur s : jsstring) :
  cur <> [] \/ s <> [] -> quoteTokensFrom cur s <> [].
Proof.
  revert cur. induction s as [|c s IH]; intros cur H.
  - simpl. apply flushWord_nonempty. destruct H as [H|H]; congruence.
  - simpl. destruct (isWordChar c).
    + apply IH. left. destruct cur; discriminate.
    + destruct (flushWord cur); discriminate.
Qed.

Lemma collapse_nonempty (b : jsstring) : b <> [] -> collapse b <> [].
Proof.
  destruct b as [|x b]; [congruence|]. intros _.
  unfold collapse, replaceAll. cbn [replaceAllFrom].
  destruct (startsWith [dquote; dquote] (x :: b)); discriminate.
Qed.

Lemma lazyToPercent_body (b t : jsstring) :
  forallb inert b = true ->
  lazyToPercent false (b ++ percent :: t) = Some b
  /\ (b <> [] -> lazyToPercent true (b ++ percent :: t) = Some b).
Proof.
  intros Hb.
  assert (Hfalse : forall b, forallb inert b = true ->
                     lazyToPercent false (b ++ percent :: t) = Some b).
  { clear b Hb. induction b as [|c b IH]; intros Hb; [reflexivity|].
    simpl in Hb. apply andb_true_iff in Hb. destruct Hb as [Hc Hb].
    destruct (inert_facts c Hc) as (_ & Hp & Hl).
    cbn [app lazyToPercent negb andb]. rewrite Hp, Hl.
    rewrite (IH Hb). reflexivity. }
  split; [now apply Hfalse|].
  destruct b as [|c b]; [congruence|]. intros _.
  simpl in Hb. apply andb_true_iff in Hb. destruct Hb as [Hc Hb].
  destruct (inert_facts c Hc) as (_ & Hp & Hl).
  cbn [app lazyToPercent negb andb]. rewrite Hl.
  rewrite (Hfalse b Hb). reflexivity.
Qed.

Lemma unquoteWildcardsFrom_skip (a s : jsstring) (k : nat) :
  unquoteWildcardsFrom (List.length a + k) (a ++ s) = unquoteWildcardsFrom k s.
Proof.
  induction a as [|c a IH]; [reflexivity|]. simpl. exact IH.
Qed.

(** Whatever stands between two percent signs, as long as it holds no
    single quote, no percent sign and no line break, comes out of the
    quoter without any double quote: without those the quoter has added and
    without those the text had. *)
Theorem enforceCaseSensitivity_between_percents (s : jsstring) :
  s <> [] ->
  forallb inert s = true ->
  enforceCaseSensitivity (percent :: s ++ [percent])
  = percent :: removeDquotes s ++ [percent].
Proof.
  intros Hne Hs.
  assert (Hq : quoteTokens (percent :: s ++ [percent])
               = percent :: quoteTokens s ++ [percent]).
  { unfold quoteTokens at 1. cbn [quoteTokensFrom].
    change (isWordChar percent) with false. cbv iota. cbn [flushWord app].
    fold (quoteTokens (s ++ [percent])). unfold quoteTokens at 1.
    rewrite quoteTokensFrom_split by reflexivity. reflexivity. }
  assert (Hinert : forallb inert (quoteTokens s) = true)
    by (apply quoteTokensFrom_forallb; auto).
  assert (Hrm : removeDquotes (quoteTokens s) = removeDquotes s)
    by (unfold quoteTokens; now rewrite removeDquotes_quoteTokensFrom).
  assert (Hqne : quoteTokens s <> [])
    by (apply quoteTokensFrom_nonempty; now right).
  set (q := quoteTokens s) in *.
  assert (Hnosq : ~ In squote (percent :: q ++ [percent])).
  { intros [H|H]; [discriminate H|]. apply in_app_or in H.
    destruct H as [H|[H|[]]]; [|discriminate H].
    exact (plain_no_squote _ (inert_plain _ Hinert) H). }
  unfold enforceCaseSensitivity, repairQuoteAdjacency. rewrite Hq.
  rewrite (@replaceAll_absent [squote; dquote] [squote] _ squote)
    by (simpl; auto).
  rewrite (@replaceAll_absent [dquote; squote] [squote] _ squote)
    by (simpl; auto).
  fold (collapse (percent :: q ++ [percent])).
  rewrite collapse_other by reflexivity.
  rewrite collapse_stop by reflexivity.
  change (collapse []) with (@nil ascii).
  assert (Hinert' : forallb inert (collapse q) = true)
    by (apply collapse_forallb; auto).
  assert (Hrm' : removeDquotes (collapse q) = removeDquotes s)
    by (rewrite (proj1 (collapse_keeps q)); exact Hrm).
  assert (Hqne' : collapse q <> []) by now apply collapse_nonempty.
  set (q' := collapse q) in *.
  unfold unquoteWildcards. cbn [unquoteWildcardsFrom].
  change (isPercent percent) with true. cbv iota.
  rewrite (proj2 (@lazyToPercent_body q' [] Hinert') Hqne').
  replace (S (List.length q')) with (List.length q' + 1) by lia.
  rewrite unquoteWildcardsFrom_skip. cbn [unquoteWildcardsFrom].
  rewrite Hrm'. apply unquoteLiterals_absent.
  intros [H|H]; [discriminate H|]. apply in_app_or in H.
  destruct H as [H|[H|[]]]; [|discriminate H].
  assert (Hplain : forallb plain (removeDquotes s) = true).
  { unfold removeDquotes. apply forallb_forall. intros x Hx.
    apply filter_In in Hx. destruct Hx as [Hx _].
    pose proof (inert_plain _ Hs) as Hp. rewrite forallb_forall in Hp.
    now apply Hp. }
  exact (plain_no_squote _ Hplain H).
Qed.

Lemma enforceCaseSensitivity_between_percents_witness :
  enforceCaseSensitivity (percent :: quotedName ++ [percent])
  = str "%Apple Inc%".
Proof.
  apply (@enforceCaseSensitivity_between_percents quotedName).
  - discriminate.
  - reflexivity.
Defined.

(** A candidate whose text is a non-empty string that the filter passes is
    sent, in its rewritten form, to a database that accepts connections. *)
Lemma executor_sends_rewritten (writer : bool) (db : Database)
    (text : jsstring) (reasoning : JsValue) (step : jsstring) :
  text <> [] ->
  isDangerousQuery text = false ->
  poolConnect db = None ->
  In (ClientQuery (enforceCaseSensitivity text))
     (fst (generateComparisonDataSqlQueriesResponse writer db
             [{| sqlQuery := JStr text; queryReasoning := reasoning;
                 stepName := step |}])).
Proof.
  intros Hne Hsafe Hconn. rewrite executor_events. cbn [flat_map].
  rewrite app_nil_r. unfold runCandidate. cbn [sqlQuery stepName].
  destruct text as [|c text]; [congruence|]. cbn [truthy negb].
  cbn [notStringOrDangerous]. rewrite Hsafe.
  unfold dbQueryWithLog. rewrite Hconn.
  destruct (clientQuery db _); destruct writer; simpl; auto.
Qed.

(** The filter is asked about the text as the agent wrote it, the database
    is sent the text as the quoter rewrote it.  A double quote inside a
    denylisted verb between two percent signs hides the verb from
    [isDangerousQuery]; the quoter removes the quote again, and the
    executor sends the verb. *)
Theorem executor_vets_before_rewriting (writer : bool) (db : Database)
    (verb : jsstring) (n : nat) (reasoning : JsValue) (step : jsstring) :
  In verb denylist ->
  0 < n < List.length verb ->
  poolConnect db = None ->
  isDangerousQuery (splitVerb verb n) = false
  /\ enforceCaseSensitivity (splitVerb verb n) = percent :: verb ++ [percent]
  /\ isDangerousQuery (enforceCaseSensitivity (splitVerb verb n)) = true
  /\ In (ClientQuery (percent :: verb ++ [percent]))
       (fst (generateComparisonDataSqlQueriesResponse writer db
               [{| sqlQuery := JStr (splitVerb verb n);
                   queryReasoning := reasoning; stepName := step |}])).
Proof.
  intros Hverb Hn Hconn.
  assert (H : isDangerousQuery (splitVerb verb n) = false
              /\ enforceCaseSensitivity (splitVerb verb n)
                 = percent :: verb ++ [percent]
              /\ isDangerousQuery (percent :: verb ++ [percent]) = true).
  { unfold denylist in Hverb. simpl in Hverb.
    repeat (destruct Hverb as [<-|Hverb];
            [simpl in Hn;
             do 8 (destruct n as [|n]; [try lia; vm_compute; auto|]); lia|]).
    destruct Hverb. }
  destruct H as (Hsafe & Hre & Hbad).
  split; [exact Hsafe|]. split; [exact Hre|].
  split; [rewrite Hre; exact Hbad|].
  rewrite <- Hre. apply executor_sends_rewritten; [discriminate | exact Hsafe | exact Hconn].
Qed.

Lemma executor_vets_before_rewriting_witness :
  isDangerousQuery (splitVerb (str "DROP") 2) = false
  /\ enforceCaseSensitivity (splitVerb (str "DROP") 2) = str "%DROP%"
  /\ isDangerousQuery (enforceCaseSensitivity (splitVerb (str "DROP") 2)) = true
  /\ In (ClientQuery (str "%DROP%"))
       (fst (generateComparisonDataSqlQueriesResponse true emptyDatabase
               [{| sqlQuery := JStr (splitVerb (str "DROP") 2);
                   queryReasoning := JNull; stepName := str "stocks" |}])).
Proof.
  apply (@executor_vets_before_rewriting true emptyDatabase (str "DROP") 2
           JNull (str "stocks")).
  - right. right. now left.
  - simpl. lia.
  - reflexivity.
Defined.

(** ** helpers.ts: [noClassificationApplies] *)


(** Reads one property of a record written out as an object. *)
Ltac read_property :=
  match goal with
  | |- context [property ?obj ?key] =>
      let v := eval vm_compute in (property obj key) in
      replace (property obj key) with v by (vm_compute; reflexivity)
  end.

(** Two of the eight flags [noClassificationApplies] reads are no keys of
    the schema and never count.  On a classification of the schema it is
    true exactly when the other six are false, whatever the flags for stock
    fundamentals, crypto, currencies, prices, smart portfolios, earnings
    calls, guidance and CEOs say.  The [allFalse] of the route looks at all
    fifteen boolean keys other than [userWantsToTradeAnAsset], so it is the
    stronger of the two. *)
Theorem noClassificationApplies_reads_six_flags (c : ClassificationAgentSchema) :
  noClassificationApplies (classificationObject c)
  = negb (isAboutUserPortfolio c || isAboutETFs c || isAboutNews c
          || isAboutEarningsDates c || isAboutDividendDates c
          || isAboutInvestors c)
  /\ allFalse (classificationObject c)
     = negb (isAboutUserPortfolio c || isAboutStockFundamentals c
             || isStockIndustryRelevant c || isAboutETFs c
             || isAboutCurrenciesOrCommoditiesOrIndices c || isAboutCrypto c
             || isAboutNews c || isAboutEarningsDates c
             || isAboutDividendDates c || isAboutInvestors c
             || isAboutSmartPortfolios c || isAboutAssetPricesOrPerformance c
             || isAboutEarningsCallsSummariesOrRevenueSegmentation c
             || isAboutCorporateGuidanceOrStrategicOutlook c
             || isAboutImportantCEOs c)
  /\ (allFalse (classificationObject c) = true ->
      noClassificationApplies (classificationObject c) = true).
Proof.
  assert (Hkeys : booleanClassificationKeys
                  = map str
                      [ "isAboutUserPortfolio"; "isAboutStockFundamentals";
                        "isStockIndustryRelevant"; "isAboutETFs";
                        "isAboutCurrenciesOrCommoditiesOrIndices";
                        "isAboutCrypto"; "isAboutNews"; "isAboutEarningsDates";
                        "isAboutDividendDates"; "isAboutInvestors";
                        "isAboutSmartPortfolios";
                        "isAboutAssetPricesOrPerformance";
                        "isAboutEarningsCallsSummariesOrRevenueSegmentation";
                        "isAboutCorporateGuidanceOrStrategicOutlook";
                        "isAboutImportantCEOs" ]%string)
    by (vm_compute; reflexivity).
  assert (H1 : noClassificationApplies (classificationObject c)
               = negb (isAboutUserPortfolio c || isAboutETFs c || isAboutNews c
                       || isAboutEarningsDates c || isAboutDividendDates c
                       || isAboutInvestors c)).
  { unfold noClassificationApplies. destruct c.
    repeat read_property. cbn [truthy negb andb].
    rewrite !negb_orb, ?andb_true_r, ?andb_assoc. reflexivity. }
  assert (H2 : allFalse (classificationObject c)
     = negb (isAboutUserPortfolio c || isAboutStockFundamentals c
             || isStockIndustryRelevant c || isAboutETFs c
             || isAboutCurrenciesOrCommoditiesOrIndices c || isAboutCrypto c
             || isAboutNews c || isAboutEarningsDates c
             || isAboutDividendDates c || isAboutInvestors c
             || isAboutSmartPortfolios c || isAboutAssetPricesOrPerformance c
             || isAboutEarningsCallsSummariesOrRevenueSegmentation c
             || isAboutCorporateGuidanceOrStrategicOutlook c
             || isAboutImportantCEOs c)).
  { unfold allFalse. rewrite Hkeys. cbn [map forallb]. destruct c.
    repeat read_property. cbn [truthy].
    rewrite !negb_orb, ?andb_true_r, ?andb_assoc. reflexivity. }
  split; [exact H1|]. split; [exact H2|].
  rewrite H1, H2. rewrite !negb_true_iff, !orb_false_iff. tauto.
Qed.

(** ** The traced executor *)

Lemma afterQuery_runCandidate (writer : bool) (db : Database)
    (query : CandidateQuery) (text : jsstring) :
  truthy (sqlQuery query) = true ->
  notStringOrDangerous (sqlQuery query) = false ->
  sqlQuery query = JStr text ->
  runCandidate writer db query
  = (let (dbEvents, reply) := dbQueryWithLog db text in
     let (events, result) := afterQuery writer query reply in
     (dbEvents ++ events, result)).
Proof.
  intros Ht Hn Hq. unfold runCandidate, afterQuery.
  rewrite Ht, Hn, Hq. cbn [negb].
  destruct (dbQueryWithLog db text) as [events [rows|e]]; reflexivity.
Qed.

(** With a parent span to start from, a callback does to the database and
    answers what it does in the model without spans, whatever the state of
    the trace. *)
Lemma finish_begin (writer : bool) (db : Database) (timing : Timing)
    (parent : nat) (state : LangsheetTrace * nat) (query : CandidateQuery)
    (trace : LangsheetTrace) :
  snd (finishCandidate writer db trace
         (snd (beginCandidate writer timing (Some parent) state query)))
  = runCandidate writer db query.
Proof.
  destruct state as [trace0 n]. unfold beginCandidate.
  destruct (truthy (sqlQuery query)) eqn:Ht; cbn [negb].
  2:{ unfold runCandidate. rewrite Ht. reflexivity. }
  destruct (notStringOrDangerous (sqlQuery query)) eqn:Hn.
  { unfold runCandidate. rewrite Ht, Hn. cbn [negb].
    destruct writer; [|reflexivity].
    destruct (isDangerousQueryOf (sqlQuery query)); reflexivity. }
  destruct (sqlQuery query) as [| | | | |text|] eqn:Hq; try discriminate Hn.
  rewrite <- Hq in Ht, Hn.
  rewrite (@afterQuery_runCandidate writer db query text Ht Hn Hq).
  destruct (startChildSpan _ _ _ _ _ _ _) as [trace' span]. cbn [snd].
  unfold finishCandidate, dbQueryWithLog.
  destruct (poolConnect db) as [e|].
  - destruct (afterQuery writer query (Rejected e)). reflexivity.
  - destruct (clientQuery db _) as [rows|e].
    + destruct (afterQuery writer query _). reflexivity.
    + destruct (afterQuery writer query _). reflexivity.
Qed.

(** Without a parent span the database is never reached. *)
Lemma finish_begin_orphan (writer : bool) (db : Database) (timing : Timing)
    (state : LangsheetTrace * nat) (query : CandidateQuery)
    (trace : LangsheetTrace) :
  fst (fst (beginCandidate writer timing None state query)) = fst state
  /\ fst (finishCandidate writer db trace
            (snd (beginCandidate writer timing None state query))) = trace
  /\ snd (finishCandidate writer db trace
            (snd (beginCandidate writer timing None state query)))
     = if reachesDatabase query
       then afterQuery writer query (Rejected nullSpanParent)
       else runCandidate writer db query.
Proof.
  destruct state as [trace0 n]. unfold beginCandidate, reachesDatabase.
  destruct (truthy (sqlQuery query)) eqn:Ht; cbn [negb andb].
  2:{ unfold runCandidate. rewrite Ht. now repeat split. }
  destruct (notStringOrDangerous (sqlQuery query)) eqn:Hn; cbn [negb].
  { unfold runCandidate. rewrite Ht, Hn. cbn [negb].
    destruct writer; [|now repeat split].
    destruct (isDangerousQueryOf (sqlQuery query)); now repeat split. }
  destruct (sqlQuery query) as [| | | | |text|] eqn:Hq; try discriminate Hn.
  now repeat split.
Qed.

Lemma beginAll_cons (writer : bool) (timing : Timing)
    (langsheetSpan : option nat) (state : LangsheetTrace * nat)
    (query : CandidateQuery) (rest : list CandidateQuery) :
  beginAll writer timing langsheetSpan state (query :: rest)
  = (fst (beginAll writer timing langsheetSpan
            (fst (beginCandidate writer timing langsheetSpan state query))
            rest),
     snd (beginCandidate writer timing langsheetSpan state query)
       :: snd (beginAll writer timing langsheetSpan
                 (fst (beginCandidate writer timing langsheetSpan state query))
                 rest)).
Proof.
  cbn [beginAll].
  destruct (beginCandidate writer timing langsheetSpan state query).
  cbn [fst snd].
  destruct (beginAll writer timing langsheetSpan p rest). reflexivity.
Qed.

Lemma finishAll_cons (writer : bool) (db : Database) (trace : LangsheetTrace)
    (pending : Pending) (rest : list Pending) :
  finishAll writer db trace (pending :: rest)
  = (fst (finishAll writer db
            (fst (finishCandidate writer db trace pending)) rest),
     snd (finishCandidate writer db trace pending)
       :: snd (finishAll writer db
                 (fst (finishCandidate writer db trace pending)) rest)).
Proof.
  cbn [finishAll]. destruct (finishCandidate writer db trace pending).
  cbn [fst snd].
  destruct (finishAll writer db l rest). reflexivity.
Qed.

Lemma runs_with_parent (writer : bool) (db : Database) (timing : Timing)
    (parent : nat) (queries : list CandidateQuery)
    (state : LangsheetTrace * nat) (trace : LangsheetTrace) :
  snd (finishAll writer db trace
         (snd (beginAll writer timing (Some parent) state queries)))
  = map (runCandidate writer db) queries.
Proof.
  revert state trace. induction queries as [|query rest IH];
    intros state trace; [reflexivity|].
  rewrite beginAll_cons. cbn [snd]. rewrite finishAll_cons. cbn [snd map].
  now rewrite finish_begin, IH.
Qed.

(** On a trace that has not yet seen a span of the executor's name, the
    executor with spans sends to the database, writes to the stream and
    answers exactly what the executor without spans does: the spans do not
    show in its behaviour. *)
Theorem traced_executor_agrees (writer : bool) (db : Database)
    (langsheetTrace : LangsheetTrace) (now : Z) (newId : jsstring)
    (timing : Timing) (finishedAt : Z) (allQueries : list CandidateQuery) :
  mapHas (str "comparisonDataSqlQueries") (activeSpans langsheetTrace) = false ->
  snd (generateComparisonDataSqlQueriesResponseTraced writer db langsheetTrace
         now newId timing finishedAt allQueries)
  = generateComparisonDataSqlQueriesResponse writer db allQueries.
Proof.
  intros Hfresh.
  unfold generateComparisonDataSqlQueriesResponseTraced, startSpan.
  rewrite Hfresh. cbn [addSpanToTrace].
  set (trace0 := {| spans := _; activeSpans := _; spanObjects := _ |}).
  set (parent := List.length (spanObjects langsheetTrace)).
  pose proof (@runs_with_parent writer db timing parent allQueries (trace0, 0))
    as Hruns.
  destruct (beginAll writer timing (Some parent) (trace0, 0) allQueries)
    as [trace1 pendings].
  specialize (Hruns trace1). cbn [snd] in Hruns.
  destruct (finishAll writer db trace1 pendings) as [trace2 runs].
  cbn [snd] in Hruns |- *. subst runs. reflexivity.
Qed.

Lemma traced_executor_agrees_witness :
  snd (generateComparisonDataSqlQueriesResponseTraced true oneRowDatabase
         freshTrace 0 (str "span_parent") sampleTiming 500
         [selectCandidate; deleteCandidate])
  = generateComparisonDataSqlQueriesResponse true oneRowDatabase
      [selectCandidate; deleteCandidate].
Proof.
  apply (@traced_executor_agrees true oneRowDatabase freshTrace 0
           (str "span_parent") sampleTiming 500
           [selectCandidate; deleteCandidate]).
  reflexivity.
Defined.

Lemma runs_without_parent (writer : bool) (db : Database) (timing : Timing)
    (queries : list CandidateQuery) (trace : LangsheetTrace) (n : nat) :
  fst (beginAll writer timing None (trace, n) queries) = trace
  /\ fst (finishAll writer db trace
            (snd (beginAll writer timing None (trace, n) queries))) = trace
  /\ snd (finishAll writer db trace
            (snd (beginAll writer timing None (trace, n) queries)))
     = map (fun query =>
              if reachesDatabase query
              then afterQuery writer query (Rejected nullSpanParent)
              else runCandidate writer db query) queries.
Proof.
  revert n. induction queries as [|query rest IH]; intros n.
  - now repeat split.
  - rewrite beginAll_cons. cbn [fst snd]. rewrite finishAll_cons. cbn [fst snd].
    destruct (@finish_begin_orphan writer db timing (trace, n) query trace)
      as (Hb & Hf & Hr).
    destruct (beginCandidate writer timing None (trace, n) query)
      as [[trace' n'] pending] eqn:Eb.
    cbn [fst snd] in *. subst trace'. rewrite Hf.
    destruct (IH n') as (I1 & I2 & I3).
    rewrite I1, I2, I3, Hr. cbn [map]. now repeat split.
Qed.

(** On a trace that has already seen a span of the executor's name, a
    second run of the executor on one trace, [startSpan] answers [null] and
    no candidate reaches the database: a candidate that passes the filter
    contributes its reasoning row and an error row with the text of the
    [TypeError], the others fare as in a first run, and the trace is left as
    it was. *)
Theorem traced_executor_on_used_trace (writer : bool) (db : Database)
    (langsheetTrace : LangsheetTrace) (now : Z) (newId : jsstring)
    (timing : Timing) (finishedAt : Z) (allQueries : list CandidateQuery) :
  mapHas (str "comparisonDataSqlQueries") (activeSpans langsheetTrace) = true ->
  let run :=
    generateComparisonDataSqlQueriesResponseTraced writer db langsheetTrace
      now newId timing finishedAt allQueries in
  let answers :=
    map (fun query =>
           if reachesDatabase query
           then Fulfilled
                  [ReasoningItem (queryReasoning query);
                   ErrorItem (queryReasoning query) (errorText nullSpanParent)]
           else snd (runCandidate writer db query)) allQueries in
  fst run = langsheetTrace
  /\ dbEvents (fst (snd run)) = []
  /\ snd (snd run)
     = (rows <- promiseAll answers ;; Fulfilled (List.concat rows)).
Proof.
  intros Hused.
  unfold generateComparisonDataSqlQueriesResponseTraced, startSpan.
  rewrite Hused.
  destruct (@runs_without_parent writer db timing allQueries langsheetTrace 0)
    as (Hb & Hf & Hr).
  destruct (beginAll writer timing None (langsheetTrace, 0) allQueries)
    as [trace1 pendings].
  cbn [fst snd] in *. subst trace1.
  destruct (finishAll writer db langsheetTrace pendings) as [trace2 runs].
  cbn [fst snd] in *. subst trace2 runs. cbv zeta. split; [|split].
  - destruct (bind _ _); reflexivity.
  - clear. induction allQueries as [|query rest IH]; [reflexivity|].
    cbn [map List.concat]. rewrite dbEvents_app, IH, app_nil_r.
    destruct (reachesDatabase query) eqn:Hr.
    + unfold afterQuery. cbn [fst]. rewrite !dbEvents_app, !dbEvents_write.
      reflexivity.
    + unfold reachesDatabase in Hr. unfold runCandidate.
      destruct (truthy (sqlQuery query)); cbn [negb andb] in *.
      * apply negb_false_iff in Hr. rewrite Hr.
        destruct writer; [|reflexivity].
        destruct (isDangerousQueryOf (sqlQuery query)); cbn [fst];
          [apply dbEvents_write | reflexivity].
      * cbn [fst]. apply dbEvents_write.
  - rewrite map_map. f_equal. f_equal. apply map_ext. intros query.
    destruct (reachesDatabase query); reflexivity.
Qed.

Lemma traced_executor_on_used_trace_witness :
  let run :=
    generateComparisonDataSqlQueriesResponseTraced true oneRowDatabase
      usedTrace 600 (str "span_again") sampleTiming 900
      [selectCandidate; deleteCandidate] in
  fst run = usedTrace
  /\ dbEvents (fst (snd run)) = []
  /\ snd (snd run)
     = Fulfilled
         [ReasoningItem (queryReasoning selectCandidate);
          ErrorItem (queryReasoning selectCandidate)
            (errorText nullSpanParent)].
Proof.
  exact (@traced_executor_on_used_trace true oneRowDatabase usedTrace 600
           (str "span_again") sampleTiming 900
           [selectCandidate; deleteCandidate] eq_refl).
Defined.

(** ** langsheet-client.ts: spans *)

Lemma jsstring_eqb_refl (a : jsstring) : jsstring_eqb a a = true.
Proof. unfold jsstring_eqb. destruct (list_eq_dec ascii_dec a a); congruence. Qed.

Lemma mapHas_mapSet_both (V : Type) (key k : jsstring) (v : V)
    (m : list (jsstring * V)) :
  mapHas key (mapSet key v m) = true
  /\ (mapHas k m = true -> mapHas k (mapSet key v m) = true).
Proof.
  unfold mapHas. induction m as [|[k0 w] m [IH1 IH2]]; simpl.
  - rewrite jsstring_eqb_refl. split; [reflexivity | discriminate].
  - destruct (jsstring_eqb k0 key) eqn:E; simpl.
    + rewrite E. split; [reflexivity | auto].
    + rewrite IH1. split; [apply orb_true_r|].
      intros H. apply orb_true_iff in H. destruct H as [H|H].
      * now rewrite H.
      * rewrite (IH2 H). apply orb_true_r.
Qed.

Lemma mapHas_mapSet (V : Type) (key : jsstring) (v : V)
    (m : list (jsstring * V)) :
  mapHas key (mapSet key v m) = true.
Proof. exact (proj1 (mapHas_mapSet_both key key v m)). Qed.

Lemma mapHas_mapSet_keeps (V : Type) (key k : jsstring) (v : V)
    (m : list (jsstring * V)) :
  mapHas k m = true -> mapHas k (mapSet key v m) = true.
Proof. exact (proj2 (mapHas_mapSet_both key k v m)). Qed.

Lemma mapGet_mapSet (V : Type) (key : jsstring) (v : V)
    (m : list (jsstring * V)) :
  mapGet key (mapSet key v m) = Some v.
Proof.
  unfold mapGet. induction m as [|[k0 w] m IH]; simpl.
  - now rewrite jsstring_eqb_refl.
  - destruct (jsstring_eqb k0 key) eqn:E; simpl; now rewrite E.
Qed.

Lemma mapSet_length (V : Type) (key : jsstring) (v : V)
    (m : list (jsstring * V)) :
  mapHas key m = true -> List.length (mapSet key v m) = List.length m.
Proof.
  unfold mapHas. induction m as [|[k0 w] m IH]; simpl; [discriminate|].
  destruct (jsstring_eqb k0 key); simpl; [reflexivity|].
  intros H. now rewrite IH.
Qed.

Lemma setObject_length (objects : list LangsheetSpan) (ref : nat)
    (span : LangsheetSpan) :
  List.length (setObject objects ref span) = List.length objects.
Proof.
  revert ref. induction objects as [|o rest IH]; intros [|k]; simpl;
    try reflexivity. now rewrite IH.
Qed.

Lemma setObject_nth (objects : list LangsheetSpan) (ref k : nat)
    (span : LangsheetSpan) :
  nth_error (setObject objects ref span) k
  = if Nat.eqb k ref
    then match nth_error objects ref with
         | Some _ => Some span
         | None => None
         end
    else nth_error objects k.
Proof.
  revert ref k. induction objects as [|o rest IH]; intros ref k.
  - destruct ref, k; simpl; try reflexivity.
    destruct (Nat.eqb k ref); reflexivity.
  - destruct ref, k; simpl; try reflexivity. apply IH.
Qed.

(** A call never takes a name out of the map [startSpan] looks into. *)
Lemma call_keeps_names (trace : LangsheetTrace) (c : SpanCall)
    (name : jsstring) :
  mapHas name (activeSpans trace) = true ->
  mapHas name (activeSpans (call trace c)) = true.
Proof.
  intros H. destruct c as [n m a t i | this n m a t i | ref m t]; simpl.
  - unfold startSpan. destruct (mapHas n (activeSpans trace)); [exact H|].
    simpl. now apply mapHas_mapSet_keeps.
  - unfold startChildSpan.
    destruct (nth_error (spanObjects trace) this) as [parent|]; [|exact H].
    destruct (hasActiveSpan trace _); [exact H|].
    simpl. now apply mapHas_mapSet_keeps.
  - unfold endSpan.
    destruct (nth_error (spanObjects trace) ref) as [span|]; [|exact H].
    destruct (isEnded span); exact H.
Qed.

Lemma calls_keep_names (later : list SpanCall) (trace : LangsheetTrace)
    (name : jsstring) :
  mapHas name (activeSpans trace) = true ->
  mapHas name (activeSpans (calls trace later)) = true.
Proof.
  revert trace. induction later as [|c later IH]; intros trace H; [exact H|].
  simpl. apply IH. now apply call_keeps_names.
Qed.

(** A name [startSpan] has been asked for once is refused by [startSpan]
    ever after on that trace, whatever is called in between: the check is
    for the name in the map, not for a span that is still running, and
    nothing takes a name out of the map.  Ending the span does not free its
    name. *)
Theorem startSpan_refuses_used_name (trace : LangsheetTrace)
    (name : jsstring) (meta : option Metadata) (agent : option jsstring)
    (now : Z) (newId : jsstring) (later : list SpanCall)
    (meta' : option Metadata) (agent' : option jsstring) (now' : Z)
    (newId' : jsstring) :
  let started := fst (startSpan trace name meta agent now newId) in
  startSpan (calls started later) name meta' agent' now' newId'
  = (calls started later, None).
Proof.
  cbv zeta.
  assert (H : mapHas name
                (activeSpans (fst (startSpan trace name meta agent now newId)))
              = true).
  { unfold startSpan. destruct (mapHas name (activeSpans trace)) eqn:E.
    - exact E.
    - simpl. apply mapHas_mapSet. }
  apply (calls_keep_names later) in H.
  unfold startSpan at 1. now rewrite H.
Qed.

(** A child span is refused while a span of its name is running, and
    accepted again once that span has ended.  The new span then takes the
    place of the old one in both maps of the trace: the record of the first
    span is no longer among the spans the trace reports. *)
Theorem startChildSpan_replaces_ended_child (trace : LangsheetTrace)
    (this : nat) (name : jsstring) (meta : option Metadata)
    (agent : option jsstring) (now : Z) (newId : jsstring) (ref : nat)
    (meta1 meta2 : option Metadata) (agent2 : option jsstring)
    (now1 now2 : Z) (newId2 : jsstring) :
  snd (startChildSpan trace this name meta agent now newId) = Some ref ->
  let started := fst (startChildSpan trace this name meta agent now newId) in
  let ended := endSpan started ref meta1 now1 in
  let again := startChildSpan ended this name meta2 agent2 now2 newId2 in
  startChildSpan started this name meta2 agent2 now2 newId2 = (started, None)
  /\ snd again = Some (S ref)
  /\ List.length (spans (fst again)) = List.length (spans started)
  /\ mapGet (childSpanNameOf trace this name) (spans (fst again))
     = Some (S ref)
  /\ hasEnded (fst again) ref = true
  /\ hasEnded (fst again) (S ref) = false.
Proof.
  unfold startChildSpan at 1 2. unfold childSpanNameOf.
  destruct (nth_error (spanObjects trace) this) as [parent|] eqn:Hp;
    [|discriminate].
  set (childName := spanName (spanData parent) ++ ":"%char :: name).
  destruct (hasActiveSpan trace childName) eqn:Ha; [discriminate|].
  cbn [addSpanToTrace fst snd]. intros H. injection H as <-.
  set (objs := spanObjects trace).
  set (child := {| spanData := _; isEnded := false |}).
  set (started := {| spans := _; activeSpans := _; spanObjects := _ |}).
  assert (Hthis : nth_error (objs ++ [child]) this = Some parent).
  { rewrite nth_error_app1; [exact Hp|].
    apply nth_error_Some. fold objs in Hp. congruence. }
  assert (Href : nth_error (objs ++ [child]) (List.length objs) = Some child).
  { rewrite nth_error_app2 by lia. now rewrite Nat.sub_diag. }
  assert (Hneq : this <> List.length objs).
  { intros ->. fold objs in Hp.
    assert (nth_error objs (List.length objs) = None)
      by (apply nth_error_None; lia). congruence. }
  cbv zeta. split.
  - unfold startChildSpan. cbn [spanObjects started]. rewrite Hthis.
    fold childName. unfold hasActiveSpan. cbn [activeSpans started].
    rewrite mapGet_mapSet. unfold hasEnded. cbn [spanObjects started].
    rewrite Href. reflexivity.
  - unfold endSpan. cbn [spanObjects started]. rewrite Href.
    cbn [isEnded child].
    set (done := {| spanData := _; isEnded := true |}).
    set (ended := {| spans := _; activeSpans := _; spanObjects := _ |}).
    assert (Hthis' : nth_error (spanObjects ended) this = Some parent).
    { cbn [spanObjects ended]. rewrite setObject_nth.
      destruct (Nat.eqb this (List.length objs)) eqn:E.
      - apply Nat.eqb_eq in E. contradiction.
      - exact Hthis. }
    assert (Href' : nth_error (spanObjects ended) (List.length objs)
                    = Some done).
    { cbn [spanObjects ended]. rewrite setObject_nth, Nat.eqb_refl.
      now rewrite Href. }
    assert (Hact : hasActiveSpan ended childName = false).
    { unfold hasActiveSpan. cbn [activeSpans ended started].
      rewrite mapGet_mapSet. unfold hasEnded. rewrite Href'. reflexivity. }
    unfold startChildSpan. rewrite Hthis'. fold childName. rewrite Hact.
    cbn [addSpanToTrace fst snd spans spanObjects ended started].
    assert (Hlen : List.length (setObject (objs ++ [child]) (List.length objs)
                                  done) = S (List.length objs)).
    { rewrite setObject_length, length_app. simpl. lia. }
    rewrite Hlen. split; [reflexivity|]. split.
    + apply mapSet_length. apply mapHas_mapSet.
    + split; [apply mapGet_mapSet|]. unfold hasEnded.
      cbn [spanObjects]. split.
      * rewrite nth_error_app1 by (rewrite Hlen; lia).
        cbn [spanObjects ended] in Href'. now rewrite Href'.
      * rewrite nth_error_app2 by (rewrite Hlen; lia).
        rewrite Hlen, Nat.sub_diag. reflexivity.
Qed.

Lemma startChildSpan_replaces_ended_child_witness :
  let started :=
    fst (startChildSpan parentTrace 0 (str "sqlQuery: ETF Data") None None 1
           (str "span_b")) in
  let ended := endSpan started 1 None 2 in
  let again :=
    startChildSpan ended 0 (str "sqlQuery: ETF Data") None None 3
      (str "span_c") in
  startChildSpan started 0 (str "sqlQuery: ETF Data") None None 3 (str "span_c")
  = (started, None)
  /\ snd again = Some 2
  /\ List.length (spans (fst again)) = List.length (spans started)
  /\ mapGet (childSpanNameOf parentTrace 0 (str "sqlQuery: ETF Data"))
       (spans (fst again)) = Some 2
  /\ hasEnded (fst again) 1 = true
  /\ hasEnded (fst again) 2 = false.
Proof.
  exact (@startChildSpan_replaces_ended_child parentTrace 0
           (str "sqlQuery: ETF Data") None None 1 (str "span_b") 1 None None
           None 2 3 (str "span_c") eq_refl).
Defined.

Lemma call_keeps_ended (trace : LangsheetTrace) (c : SpanCall) (ref : nat) :
  hasEnded trace ref = true ->
  nth_error (spanObjects (call trace c)) ref
  = nth_error (spanObjects trace) ref.
Proof.
  unfold hasEnded. intros H.
  destruct (nth_error (spanObjects trace) ref) as [span|] eqn:Hs;
    [|discriminate].
  assert (Hlt : ref < List.length (spanObjects trace))
    by (apply nth_error_Some; congruence).
  destruct c as [n m a t i | this n m a t i | r m t]; simpl.
  - unfold startSpan. destruct (mapHas n (activeSpans trace)); [exact Hs|].
    simpl. now rewrite nth_error_app1.
  - unfold startChildSpan.
    destruct (nth_error (spanObjects trace) this) as [parent|]; [|exact Hs].
    destruct (hasActiveSpan trace _); [exact Hs|].
    simpl. now rewrite nth_error_app1.
  - unfold endSpan.
    destruct (nth_error (spanObjects trace) r) as [other|] eqn:Hr; [|exact Hs].
    destruct (isEnded other) eqn:He; [exact Hs|].
    simpl. rewrite setObject_nth.
    destruct (Nat.eqb ref r) eqn:E; [|exact Hs].
    apply Nat.eqb_eq in E. subst r. congruence.
Qed.

(** A span that has ended is never touched again: whatever is called on
    the trace afterwards, a second [end] included, its end time and its
    metadata stay what the first [end] made them. *)
Theorem ended_span_is_frozen (trace : LangsheetTrace) (ref : nat)
    (later : list SpanCall) :
  hasEnded trace ref = true ->
  nth_error (spanObjects (calls trace later)) ref
  = nth_error (spanObjects trace) ref.
Proof.
  revert trace. induction later as [|c later IH]; intros trace H;
    [reflexivity|].
  simpl. pose proof (@call_keeps_ended trace c ref H) as Hc.
  rewrite IH.
  - exact Hc.
  - unfold hasEnded in *. now rewrite Hc.
Qed.

Lemma ended_span_is_frozen_witness :
  let ended := endSpan parentTrace 0 None 5 in
  nth_error
    (spanObjects
       (calls ended
          [EndSpan 0 (Some [(str "output", MetaText (str "late"))]) 9;
           StartSpan (str "getUserPortfolio") None None 10 (str "span_d")]))
    0
  = nth_error (spanObjects ended) 0.
Proof.
  exact (@ended_span_is_frozen (endSpan parentTrace 0 None 5) 0
           [EndSpan 0 (Some [(str "output", MetaText (str "late"))]) 9;
            StartSpan (str "getUserPortfolio") None None 10 (str "span_d")]
           eq_refl).
Defined.

(** The child span of a query is ended when the query has been answered,
    with rows or with an error, but not when the pool refuses the
    connection: [await pool.connect()] stands before the [try].  The span
    then stays running for good, and a later query of the same step under
    the same parent gets no span. *)
Theorem refused_connection_leaves_span_running (writer : bool) (db : Database)
    (timing : Timing) (trace : LangsheetTrace) (parent n : nat)
    (query : CandidateQuery) :
  reachesDatabase query = true ->
  nth_error (spanObjects trace) parent <> None ->
  let childName :=
    childSpanNameOf trace parent (str "sqlQuery: " ++ stepName query) in
  hasActiveSpan trace childName = false ->
  let begun := beginCandidate writer timing (Some parent) (trace, n) query in
  let finished :=
    fst (finishCandidate writer db (fst (fst begun)) (snd begun)) in
  hasActiveSpan finished childName
  = match poolConnect db with
    | Some _ => true
    | None => false
    end
  /\ (poolConnect db <> None ->
      forall meta agent now newId,
        startChildSpan finished parent (str "sqlQuery: " ++ stepName query)
          meta agent now newId = (finished, None)).
Proof.
  intros Hreach Hparent childName Hfree.
  unfold reachesDatabase in Hreach. apply andb_true_iff in Hreach.
  destruct Hreach as [Ht Hn]. apply negb_true_iff in Hn.
  destruct (sqlQuery query) as [| | | | |text|] eqn:Hq; try discriminate Hn.
  unfold childSpanNameOf in childName.
  destruct (nth_error (spanObjects trace) parent) as [parentSpan|] eqn:Hp;
    [|now destruct Hparent].
  set (objs := spanObjects trace) in *.
  pose (child :=
          {| spanData :=
               {| spanId := idOf timing n; spanName := childName;
                  metadata := Some [(str "input", MetaText text)];
                  agentName := firstTruthy None (agentName (spanData parentSpan));
                  startTime := startedAt timing n; endTime := None;
                  parentId := Some (spanId (spanData parentSpan)) |};
             isEnded := false |}).
  pose (started :=
          {| spans := mapSet childName (List.length objs) (spans trace);
             activeSpans :=
               mapSet childName (List.length objs) (activeSpans trace);
             spanObjects := objs ++ [child] |}).
  assert (Hbegun : beginCandidate writer timing (Some parent) (trace, n) query
                   = ((started, S n),
                      AtConnect query text (Some (List.length objs))
                        (endedAt timing n))).
  { unfold beginCandidate. rewrite Hq, Ht, Hn. cbn [negb].
    unfold startChildSpan. fold objs. rewrite Hp. fold childName.
    rewrite Hfree. reflexivity. }
  assert (Hthis : nth_error (objs ++ [child]) parent = Some parentSpan).
  { rewrite nth_error_app1; [exact Hp|].
    apply nth_error_Some. congruence. }
  assert (Href : nth_error (objs ++ [child]) (List.length objs) = Some child).
  { rewrite nth_error_app2 by lia. now rewrite Nat.sub_diag. }
  assert (Hrun : hasActiveSpan started childName = true).
  { unfold hasActiveSpan. cbn [activeSpans started]. rewrite mapGet_mapSet.
    unfold hasEnded. cbn [spanObjects started]. now rewrite Href. }
  assert (Hdone : forall meta now,
            hasActiveSpan (endSpan started (List.length objs) meta now)
              childName = false).
  { intros meta now. unfold endSpan. cbn [spanObjects started]. rewrite Href.
    cbn [isEnded child]. unfold hasActiveSpan.
    cbn [activeSpans started]. rewrite mapGet_mapSet.
    unfold hasEnded. cbn [spanObjects]. rewrite setObject_nth, Nat.eqb_refl.
    now rewrite Href. }
  cbv zeta. rewrite Hbegun. cbn [fst snd]. unfold finishCandidate.
  destruct (poolConnect db) as [e|].
  - destruct (afterQuery writer query (Rejected e)). cbn [fst]. split.
    + exact Hrun.
    + intros _ meta agent now newId. unfold startChildSpan.
      cbn [spanObjects started]. rewrite Hthis. fold childName.
      now rewrite Hrun.
  - destruct (clientQuery db _) as [rows|e];
      destruct (afterQuery writer query _); cbn [fst endIfSpan];
      (split; [apply Hdone | intros H; now destruct H]).
Qed.

Lemma refused_connection_leaves_span_running_witness :
  let childName :=
    childSpanNameOf parentTrace 0 (str "sqlQuery: " ++ stepName selectCandidate)
  in
  let begun :=
    beginCandidate true sampleTiming (Some 0) (parentTrace, 0) selectCandidate
  in
  let finished :=
    fst (finishCandidate true closedDatabase (fst (fst begun)) (snd begun)) in
  hasActiveSpan finished childName = true
  /\ (poolConnect closedDatabase <> None ->
      forall meta agent now newId,
        startChildSpan finished 0 (str "sqlQuery: " ++ stepName selectCandidate)
          meta agent now newId = (finished, None)).
Proof.
  apply (@refused_connection_leaves_span_running true closedDatabase
           sampleTiming parentTrace 0 0 selectCandidate).
  - reflexivity.
  - discriminate.
  - reflexivity.
Defined.
